(** * TotalControl: a shallow embedding of the rule, classifier and blocker code

    The development follows the Python sources module by module:

    - [Py]             the fragment of the Python run time the code relies on
                       (exceptions, [str] methods, number formatting, binary64
                       arithmetic, [datetime], sets, state and exceptions);
    - [Re]             the regular expressions of [re] that the patterns use;
    - [Models]         [shared/models.py]: conditions, rules, progress, the
                       rule store;
    - [Blocker]        [windows/blocker.py]: the hosts-file blocker;
    - [WindowMonitor]  [desktop/window_monitor.py]: the window-title classifier;
    - [ScreenAnalyzer] [ocr/screen_analyzer.py]: the OCR-text classifier.

    Definitions come first: the code, then concrete scenarios and the
    vocabulary of the statements ([ModelsSpec], [BlockerSpec],
    [WindowMonitorSpec], [ReSpec], [ScreenAnalyzerSpec]).  The properties of
    the specification are stated and proved after them.

    Conventions.  A Python [str] is a [string] whose characters are read as the
    code points 0..255 (Latin-1); code points above 255 are outside the model.
    A Python [int] is a [Z], a Python [float] a primitive binary64 [float].
    A call that can raise returns a [result]; code that reads the wall clock or
    the file system threads the corresponding state explicitly. *)

From Stdlib Require Import ZArith QArith Lqa String Ascii List Lia Floats DecimalString.
From stdpp Require Import base gmap strings list sets.

Set Warnings "-register-all".

Local Open Scope Z_scope.

(* ===================================================================== *)
(** * Python run time                                                    *)
(* ===================================================================== *)

Module Py.

(** ** Exceptions and results *)

Inductive exn : Type :=
  | ZeroDivisionError
  | TypeError
  | ValueError
  | KeyError
  | AttributeError
  | OverflowError
  | FileNotFoundError
  | PermissionError
  | JSONDecodeError.

Inductive result (A : Type) : Type :=
  | Ok (a : A)
  | Raise (e : exn).
Arguments Ok {A} a.
Arguments Raise {A} e.

Definition bind {A B : Type} (r : result A) (k : A -> result B) : result B :=
  match r with
  | Ok a => k a
  | Raise e => Raise e
  end.

Definition is_ok {A : Type} (r : result A) : bool :=
  match r with Ok _ => true | Raise _ => false end.

(** ** Characters and strings *)

Definition code (c : ascii) : N := N_of_ascii c.

Definition in_range (lo hi n : N) : bool := ((lo <=? n) && (n <=? hi))%N.

(** [str.lower] on one code point below 256: [A-Z] and the Latin-1 capitals
    U+00C0..U+00DE (the multiplication sign U+00D7 excepted) move up by 32. *)
Definition lower_char (c : ascii) : ascii :=
  let n := code c in
  if in_range 65 90 n || (in_range 192 222 n && negb (n =? 215)%N)
  then ascii_of_N (n + 32) else c.

(** [s.lower()] *)
Fixpoint lower (s : string) : string :=
  match s with
  | EmptyString => EmptyString
  | String c s' => String (lower_char c) (lower s')
  end.

(** [str.isspace] on one code point below 256. *)
Definition is_space (c : ascii) : bool :=
  let n := code c in
  in_range 9 13 n || in_range 28 32 n || (n =? 133)%N || (n =? 160)%N.

Fixpoint lstrip (s : string) : string :=
  match s with
  | EmptyString => EmptyString
  | String c s' => if is_space c then lstrip s' else s
  end.

Fixpoint rstrip (s : string) : string :=
  match s with
  | EmptyString => EmptyString
  | String c s' =>
      match rstrip s' with
      | EmptyString => if is_space c then EmptyString else String c EmptyString
      | r => String c r
      end
  end.

(** [s.strip()] *)
Definition strip (s : string) : string := rstrip (lstrip s).

(** [s.startswith(p)] *)
Fixpoint startswith (p s : string) : bool :=
  match p, s with
  | EmptyString, _ => true
  | String a p', String b s' => Ascii.eqb a b && startswith p' s'
  | String _ _, EmptyString => false
  end.

(** [p in s] for two strings: [p] occurs in [s] as a substring. *)
Fixpoint contains (p s : string) : bool :=
  startswith p s ||
  match s with
  | EmptyString => false
  | String _ s' => contains p s'
  end.

(** [sep.join(l)] *)
Fixpoint join (sep : string) (l : list string) : string :=
  match l with
  | [] => EmptyString
  | [x] => x
  | x :: l' => x +:+ sep +:+ join sep l'
  end.

(** The string made of one line feed. *)
Definition nl : string := String "010" EmptyString.

(** [s[n:]] *)
Fixpoint drop_chars (n : nat) (s : string) : string :=
  match n, s with
  | O, _ => s
  | S n', String _ s' => drop_chars n' s'
  | S _, EmptyString => EmptyString
  end.

(** ** Integers as text *)

(** [str(n)] *)
Definition str_of_int (n : Z) : string := NilZero.string_of_int (Z.to_int n).

(** Digits of a non-negative decimal numeral cut in groups of three from the
    right, as the [','] option of the format mini-language does. *)
Fixpoint group3 (rev_digits : list ascii) : list ascii :=
  match rev_digits with
  | a :: b :: c :: ((_ :: _) as rest) => a :: b :: c :: ","%char :: group3 rest
  | l => l
  end.

(** [f"{n:,}"] *)
Definition format_thousands (n : Z) : string :=
  let body := string_of_list_ascii
                (rev (group3 (rev (list_ascii_of_string (str_of_int (Z.abs n)))))) in
  if n <? 0 then "-" +:+ body else body.

(** [f"{n:0{w}d}"] for a non-negative [n]. *)
Definition zero_pad (w : nat) (n : Z) : string :=
  let s := str_of_int n in
  string_of_list_ascii (repeat "0"%char (w - String.length s)) +:+ s.

(** ** Binary64 arithmetic *)

Definition sf_of_int (z : Z) : spec_float :=
  match z with
  | Z0 => S754_zero false
  | Zpos p => S754_finite false p 0
  | Zneg p => S754_finite true p 0
  end.

(** [a / b] on two ints: the correctly rounded quotient. *)
Definition int_truediv (a b : Z) : result float :=
  if b =? 0 then Raise ZeroDivisionError
  else match SFdiv prec emax (sf_of_int a) (sf_of_int b) with
       | S754_infinity _ => Raise OverflowError
       | q => Ok (SF2Prim q)
       end.

(** [int(x)] on a float: truncation toward zero. *)
Definition int_of_float (x : float) : result Z :=
  match Prim2SF x with
  | S754_nan => Raise ValueError
  | S754_infinity _ => Raise OverflowError
  | S754_zero _ => Ok 0
  | S754_finite s m e =>
      let a := if 0 <=? e then Z.shiftl (Zpos m) e else Z.shiftr (Zpos m) (- e) in
      Ok (if s then - a else a)
  end.

(** [x <= n] for a float [x] and an int [n]; Python compares the two exactly. *)
Definition float_le_int (x : float) (n : Z) : bool :=
  match Prim2SF x with
  | S754_nan => false
  | S754_infinity s => s
  | S754_zero _ => 0 <=? n
  | S754_finite s m e =>
      let v := if s then Zneg m else Zpos m in
      if 0 <=? e then Z.shiftl v e <=? n else v <=? Z.shiftl n (- e)
  end.

(** [min(a, b)] on two floats: [b] when [b < a], else [a]. *)
Definition float_min (a b : float) : float := if (b <? a)%float then b else a.

(** [x ** 2]: the product, with the range error of [float.__pow__]. *)
Definition float_sq (x : float) : result float :=
  let y := (x * x)%float in
  if PrimFloat.is_finite x && PrimFloat.is_infinity y then Raise OverflowError else Ok y.

(** [math.sqrt] *)
Definition math_sqrt (x : float) : result float :=
  if (x <? 0)%float then Raise ValueError else Ok (PrimFloat.sqrt x).

(** ** [datetime] *)

Record Time : Type := mkTime {
  t_hour : Z; t_minute : Z; t_second : Z; t_microsecond : Z }.

Record DateTime : Type := mkDateTime {
  year : Z; month : Z; day : Z;
  hour : Z; minute : Z; second : Z; microsecond : Z }.

(** [dt.time()] *)
Definition time_of (d : DateTime) : Time :=
  mkTime (hour d) (minute d) (second d) (microsecond d).

(** [datetime.combine(date, t)]; only the date part of the first argument is used. *)
Definition combine (date : DateTime) (t : Time) : DateTime :=
  mkDateTime (year date) (month date) (day date)
             (t_hour t) (t_minute t) (t_second t) (t_microsecond t).

(** [a >= b] on two naive times: lexicographic on the four fields. *)
Definition time_ge (a b : Time) : bool :=
  match t_hour a ?= t_hour b with
  | Gt => true | Lt => false
  | Eq => match t_minute a ?= t_minute b with
          | Gt => true | Lt => false
          | Eq => match t_second a ?= t_second b with
                  | Gt => true | Lt => false
                  | Eq => t_microsecond b <=? t_microsecond a
                  end
          end
  end.

Definition is_leap (y : Z) : bool :=
  (y mod 4 =? 0) && (negb (y mod 100 =? 0) || (y mod 400 =? 0)).

Definition days_before_year (y : Z) : Z :=
  let p := y - 1 in p * 365 + p / 4 - p / 100 + p / 400.

Definition days_before_month (y m : Z) : Z :=
  nth (Z.to_nat m) [0; 0; 31; 59; 90; 120; 151; 181; 212; 243; 273; 304; 334] 0
  + (if (2 <? m) && is_leap y then 1 else 0).

(** The proleptic Gregorian ordinal of a date. *)
Definition ymd2ord (y m d : Z) : Z := days_before_year y + days_before_month y m + d.

(** [a - b] on two naive datetimes, as a number of microseconds. *)
Definition sub_microseconds (a b : DateTime) : Z :=
  let secs d := hour d * 3600 + minute d * 60 + second d in
  ((ymd2ord (year a) (month a) (day a) - ymd2ord (year b) (month b) (day b)) * 86400
   + (secs a - secs b)) * 1000000 + (microsecond a - microsecond b).

(** [delta.total_seconds()] for a delta of [us] microseconds. *)
Definition total_seconds (us : Z) : result float := int_truediv us 1000000.

(** [dt.isoformat()] *)
Definition isoformat (d : DateTime) : string :=
  zero_pad 4 (year d) +:+ "-" +:+ zero_pad 2 (month d) +:+ "-" +:+ zero_pad 2 (day d)
  +:+ "T" +:+ zero_pad 2 (hour d) +:+ ":" +:+ zero_pad 2 (minute d)
  +:+ ":" +:+ zero_pad 2 (second d)
  +:+ (if microsecond d =? 0 then "" else "." +:+ zero_pad 6 (microsecond d)).

Definition is_digit (c : ascii) : bool := in_range 48 57 (code c).
Definition digit_val (c : ascii) : Z := Z.of_N (code c) - 48.

(** The minute field of ["%H:%M"]: the directive [%M] is the pattern
    [[0-5]\d|\d]; whatever follows the match is unconverted data. *)
Definition parse_minute (s : string) : result Z :=
  match s with
  | String a (String b rest) =>
      if is_digit a && (digit_val a <=? 5) && is_digit b then
        match rest with
        | EmptyString => Ok (10 * digit_val a + digit_val b)
        | _ => Raise ValueError
        end
      else Raise ValueError
  | String a EmptyString => if is_digit a then Ok (digit_val a) else Raise ValueError
  | EmptyString => Raise ValueError
  end.

(** [datetime.strptime(s, "%H:%M").time()]; [%H] is the pattern
    [2[0-3]|[0-1]\d|\d]. *)
Definition strptime_HM (s : string) : result Time :=
  let finish h rest := bind (parse_minute rest) (fun m => Ok (mkTime h m 0 0)) in
  match s with
  | String a (String b (String c rest)) =>
      if is_digit a && is_digit b && Ascii.eqb c ":"
         && (10 * digit_val a + digit_val b <=? 23)
      then finish (10 * digit_val a + digit_val b) rest
      else if is_digit a && Ascii.eqb b ":" then finish (digit_val a) (String c rest)
      else Raise ValueError
  | String a (String b rest) =>
      if is_digit a && Ascii.eqb b ":" then finish (digit_val a) rest
      else Raise ValueError
  | _ => Raise ValueError
  end.

(** ** The wall clock

    Every call of [datetime.now()] (or [datetime.today()]) consumes one reading
    of the clock: the state is the sequence of the readings still to come. *)

Definition Clock : Type := nat -> DateTime.

Definition frozen (d : DateTime) : Clock := fun _ => d.

Definition now (k : Clock) : DateTime * Clock := (k O, fun n => k (S n)).

(** ** Unordered sets

    A Python [set] of strings is a [gset string].  The order in which a set is
    iterated depends on the hashes of its elements and is left open: it is a
    parameter of the code that iterates. *)

Definition set_order : Type := gset string -> list string.

Definition set_order_ok (o : set_order) : Prop := forall s, o s ≡ₚ elements s.

(** ** State and exceptions

    A computation over a state [S] returns a value or raises, and leaves a
    state behind in both cases. *)

Definition M (S A : Type) : Type := S -> result A * S.

Definition ret {S A : Type} (a : A) : M S A := fun s => (Ok a, s).

Definition raise {S A : Type} (e : exn) : M S A := fun s => (Raise e, s).

Definition lift {S A : Type} (r : result A) : M S A := fun s => (r, s).

Definition mbind {S A B : Type} (m : M S A) (k : A -> M S B) : M S B :=
  fun s => match m s with
           | (Ok a, s') => k a s'
           | (Raise e, s') => (Raise e, s')
           end.

(** [datetime.now()] as a computation over the clock. *)
Definition datetime_now : M Clock DateTime := fun k => let (d, k') := now k in (Ok d, k').

End Py.

Notation "x <- m ;; k" := (Py.mbind m (fun x => k))
  (at level 100, m at next level, right associativity).

(* ===================================================================== *)
(** * The regular expressions of [re]                                    *)
(* ===================================================================== *)

(** The fragment of the [re] syntax that the patterns of the sources use:
    literals, [.], escapes ([\w], [\s], [\d], escaped punctuation), bracketed
    sets with ranges, groups, alternation, the quantifiers [*], [+], [?] and
    the anchors [^] and [$].  Only the truth value of [re.search] is used by
    the sources, so a match is a yes or a no. *)

Module Re.
Import Py.

Inductive citem : Type :=
  | CChar (c : ascii)
  | CRange (lo hi : ascii)
  | CWord                  (* \w *)
  | CSpace                 (* \s *)
  | CDigit.                (* \d *)

Inductive regex : Type :=
  | Eps
  | Chr (c : ascii)
  | Dot
  | Cls (negated : bool) (items : list citem)
  | Bol                    (* ^ *)
  | Eol                    (* $ *)
  | Seq (r1 r2 : regex)
  | Alt (r1 r2 : regex)
  | Star (r : regex).

(** ** Parsing a pattern *)

Definition is_ascii_alnum (c : ascii) : bool :=
  let n := code c in in_range 48 57 n || in_range 65 90 n || in_range 97 122 n.

(** The item an escape [\c] stands for; [None] for the escapes outside the
    fragment. *)
Definition escape_item (c : ascii) : option citem :=
  if Ascii.eqb c "w" then Some CWord
  else if Ascii.eqb c "s" then Some CSpace
  else if Ascii.eqb c "d" then Some CDigit
  else if is_ascii_alnum c then None
  else Some (CChar c).

(** The items of a set, up to the closing bracket. *)
Fixpoint parse_class (s : list ascii) : option (list citem * list ascii) :=
  let cons_item i tail :=
    match tail with
    | Some (items, rest) => Some (i :: items, rest)
    | None => None
    end in
  match s with
  | [] => None
  | c :: rest =>
      if Ascii.eqb c "]" then Some ([], rest)
      else if Ascii.eqb c "\" then
        match rest with
        | e :: rest' =>
            match escape_item e with
            | Some i => cons_item i (parse_class rest')
            | None => None
            end
        | [] => None
        end
      else
        match rest with
        | d :: hi :: rest' =>
            if Ascii.eqb d "-" && negb (Ascii.eqb hi "]") then
              if Ascii.eqb hi "\" || (code hi <? code c)%N then None
              else cons_item (CRange c hi) (parse_class rest')
            else cons_item (CChar c) (parse_class rest)
        | _ => cons_item (CChar c) (parse_class rest)
        end
  end.

(** A quantifier after an atom. *)
Definition quantified (a : regex) (s : list ascii) : regex * list ascii :=
  match s with
  | q :: rest =>
      if Ascii.eqb q "*" then (Star a, rest)
      else if Ascii.eqb q "+" then (Seq a (Star a), rest)
      else if Ascii.eqb q "?" then (Alt a Eps, rest)
      else (a, s)
  | [] => (a, s)
  end.

Definition one_of (chars : string) (c : ascii) : bool :=
  existsb (Ascii.eqb c) (list_ascii_of_string chars).

(** Recursive descent; [n] bounds the depth of the calls. *)
Fixpoint parse_alt (n : nat) (s : list ascii) : option (regex * list ascii) :=
  match n with
  | O => None
  | S n' =>
      match parse_seq n' s with
      | Some (r, c :: rest) =>
          if Ascii.eqb c "|" then
            match parse_alt n' rest with
            | Some (r2, rest') => Some (Alt r r2, rest')
            | None => None
            end
          else Some (r, c :: rest)
      | other => other
      end
  end
with parse_seq (n : nat) (s : list ascii) : option (regex * list ascii) :=
  match n with
  | O => None
  | S n' =>
      match s with
      | [] => Some (Eps, [])
      | c :: _ =>
          if one_of "|)" c then Some (Eps, s)
          else
            match parse_atom n' s with
            | Some (a, rest) =>
                let (a', rest') := quantified a rest in
                match parse_seq n' rest' with
                | Some (r, rest'') => Some (Seq a' r, rest'')
                | None => None
                end
            | None => None
            end
      end
  end
with parse_atom (n : nat) (s : list ascii) : option (regex * list ascii) :=
  match n with
  | O => None
  | S n' =>
      match s with
      | [] => None
      | c :: rest =>
          if Ascii.eqb c "(" then
            match rest with
            | q :: _ =>
                if Ascii.eqb q "?" then None
                else match parse_alt n' rest with
                     | Some (r, d :: rest') =>
                         if Ascii.eqb d ")" then Some (r, rest') else None
                     | _ => None
                     end
            | [] => None
            end
          else if Ascii.eqb c "[" then
            match rest with
            | h :: rest' =>
                let negated := Ascii.eqb h "^" in
                match parse_class (if negated then rest' else rest) with
                | Some ([], _) => None
                | Some (items, rest'') => Some (Cls negated items, rest'')
                | None => None
                end
            | [] => None
            end
          else if Ascii.eqb c "\" then
            match rest with
            | e :: rest' =>
                match escape_item e with
                | Some (CChar x) => Some (Chr x, rest')
                | Some i => Some (Cls false [i], rest')
                | None => None
                end
            | [] => None
            end
          else if Ascii.eqb c "." then Some (Dot, rest)
          else if Ascii.eqb c "^" then Some (Bol, rest)
          else if Ascii.eqb c "$" then Some (Eol, rest)
          else if one_of "*+?{}" c then None
          else Some (Chr c, rest)
      end
  end.

(** [re.compile(pattern)]; [None] when the pattern is outside the fragment. *)
Definition compile (pattern : string) : option regex :=
  let s := list_ascii_of_string pattern in
  match parse_alt (4 * length s + 4) s with
  | Some (r, []) => Some r
  | _ => None
  end.

(** ** Matching *)

(** [\w] on a code point below 256: the alphanumeric characters and [_]. *)
Definition is_word (c : ascii) : bool :=
  let n := code c in
  in_range 48 57 n || in_range 65 90 n || (n =? 95)%N || in_range 97 122 n
  || (n =? 170)%N || in_range 178 179 n || (n =? 181)%N || in_range 185 186 n
  || in_range 188 190 n || in_range 192 214 n || in_range 216 246 n
  || in_range 248 255 n.

(** A literal of the pattern against a character of the text; with
    [re.IGNORECASE] both are compared in lower case. *)
Definition chr_matches (ignorecase : bool) (c x : ascii) : bool :=
  if ignorecase then Ascii.eqb (lower_char c) (lower_char x) else Ascii.eqb c x.

(** An item of a set against a character [x]; with [re.IGNORECASE] the
    caller passes [x] in lower case and the item stands for the lower-case
    images of its characters. *)
Definition item_matches (ignorecase : bool) (i : citem) (x : ascii) : bool :=
  match i with
  | CChar c => Ascii.eqb (if ignorecase then lower_char c else c) x
  | CRange lo hi =>
      let n := code x in
      in_range (code lo) (code hi) n
      || (ignorecase && (32 <=? n)%N && in_range (code lo) (code hi) (n - 32)
          && Ascii.eqb (lower_char (ascii_of_N (n - 32))) x)
  | CWord => is_word x
  | CSpace => is_space x
  | CDigit => is_digit x
  end.

Definition cls_matches (ignorecase negated : bool) (items : list citem) (x : ascii) : bool :=
  let x' := if ignorecase then lower_char x else x in
  xorb negated (existsb (fun i => item_matches ignorecase i x') items).

Definition newline : ascii := "010".

(** [$]: at the end of the text, or just before a newline that ends it. *)
Definition at_end (s : list ascii) : bool :=
  match s with
  | [] => true
  | [c] => Ascii.eqb c newline
  | _ => false
  end.

(** [matches ic r bos s k]: some match of [r] at the front of [s] leaves a
    rest that [k] accepts.  [bos] tells whether the front of [s] is the start
    of the whole text.  A round of a repetition that consumes nothing cannot
    change the outcome and is skipped. *)
Fixpoint matches (ic : bool) (r : regex) (bos : bool) (s : list ascii)
    (k : bool -> list ascii -> bool) {struct r} : bool :=
  match r with
  | Eps => k bos s
  | Chr c =>
      match s with
      | x :: s' => if chr_matches ic c x then k false s' else false
      | [] => false
      end
  | Dot =>
      match s with
      | x :: s' => if Ascii.eqb x newline then false else k false s'
      | [] => false
      end
  | Cls negated items =>
      match s with
      | x :: s' => if cls_matches ic negated items x then k false s' else false
      | [] => false
      end
  | Bol => if bos then k bos s else false
  | Eol => if at_end s then k bos s else false
  | Seq a b => matches ic a bos s (fun bos' s' => matches ic b bos' s' k)
  | Alt a b => if matches ic a bos s k then true else matches ic b bos s k
  | Star a =>
      (fix loop (n : nat) (bos : bool) (s : list ascii) {struct n} : bool :=
         if k bos s then true
         else match n with
              | O => false
              | S n' =>
                  matches ic a bos s
                    (fun bos' s' =>
                       if (length s' <? length s)%nat then loop n' bos' s' else false)
              end) (length s) bos s
  end.

(** A match of [r] starting at some position of [s]. *)
Fixpoint search_from (ic : bool) (r : regex) (bos : bool) (s : list ascii) : bool :=
  if matches ic r bos s (fun _ _ => true) then true
  else match s with
       | [] => false
       | _ :: s' => search_from ic r false s'
       end.

(** The truth value of [re.search(pattern, text)], or of
    [re.search(pattern, text, re.IGNORECASE)] when [ignorecase] is set. *)
Definition search (ignorecase : bool) (pattern text : string) : bool :=
  match compile pattern with
  | Some r => search_from ignorecase r true (list_ascii_of_string text)
  | None => false
  end.

End Re.

(* ===================================================================== *)
(** * shared/models.py                                                   *)
(* ===================================================================== *)

Module Models.
Import Py.

Inductive ConditionType : Type :=
  | STEPS | TIME | WORKOUT | LOCATION | TOMORROW | PASSWORD.

Record Location : Type := mkLocation {
  name : string;
  latitude : float;
  longitude : float;
  radius_meters : Z }.

Record Condition : Type := mkCondition {
  type : ConditionType;
  steps_target : option Z;
  time_target : option string;
  workout_minutes : option Z;
  location : option Location }.

Record Rule : Type := mkRule {
  id : string;
  blocked_items : list string;
  condition : Condition;
  enabled : bool;
  created_at : string }.

Record Progress : Type := mkProgress {
  steps_today : Z;
  workout_minutes_today : Z;
  current_location : option Location }.

(** An attribute that holds [None] where the code uses it as a number, a
    string or an object. *)
Definition required {A : Type} (e : exn) (o : option A) : result A :=
  match o with
  | Some a => Ok a
  | None => Raise e
  end.

(** The [STEPS] branch of [check_condition]. *)
Definition check_steps (self : Progress) (condition : Condition) : result (bool * string) :=
  bind (required TypeError (steps_target condition)) (fun target =>
  let met := target <=? steps_today self in
  bind (int_truediv (steps_today self) target) (fun q =>
  bind (int_of_float (q * 100)%float) (fun p =>
  let pct := Z.min 100 p in
  Ok (met, format_thousands (steps_today self) +:+ "/" +:+ format_thousands target
           +:+ " (" +:+ str_of_int pct +:+ "%)")))).

(** The [TIME] branch: the target is parsed first, then the clock is read
    once for the comparison and, when the target is still ahead, twice more
    ([datetime.today()], [datetime.now()]) for the time that remains. *)
Definition check_time (condition : Condition) : M Clock (bool * string) :=
  target <- lift (bind (required TypeError (time_target condition)) strptime_HM) ;;
  now <- datetime_now ;;
  let met := time_ge (time_of now) target in
  if met then ret (true, "Time reached"%string)
  else
    today <- datetime_now ;;
    now_dt <- datetime_now ;;
    let target_dt := combine today target in
    let remaining := sub_microseconds target_dt now_dt in
    secs <- lift (total_seconds remaining) ;;
    mins <- lift (int_of_float (secs / 60)%float) ;;
    if 60 <? mins
    then ret (false, str_of_int (mins / 60) +:+ "h " +:+ str_of_int (mins mod 60) +:+ "m left")
    else ret (false, str_of_int mins +:+ "m left").

(** The [WORKOUT] branch. *)
Definition check_workout (self : Progress) (condition : Condition) : result (bool * string) :=
  bind (required TypeError (workout_minutes condition)) (fun target =>
  let met := target <=? workout_minutes_today self in
  Ok (met, str_of_int (workout_minutes_today self) +:+ "/" +:+ str_of_int target +:+ "min")).

(** The [LOCATION] branch: a planar distance, one degree taken as 111000 m. *)
Definition check_location (self : Progress) (condition : Condition) : result (bool * string) :=
  match current_location self with
  | None => Ok (false, "Location unknown"%string)
  | Some cur =>
      bind (required AttributeError (location condition)) (fun loc =>
      bind (float_sq (latitude cur - latitude loc)%float) (fun dlat2 =>
      bind (float_sq (longitude cur - longitude loc)%float) (fun dlng2 =>
      bind (math_sqrt (dlat2 + dlng2)%float) (fun root =>
      let dist := (root * 111000)%float in
      let met := float_le_int dist (radius_meters loc) in
      Ok (met, (if met then "At" else "Not at") +:+ " " +:+ name loc)))))
  end.

(** [Progress.check_condition]: returns [(is_met, progress_string)].  The
    final [return False, "Unknown"] of the source is unreachable: the six
    members of the enum are all handled. *)
Definition check_condition (self : Progress) (condition : Condition) : M Clock (bool * string) :=
  match type condition with
  | STEPS => lift (check_steps self condition)
  | TIME => check_time condition
  | WORKOUT => lift (check_workout self condition)
  | LOCATION => lift (check_location self condition)
  | TOMORROW => ret (false, "Blocked until tomorrow"%string)
  | PASSWORD => ret (false, "Enter password to unlock"%string)
  end.

(** The loop of [RuleStore.get_blocked_items]; [blocked] is the list built so far. *)
Fixpoint collect_blocked (rules : list Rule) (progress : Progress) (blocked : list string)
  : M Clock (list string) :=
  match rules with
  | [] => ret blocked
  | rule :: rest =>
      if negb (enabled rule) then collect_blocked rest progress blocked
      else
        r <- check_condition progress (condition rule) ;;
        let met := fst r in
        if negb met
        then collect_blocked rest progress (blocked ++ blocked_items rule)
        else collect_blocked rest progress blocked
  end.

(** [RuleStore.get_blocked_items]: [list(set(blocked))], the set enumerated in
    the order [o]. *)
Definition get_blocked_items (o : set_order) (rules : list Rule) (progress : Progress)
  : M Clock (list string) :=
  blocked <- collect_blocked rules progress [] ;;
  ret (o (list_to_set blocked)).

(** ** The persisted rule file

    [json.load] returns a tree of dicts, lists, strings, numbers, booleans and
    [None].  A dict is the list of its members, each key present once. *)

Inductive json : Type :=
  | JNull
  | JBool (b : bool)
  | JInt (n : Z)
  | JFloat (x : float)
  | JStr (s : string)
  | JArr (items : list json)
  | JObj (members : list (string * json)).

Fixpoint lookup_member (key : string) (members : list (string * json)) : option json :=
  match members with
  | [] => None
  | (k, v) :: rest => if String.eqb k key then Some v else lookup_member key rest
  end.

(** [d[key]] with a string key: only a dict can be subscripted by a string. *)
Definition py_getitem (d : json) (key : string) : result json :=
  match d with
  | JObj members => required KeyError (lookup_member key members)
  | _ => Raise TypeError
  end.

(** [d.get(key, default)]: only a dict has the method. *)
Definition py_get (d : json) (key : string) (default : json) : result json :=
  match d with
  | JObj members =>
      Ok (match lookup_member key members with Some v => v | None => default end)
  | _ => Raise AttributeError
  end.

(** Truth value of an object. *)
Definition truthy (v : json) : bool :=
  match v with
  | JNull => false
  | JBool b => b
  | JInt n => negb (n =? 0)
  | JFloat x => negb (x =? 0)%float
  | JStr s => negb (String.eqb s "")
  | JArr items => negb (Nat.eqb (length items) 0)
  | JObj members => negb (Nat.eqb (length members) 0)
  end.

(** [for r in v]: a list yields its items, a dict its keys, a string its
    characters; nothing else can be iterated. *)
Definition py_iter (v : json) : result (list json) :=
  match v with
  | JArr items => Ok items
  | JObj members => Ok (map (fun kv => JStr (fst kv)) members)
  | JStr s => Ok (map (fun c => JStr (String c EmptyString)) (list_ascii_of_string s))
  | _ => Raise TypeError
  end.

(** [ConditionType(v)]: lookup of an enum member by value. *)
Definition ConditionType_of_value (v : json) : result ConditionType :=
  match v with
  | JStr s =>
      if String.eqb s "steps" then Ok STEPS
      else if String.eqb s "time" then Ok TIME
      else if String.eqb s "workout" then Ok WORKOUT
      else if String.eqb s "location" then Ok LOCATION
      else if String.eqb s "tomorrow" then Ok TOMORROW
      else if String.eqb s "password" then Ok PASSWORD
      else Raise ValueError
  | _ => Raise ValueError
  end.

(** Records as [from_dict] builds them.  A dataclass does not check its
    annotations, so every field copied from the document holds whatever the
    document holds. *)

Record RawLocation : Type := mkRawLocation {
  raw_name : json; raw_latitude : json; raw_longitude : json; raw_radius_meters : json }.

Record RawCondition : Type := mkRawCondition {
  raw_type : ConditionType;
  raw_steps_target : json;
  raw_time_target : json;
  raw_workout_minutes : json;
  raw_location : option RawLocation }.

Record RawRule : Type := mkRawRule {
  raw_id : json;
  raw_blocked_items : json;
  raw_condition : RawCondition;
  raw_enabled : json;
  raw_created_at : json }.

(** [Condition.from_dict] *)
Definition Condition_from_dict (d : json) : result RawCondition :=
  bind (py_getitem d "type") (fun tv =>
  bind (ConditionType_of_value tv) (fun t =>
  bind (py_get d "steps_target" JNull) (fun steps =>
  bind (py_get d "time_target" JNull) (fun time =>
  bind (py_get d "workout_minutes" JNull) (fun workout =>
  bind (py_get d "location" JNull) (fun loc =>
  if truthy loc then
    bind (py_getitem loc "name") (fun n =>
    bind (py_getitem loc "lat") (fun lat =>
    bind (py_getitem loc "lng") (fun lng =>
    bind (py_get loc "radius" (JInt 100)) (fun radius =>
    Ok (mkRawCondition t steps time workout (Some (mkRawLocation n lat lng radius)))))))
  else Ok (mkRawCondition t steps time workout None))))))).

(** [Rule.from_dict]; the default of [created_at] reads the clock whether or
    not the key is present. *)
Definition Rule_from_dict (d : json) : M Clock RawRule :=
  i <- lift (py_getitem d "id") ;;
  items <- lift (py_getitem d "blocked_items") ;;
  cd <- lift (py_getitem d "condition") ;;
  c <- lift (Condition_from_dict cd) ;;
  en <- lift (py_get d "enabled" (JBool true)) ;;
  stamp <- datetime_now ;;
  created <- lift (py_get d "created_at" (JStr (isoformat stamp))) ;;
  ret (mkRawRule i items c en created).

(** [[f(r) for r in l]] *)
Fixpoint map_M {S A B : Type} (f : A -> M S B) (l : list A) : M S (list B) :=
  match l with
  | [] => ret []
  | a :: rest => b <- f a ;; bs <- map_M f rest ;; ret (b :: bs)
  end.

(** What [open(self.filepath, 'r')] and [json.load] find. *)
Inductive File : Type :=
  | Missing                  (* no such file *)
  | Denied                   (* the file cannot be opened for reading *)
  | Garbled                  (* the content is not a JSON document *)
  | Document (data : json).

Record RuleStore : Type := mkRuleStore {
  filepath : string;
  rules : list RawRule }.

(** [RuleStore.load]: the new state of the store.  Only [FileNotFoundError]
    is caught; when the call raises, [self.rules] has not been assigned. *)
Definition load (f : File) (self : RuleStore) : M Clock RuleStore :=
  match f with
  | Missing => ret (mkRuleStore (filepath self) [])
  | Denied => raise PermissionError
  | Garbled => raise JSONDecodeError
  | Document data =>
      listed <- lift (py_get data "rules" (JArr [])) ;;
      records <- lift (py_iter listed) ;;
      loaded <- map_M Rule_from_dict records ;;
      ret (mkRuleStore (filepath self) loaded)
  end.

(** [RuleStore(filepath)] *)
Definition RuleStore_init (path : string) (f : File) : M Clock RuleStore :=
  load f (mkRuleStore path []).

End Models.

(* ===================================================================== *)
(** * windows/blocker.py                                                 *)
(* ===================================================================== *)

Module Blocker.
Import Py.

(** Known site -> domain mappings, in the order of the source. *)
Definition SITE_DOMAINS : list (string * list string) :=
  [ ("netflix", ["netflix.com"; "nflxvideo.net"; "nflximg.net"; "nflxso.net"]);
    ("youtube", ["youtube.com"; "youtu.be"; "googlevideo.com"; "ytimg.com"]);
    ("tiktok", ["tiktok.com"; "tiktokcdn.com"; "tiktokv.com"]);
    ("reddit", ["reddit.com"; "redd.it"; "redditmedia.com"]);
    ("twitter", ["twitter.com"; "x.com"; "twimg.com"]);
    ("instagram", ["instagram.com"; "cdninstagram.com"]);
    ("facebook", ["facebook.com"; "fb.com"; "fbcdn.net"]);
    ("twitch", ["twitch.tv"; "twitchcdn.net"]);
    ("disney+", ["disneyplus.com"; "disney-plus.net"]);
    ("hulu", ["hulu.com"; "huluim.com"]);
    ("hbo", ["hbomax.com"; "max.com"]);
    ("amazon", ["primevideo.com"; "aiv-cdn.net"]) ]%string.

Definition MARKER_START : string := "# === TOTALCONTROL START ===".
Definition MARKER_END : string := "# === TOTALCONTROL END ===".

Fixpoint dict_get {A : Type} (key : string) (d : list (string * A)) : option A :=
  match d with
  | [] => None
  | (k, v) :: rest => if String.eqb k key then Some v else dict_get key rest
  end.

(** ** The operating system as the blocker sees it *)

Inductive Event : Type :=
  | WriteHosts (content : string)      (* the hosts file is rewritten *)
  | FlushDns                           (* [ipconfig /flushdns] is run *)
  | PrintNeedAdmin                     (* "[Blocker] Need admin rights for hosts file" *)
  | PrintHostsError (e : exn).         (* "[Blocker] Hosts error: ..." *)

(** The file is opened in text mode.  With [open(path, 'r')] the pair CR LF
    and the lone CR are read as LF (universal newlines); with
    [open(path, 'w')] every LF is written as [os.linesep]. *)
Inductive Platform : Type :=
  | Posix       (* [os.linesep] is LF *)
  | Windows.    (* [os.linesep] is CR LF *)

Definition linesep (p : Platform) : string :=
  match p with
  | Posix => nl
  | Windows => String "013" nl
  end.

(** The text read from the characters stored; [after_cr] tells that the
    character before was a CR, which has been read as LF already. *)
Fixpoint read_newlines (after_cr : bool) (stored : string) : string :=
  match stored with
  | EmptyString => EmptyString
  | String c rest =>
      if Ascii.eqb c "013" then String "010" (read_newlines true rest)
      else if Ascii.eqb c "010"
           then if after_cr then read_newlines false rest
                else String "010" (read_newlines false rest)
      else String c (read_newlines false rest)
  end.

Definition universal_newlines (stored : string) : string := read_newlines false stored.

(** The characters stored for the text written. *)
Fixpoint write_newlines (p : Platform) (text : string) : string :=
  match text with
  | EmptyString => EmptyString
  | String c rest =>
      if Ascii.eqb c "010" then linesep p +:+ write_newlines p rest
      else String c (write_newlines p rest)
  end.

Record World : Type := mkWorld {
  hosts : option string;     (* the characters stored in the hosts file, [None] when absent *)
  hosts_readable : bool;     (* may the process open it for reading *)
  hosts_writable : bool;     (* may the process open it for writing *)
  trace : list Event;        (* what the blocker has done so far, oldest first *)
  platform : Platform }.     (* the platform of the process *)

Definition emit (e : Event) (w : World) : World :=
  mkWorld (hosts w) (hosts_readable w) (hosts_writable w) (trace w ++ [e]) (platform w).

(** [open(HOSTS_FILE, 'r')] followed by [f.read()] *)
Definition read_hosts (w : World) : result string :=
  match hosts w with
  | None => Raise FileNotFoundError
  | Some stored =>
      if hosts_readable w then Ok (universal_newlines stored) else Raise PermissionError
  end.

(** [open(HOSTS_FILE, 'w')] followed by [f.write(content)] *)
Definition write_hosts (content : string) (w : World) : result World :=
  if hosts_writable w
  then Ok (emit (WriteHosts content)
             (mkWorld (Some (write_newlines (platform w) content))
                      (hosts_readable w) (hosts_writable w) (trace w) (platform w)))
  else Raise PermissionError.

(** ** The blocker *)

Record WindowsBlocker : Type := mkBlocker {
  blocked_items : gset string;
  running : bool }.

(** [WindowsBlocker()] *)
Definition init : WindowsBlocker := mkBlocker ∅ false.

(** [_get_domains_for_item] *)
Definition _get_domains_for_item (item : string) : list string :=
  let item_lower := lower item in
  match dict_get item_lower SITE_DOMAINS with
  | Some domains => domains
  | None => if contains "." item then [item_lower] else [item_lower +:+ ".com"]
  end.

(** The first occurrence of [p] in [s]: the text before it and the text after it. *)
Fixpoint find (p s : string) : option (string * string) :=
  if startswith p s then Some (EmptyString, drop_chars (String.length p) s)
  else match s with
       | EmptyString => None
       | String c s' =>
           match find p s' with
           | Some (before, after) => Some (String c before, after)
           | None => None
           end
       end.

(** [re.sub(START .*? END, '', content, flags=re.DOTALL)]: scanning from the
    left, every stretch from a start marker to the nearest end marker after it
    is deleted.  Each deletion consumes at least the two markers, so [n]
    rounds are enough for a text of [n] characters. *)
Fixpoint remove_regions_upto (n : nat) (content : string) : string :=
  match n with
  | O => content
  | S n' =>
      match find MARKER_START content with
      | None => content
      | Some (before, after) =>
          match find MARKER_END after with
          | None => content
          | Some (_, rest) => before +:+ remove_regions_upto n' rest
          end
      end
  end.

Definition remove_regions (content : string) : string :=
  remove_regions_upto (String.length content) content.

(** The lines of the managed region for the items in the order given. *)
Definition block_lines (items : list string) : list string :=
  [MARKER_START]
  ++ flat_map (fun item =>
       flat_map (fun domain => ["127.0.0.1 " +:+ domain; "127.0.0.1 www." +:+ domain])
                (_get_domains_for_item item)) items
  ++ [MARKER_END].

(** The text that [_apply_hosts_block] writes when the file holds [content]. *)
Definition new_hosts_content (o : set_order) (self : WindowsBlocker) (content : string) : string :=
  let content := remove_regions content in
  let content := strip content in
  if decide (blocked_items self = ∅) then content
  else content +:+ nl +:+ nl +:+ join nl (block_lines (o (blocked_items self))).

(** [_apply_hosts_block]: every exception is caught and reported. *)
Definition _apply_hosts_block (o : set_order) (self : WindowsBlocker) (w : World) : World :=
  match read_hosts w with
  | Raise PermissionError => emit PrintNeedAdmin w
  | Raise e => emit (PrintHostsError e) w
  | Ok content =>
      match write_hosts (new_hosts_content o self content) w with
      | Raise PermissionError => emit PrintNeedAdmin w
      | Raise e => emit (PrintHostsError e) w
      | Ok w' => emit FlushDns w'
      end
  end.

(** [update_blocked] *)
Definition update_blocked (o : set_order) (self : WindowsBlocker) (items : list string)
    (w : World) : WindowsBlocker * World :=
  let new_blocked : gset string := list_to_set (map lower items) in
  if decide (new_blocked = blocked_items self) then (self, w)
  else let self' := mkBlocker new_blocked (running self) in
       (self', _apply_hosts_block o self' w).

(** [clear_blocks] *)
Definition clear_blocks (o : set_order) (self : WindowsBlocker) (w : World)
    : WindowsBlocker * World :=
  let self' := mkBlocker ∅ (running self) in
  (self', _apply_hosts_block o self' w).

(** The number of times the hosts file was written. *)
Fixpoint count_writes (t : list Event) : nat :=
  match t with
  | [] => O
  | WriteHosts _ :: t' => S (count_writes t')
  | _ :: t' => count_writes t'
  end.

Definition hosts_writes (w : World) : nat := count_writes (trace w).

End Blocker.

(* ===================================================================== *)
(** * desktop/window_monitor.py                                          *)
(* ===================================================================== *)

Module WindowMonitor.
Import Py.

Inductive ScreenType : Type :=
  | DM | DM_LIST | SERVER_CHANNEL | FEED | UNKNOWN | ALLOWED.

Record WindowInfo : Type := mkWindowInfo {
  window_id : string;
  pid : Z;
  wm_class : string;
  title : string }.

(** One entry of [APP_PATTERNS]. *)
Record AppPatterns : Type := mkAppPatterns {
  wm_class_names : list string;      (* 'wm_class' *)
  dm_patterns : list string;
  server_patterns : list string }.

(** App detection patterns, in the order of the dict. *)
Definition APP_PATTERNS : list (string * AppPatterns) :=
  [ ("discord",
     {| wm_class_names :=
          ["discord"; "Discord"];
        dm_patterns :=
          ["^@[\w\s]+ - Discord$"; "^Discord$"; "^Friends - Discord$";
           "^[\w\s]+ and \d+ others? - Discord$"];
        server_patterns :=
          ["^#[\w-]+ - .+ - Discord$"; "^.+ - Discord$"] |});
    ("slack",
     {| wm_class_names :=
          ["slack"; "Slack"];
        dm_patterns :=
          ["^\* .+ \| Slack$"; "^[\w\s]+ \| Slack$"];
        server_patterns :=
          ["^#[\w-]+ \| .+ \| Slack$"] |});
    ("twitter",
     {| wm_class_names :=
          ["twitter"; "Twitter"; "TweetDeck"];
        dm_patterns :=
          ["Messages"; "Direct Messages"];
        server_patterns :=
          ["Home"; "Explore"; "Notifications"] |}) ]%string.

(** Always allowed apps: the members of the set, as the source lists them. *)
Definition ALLOWED_APPS : list string :=
  ["spotify"; "Spotify"; "rhythmbox"; "Rhythmbox"; "vlc"; "VLC"; "telegram-desktop";
   "TelegramDesktop"; "Telegram"; "signal"; "Signal"; "element"; "Element"; "whatsapp";
   "WhatsApp"]%string.

(** Always blocked apps (no DM exception). *)
Definition BLOCKED_APPS : list string :=
  ["netflix"; "tiktok"]%string.

(** [re.search(pattern, title, re.IGNORECASE)] is a match. *)
Definition title_matches (title pattern : string) : bool := Re.search true pattern title.

(** The loop over [APP_PATTERNS.items()] of [detect_screen_type]. *)
Fixpoint detect_known_app (apps : list (string * AppPatterns))
    (wm_class_lower title : string) : string * ScreenType :=
  match apps with
  | [] => ("unknown"%string, ALLOWED)
  | (app_name, patterns) :: rest =>
      if negb (existsb (fun wc => contains (lower wc) wm_class_lower) (wm_class_names patterns))
      then detect_known_app rest wm_class_lower title
      else if existsb (title_matches title) (dm_patterns patterns) then (app_name, DM)
      else if existsb (title_matches title) (server_patterns patterns)
           then (app_name, SERVER_CHANNEL)
      else (app_name, UNKNOWN)
  end.

(** [detect_screen_type].  [ALLOWED_APPS] and [BLOCKED_APPS] are sets: the
    lists [allowed_apps] and [blocked_apps] give their members in the order
    in which the two loops meet them. *)
Definition detect_screen_type (allowed_apps blocked_apps : list string) (window : WindowInfo)
    : string * ScreenType :=
  let wm_class_lower := lower (wm_class window) in
  let title := title window in
  match List.find (fun allowed => contains (lower allowed) wm_class_lower) allowed_apps with
  | Some allowed => (allowed, ALLOWED)
  | None =>
      match List.find (fun blocked => contains (lower blocked) wm_class_lower) blocked_apps with
      | Some blocked => (blocked, FEED)
      | None => detect_known_app APP_PATTERNS wm_class_lower title
      end
  end.

End WindowMonitor.

(* ===================================================================== *)
(** * ocr/screen_analyzer.py                                             *)
(* ===================================================================== *)

Module ScreenAnalyzer.
Import Py.

Inductive ScreenType : Type :=
  | DM | FEED | REELS | NOTIFICATIONS | PROFILE | SEARCH | SETTINGS | UNKNOWN.

(** The members of the enum in the order of their declaration. *)
Definition all_screen_types : list ScreenType :=
  [DM; FEED; REELS; NOTIFICATIONS; PROFILE; SEARCH; SETTINGS; UNKNOWN].

Definition ScreenType_eqb (a b : ScreenType) : bool :=
  match a, b with
  | DM, DM | FEED, FEED | REELS, REELS | NOTIFICATIONS, NOTIFICATIONS
  | PROFILE, PROFILE | SEARCH, SEARCH | SETTINGS, SETTINGS | UNKNOWN, UNKNOWN => true
  | _, _ => false
  end.

(** [ScreenType(value)]; [None] stands for the [ValueError] that the callers
    catch. *)
Definition ScreenType_of_value (v : string) : option ScreenType :=
  if String.eqb v "dm" then Some DM
  else if String.eqb v "feed" then Some FEED
  else if String.eqb v "reels" then Some REELS
  else if String.eqb v "notifications" then Some NOTIFICATIONS
  else if String.eqb v "profile" then Some PROFILE
  else if String.eqb v "search" then Some SEARCH
  else if String.eqb v "settings" then Some SETTINGS
  else if String.eqb v "unknown" then Some UNKNOWN
  else None.

(** The pattern database: screen type -> tier -> patterns. *)
Definition PATTERNS : list (string * list (string * list string)) :=
  [ ("dm",
     [ ("strong",
        ["direct\s*messages?"; "new\s*message"; "send\s*a?\s*message";
         "message\s*requests?"; "start\s*a?\s*(new\s*)?conversation";
         "type\s*a\s*message"; "@\w+\s+online"; "friends?\s*(online|\d+)";
         "write\s*a\s*message"; "chat\s*with"]);
       ("medium",
        ["inbox"; "chats?"; "conversations?"; "reply"; "delivered"; "seen\s+\d";
         "typing\.\.\."]) ]);
    ("feed",
     [ ("strong",
        ["for\s*you"; "following\s*tab"; "suggested\s*(for\s*you|posts?)"; "sponsored";
         "promoted"; "trending\s*(now|topics?)?"; "what.?s\s*happening";
         "discover\s*more"; "explore\s*page"; "popular\s*(posts?|now)?";
         "top\s*posts?"; "new\s*posts?"; "\d+\s*(likes?|comments?|shares?|retweets?)";
         "liked\s*by\s*\d+"; "view\s*all\s*\d+\s*comments?"]);
       ("medium",
        ["home"; "feed"; "timeline"; "posts?"; "stories"; "follow\s*(back)?"; "share"]) ]);
    ("reels",
     [ ("strong",
        ["reels?"; "shorts?"; "tiktok"; "watch\s*now"; "swipe\s*up";
         "original\s*audio"; "trending\s*audio"; "use\s*this\s*(sound|audio)"]) ]);
    ("notifications",
     [ ("strong",
        ["notifications?"; "activity"; "all\s*notifications?"; "mentions?";
         "replied\s*to\s*you"; "mentioned\s*you"; "tagged\s*you"]) ]);
    ("profile",
     [ ("strong",
        ["(\d+[km]?\s*)?(followers?|following)"; "edit\s*profile"; "bio";
         "joined\s*(jan|feb|mar|apr|may|jun|jul|aug|sep|oct|nov|dec)";
         "\d+\s*posts?\s+\d+\s*followers?"]) ]);
    ("search",
     [ ("strong",
        ["search\s*(twitter|x|instagram|facebook|reddit)"; "search\s*results?";
         "try\s*searching"; "recent\s*searches?"]) ]);
    ("settings",
     [ ("strong",
        ["settings?\s*(and|&)?\s*privacy"; "account\s*settings?";
         "privacy\s*settings?"; "notification\s*settings?"; "security"; "password";
         "two.?factor"; "log\s*out"]) ]) ]%string.

(** App-specific patterns: app -> screen type -> patterns. *)
Definition APP_SPECIFIC : list (string * list (string * list string)) :=
  [ ("discord",
     [ ("dm", ["#\s*friends"; "@me"; "direct\s*messages"]);
       ("feed", ["#[a-z-]+"; "text\s*channels?"; "voice\s*channels?"; "server\s*settings"]) ]);
    ("twitter",
     [ ("dm", ["messages?"; "new\s*message"]);
       ("feed", ["for\s*you"; "following"; "what.?s\s*happening"; "trending"]) ]);
    ("instagram",
     [ ("dm", ["messages?"; "send\s*message"; "primary"; "general"]);
       ("feed", ["liked\s*by"; "suggested\s*for\s*you"; "reels?"; "explore"]) ]);
    ("reddit",
     [ ("dm", ["chat"; "inbox"; "messages?"]);
       ("feed", ["r/\w+"; "popular"; "upvote"; "downvote"; "karma"]) ]);
    ("facebook",
     [ ("dm", ["messenger"; "new\s*message"; "chats?"]);
       ("feed", ["news\s*feed"; "stories"; "reels?"; "marketplace"]) ]);
    ("linkedin",
     [ ("dm", ["messaging"; "inmail"]);
       ("feed", ["feed"; "connections?"; "jobs?"]) ]) ]%string.

(** ** Dicts keyed by screen type

    [scores] and [matched] hold one entry per member of the enum, in the
    order of declaration, from their creation on.  The scores are sums of
    2.0, 0.5 and 1.5: multiples of one half far below 2^53, which binary64
    adds without rounding.  They are kept as rationals in lowest terms. *)

Definition dict (V : Type) : Type := list (ScreenType * V).

(** [{st: v for st in ScreenType}] *)
Definition dict_init {V : Type} (v : V) : dict V := map (fun st => (st, v)) all_screen_types.

(** [d[st]], for a key that is present; [dflt] otherwise. *)
Fixpoint dict_get {V : Type} (dflt : V) (d : dict V) (st : ScreenType) : V :=
  match d with
  | [] => dflt
  | (k, v) :: rest => if ScreenType_eqb k st then v else dict_get dflt rest st
  end.

(** [d[st] = f(d[st])] *)
Fixpoint dict_update {V : Type} (f : V -> V) (d : dict V) (st : ScreenType) : dict V :=
  match d with
  | [] => []
  | (k, v) :: rest =>
      if ScreenType_eqb k st then (k, f v) :: rest else (k, v) :: dict_update f rest st
  end.

(** [pattern_groups.get(key, [])] *)
Fixpoint get_list (key : string) (d : list (string * list string)) : list string :=
  match d with
  | [] => []
  | (k, v) :: rest => if String.eqb k key then v else get_list key rest
  end.

Record State : Type := mkState {
  scores : dict Q;
  matched : dict (list string) }.

(** One turn of a loop over patterns: when [pattern] is found in the text,
    [weight] is added to the score of [screen_type] and [label ++ pattern] is
    appended to its evidence. *)
Definition try_pattern (text_lower : string) (screen_type : ScreenType) (weight : Q)
    (label : string) (st : State) (pattern : string) : State :=
  if Re.search true pattern text_lower
  then mkState (dict_update (fun x => Qred (x + weight)) (scores st) screen_type)
               (dict_update (fun l => l ++ [label +:+ pattern]) (matched st) screen_type)
  else st.

(** The body of the loop over [PATTERNS.items()]. *)
Definition scan_general (text_lower : string) (st : State)
    (entry : string * list (string * list string)) : State :=
  let (screen_type_str, pattern_groups) := entry in
  match ScreenType_of_value screen_type_str with
  | None => st
  | Some screen_type =>
      let st := fold_left (try_pattern text_lower screen_type 2 "strong:") 
                          (get_list "strong" pattern_groups) st in
      fold_left (try_pattern text_lower screen_type (1 # 2) "medium:")
                (get_list "medium" pattern_groups) st
  end.

(** The body of the loop over [app_patterns.items()]. *)
Definition scan_app_group (text_lower app_name : string) (st : State)
    (group : string * list string) : State :=
  let (screen_type_str, patterns) := group in
  match ScreenType_of_value screen_type_str with
  | None => st
  | Some screen_type =>
      fold_left (try_pattern text_lower screen_type (3 # 2) ("app:" +:+ app_name +:+ ":"))
                patterns st
  end.

(** The body of the loop over [APP_SPECIFIC.items()]. *)
Definition scan_app (text_lower app_lower : string) (st : State)
    (entry : string * list (string * list string)) : State :=
  let (app_name, app_patterns) := entry in
  if contains app_name app_lower
  then fold_left (scan_app_group text_lower app_name) app_patterns st
  else st.

(** [max(scores, key=scores.get)]: the first key, in the order of the dict,
    whose score no other key exceeds. *)
Fixpoint max_key (best : ScreenType) (best_score : Q) (d : dict Q) : ScreenType :=
  match d with
  | [] => best
  | (k, v) :: rest =>
      if Qle_bool v best_score then max_key best best_score rest else max_key k v rest
  end.

Definition best_key (d : dict Q) : ScreenType :=
  match d with
  | [] => UNKNOWN
  | (k, v) :: rest => max_key k v rest
  end.

(** [sum(scores.values())] *)
Definition sum_values (d : dict Q) : Q := Qred (fold_left (fun acc kv => acc + snd kv) d 0)%Q.

(** [a / b] on two floats that hold the rationals [a] and [b] exactly, [b]
    positive: the correctly rounded quotient. *)
Definition float_quotient (a b : Q) : float :=
  SF2Prim (SFdiv prec emax (sf_of_int (Qnum a * Zpos (Qden b)))
                           (sf_of_int (Qnum b * Zpos (Qden a)))).

(** [classify_text]: [(screen_type, confidence, matched_patterns)]. *)
Definition classify_text (text app_hint : string) : ScreenType * float * list string :=
  let text_lower := lower text in
  let app_lower := lower app_hint in
  let st := mkState (dict_init 0%Q) (dict_init []) in
  let st := fold_left (scan_general text_lower) PATTERNS st in
  let st := fold_left (scan_app text_lower app_lower) APP_SPECIFIC st in
  let best_type := best_key (scores st) in
  let best_score := dict_get 0%Q (scores st) best_type in
  let total_score := sum_values (scores st) in
  let confidence :=
    if Qlt_le_dec 0 total_score then float_quotient best_score total_score else 0%float in
  if Qlt_le_dec best_score 1 then (UNKNOWN, 0%float, [])
  else (best_type, float_min confidence 1, dict_get [] (matched st) best_type).

(** [should_block] *)
Definition should_block (screen_type : ScreenType) : bool :=
  match screen_type with
  | DM | NOTIFICATIONS | SETTINGS => false
  | _ => true
  end.

End ScreenAnalyzer.

(* ===================================================================== *)
(** * Scenarios                                                          *)
(* ===================================================================== *)

(** Concrete inputs used in the examples below. *)

Module Scenarios.
Import Py Models.

Definition half_past_four : DateTime := mkDateTime 2026 11 3 16 30 0 0.
Definition one_past_five : DateTime := mkDateTime 2026 11 3 17 1 0 0.

(** A clock that reads half past four three times, and one past five from
    then on. *)
Definition then_later : Clock :=
  fun n => if (n <? 3)%nat then half_past_four else one_past_five.

Definition until_five : Condition := mkCondition TIME None (Some "17:00"%string) None None.
Definition idle : Progress := mkProgress 0 0 None.

(** A clock that starts half a minute before four o'clock and advances by
    25 microseconds from one reading to the next. *)
Definition ticking_before_four : Clock :=
  fun n => mkDateTime 2026 11 3 15 59 30 (25 * Z.of_nat n).

(** A rule whose items are spelt with capitals, under a condition that is
    never met. *)
Definition no_netflix : Rule :=
  mkRule "r1" ["Netflix"%string] (mkCondition TOMORROW None None None None) true
         "2026-11-03T09:00:00".

(** A hosts file that the process may read and write, with no managed
    region in it. *)
Definition plain_hosts : string := "127.0.0.1 localhost" +:+ nl.

Definition admin_world : Blocker.World :=
  Blocker.mkWorld (Some plain_hosts) true true [] Blocker.Posix.




Definition user_world : Blocker.World :=
  Blocker.mkWorld (Some plain_hosts) true false [] Blocker.Posix.

(** Two sites as a rule spells them, and the same two spelt otherwise,
    in another order and with a repetition. *)
Definition two_sites : list string := ["Netflix"; "YouTube"]%string.
Definition same_two_sites : list string := ["youtube"; "NETFLIX"; "netflix"]%string.

(** A record of the rule file that [Rule.from_dict] can build, one that
    lacks its items and its condition, and a file that holds the second
    between two copies of the first. *)
Definition good_record : json :=
  JObj [("id", JStr "a"); ("blocked_items", JArr [JStr "netflix"]);
        ("condition", JObj [("type", JStr "steps"); ("steps_target", JInt 10000)]);
        ("enabled", JBool true); ("created_at", JStr "2026-11-03T09:00:00")]%string.

Definition bad_record : json := JObj [("id", JStr "b")]%string.

Definition mixed_file : File :=
  Document (JObj [("rules"%string, JArr [good_record; bad_record; good_record])]).

End Scenarios.

(* ===================================================================== *)
(** * Vocabulary of the statements                                       *)
(* ===================================================================== *)

Module ModelsSpec.
Import Py Models.

(** The verdict of the evaluator on a condition when the clock stands still
    at the instant [d]. *)
Definition verdict (d : DateTime) (progress : Progress) (c : Condition)
    : result (bool * string) :=
  fst (check_condition progress c (frozen d)).

(** The condition of the rule is evaluated and found unmet. *)
Definition unmet (d : DateTime) (progress : Progress) (r : Rule) : bool :=
  match verdict d progress (condition r) with
  | Ok (false, _) => true
  | _ => false
  end.

(** The rule is enabled and its condition is unmet. *)
Definition blocking (d : DateTime) (progress : Progress) (r : Rule) : bool :=
  enabled r && unmet d progress r.

(** [Rule.from_dict] builds a rule from the record (the clock plays no part
    in that, see [parseable_any_clock]). *)
Definition parseable (record : json) : bool :=
  is_ok (fst (Rule_from_dict record (frozen (mkDateTime 1970 1 1 0 0 0 0)))).

(** [rule.enabled = b] *)
Definition set_enabled (b : bool) (r : Rule) : Rule :=
  mkRule (id r) (blocked_items r) (condition r) b (created_at r).

End ModelsSpec.

Module BlockerSpec.
Import Py Blocker.

(** The blockers that a program can hold: a fresh one, and what
    [update_blocked] and [clear_blocks] make of one. *)
Inductive reachable (o : set_order) : WindowsBlocker -> Prop :=
  | reachable_init : reachable o init
  | reachable_update (b : WindowsBlocker) (items : list string) (w : World) :
      reachable o b -> reachable o (fst (update_blocked o b items w))
  | reachable_clear (b : WindowsBlocker) (w : World) :
      reachable o b -> reachable o (fst (clear_blocks o b w)).

(** Every character of the string is white space. *)
Fixpoint all_space (s : string) : bool :=
  match s with
  | EmptyString => true
  | String c s' => is_space c && all_space s'
  end.







(** The hosts file exists and the process may read and write it. *)
Definition can_rewrite (w : World) : bool :=
  match hosts w with
  | Some _ => hosts_readable w && hosts_writable w
  | None => false
  end.

End BlockerSpec.

Module WindowMonitorSpec.
Import Py WindowMonitor.

(** The name occurs, in lower case, in the lower-cased window class. *)
Definition names_class (window : WindowInfo) (name : string) : bool :=
  contains (lower name) (lower (wm_class window)).

(** One of the class names of the app definition occurs in the window class. *)
Definition app_matches (window : WindowInfo) (entry : string * AppPatterns) : bool :=
  existsb (names_class window) (wm_class_names (snd entry)).

(** The category that the title patterns of one app give: DM patterns
    first, then server patterns, else unknown. *)
Definition title_category (window : WindowInfo) (patterns : AppPatterns) : ScreenType :=
  if existsb (title_matches (title window)) (dm_patterns patterns) then DM
  else if existsb (title_matches (title window)) (server_patterns patterns)
       then SERVER_CHANNEL
  else UNKNOWN.

(** A Discord window on a direct conversation. *)
Definition alice_dm : WindowInfo := mkWindowInfo "0x3a00007" 4242 "discord" "@alice - Discord".

End WindowMonitorSpec.

Module ReSpec.
Import Py.

Definition compiles (pattern : string) : bool :=
  match Re.compile pattern with
  | Some _ => true
  | None => false
  end.

(** Every pattern that the two classifiers hand to [re.search]. *)
Definition source_patterns : list string :=
  flat_map (fun entry => WindowMonitor.dm_patterns (snd entry)
                         ++ WindowMonitor.server_patterns (snd entry))
           WindowMonitor.APP_PATTERNS
  ++ flat_map (fun entry => flat_map snd (snd entry)) ScreenAnalyzer.PATTERNS
  ++ flat_map (fun entry => flat_map snd (snd entry)) ScreenAnalyzer.APP_SPECIFIC.

End ReSpec.

Module ScreenAnalyzerSpec.
Import Py ScreenAnalyzer.

(** The patterns of a list that are found in the text, and their number. *)
Definition hits (text_lower : string) (patterns : list string) : list string :=
  List.filter (fun pattern => Re.search true pattern text_lower) patterns.

Definition count (text_lower : string) (patterns : list string) : Q :=
  inject_Z (Z.of_nat (length (hits text_lower patterns))).

(** [l] when [key] is the value of the screen type [st], nothing otherwise. *)
Definition for_type {A : Type} (st : ScreenType) (key : string) (l : list A) : list A :=
  match ScreenType_of_value key with
  | Some st' => if ScreenType_eqb st' st then l else []
  | None => []
  end.

(** The patterns that a table of general patterns files under a screen
    type, in one tier. *)
Definition tier_patterns_in (table : list (string * list (string * list string)))
    (tier : string) (st : ScreenType) : list string :=
  flat_map (fun entry => for_type st (fst entry) (get_list tier (snd entry))) table.

(** The patterns that a table of app-specific patterns files under a screen
    type, for the apps that the hint names. *)
Definition app_patterns_in (table : list (string * list (string * list string)))
    (app_lower : string) (st : ScreenType) : list string :=
  flat_map (fun entry =>
              if contains (fst entry) app_lower
              then flat_map (fun group => for_type st (fst group) (snd group)) (snd entry)
              else []) table.

(** The score of a screen type as the specification words it: 2 for every
    strong pattern found, one half for every medium pattern found, one and a
    half for every pattern found among those of the apps that the hint names. *)
Definition spec_score (text_lower app_lower : string) (st : ScreenType) : Q :=
  2 * count text_lower (tier_patterns_in PATTERNS "strong" st)
  + (1 # 2) * count text_lower (tier_patterns_in PATTERNS "medium" st)
  + (3 # 2) * count text_lower (app_patterns_in APP_SPECIFIC app_lower st).

(** The sum of the scores of all screen types. *)
Definition spec_total (text_lower app_lower : string) : Q :=
  Qred (fold_right (fun st acc => spec_score text_lower app_lower st + acc) 0
                   all_screen_types)%Q.

(** The evidence recorded for a screen type: per entry of the general table
    the strong patterns found, then the medium ones; then those of the apps. *)
Definition general_evidence_in (table : list (string * list (string * list string)))
    (text_lower : string) (st : ScreenType) : list string :=
  flat_map (fun entry =>
              for_type st (fst entry)
                (map (String.append "strong:") (hits text_lower (get_list "strong" (snd entry)))
                 ++ map (String.append "medium:")
                        (hits text_lower (get_list "medium" (snd entry))))) table.

Definition app_evidence_in (table : list (string * list (string * list string)))
    (text_lower app_lower : string) (st : ScreenType) : list string :=
  flat_map (fun entry =>
              if contains (fst entry) app_lower
              then flat_map (fun group =>
                               for_type st (fst group)
                                 (map (String.append ("app:" +:+ fst entry +:+ ":"))
                                      (hits text_lower (snd group)))) (snd entry)
              else []) table.

Definition spec_evidence (text_lower app_lower : string) (st : ScreenType) : list string :=
  general_evidence_in PATTERNS text_lower st
  ++ app_evidence_in APP_SPECIFIC text_lower app_lower st.

(** The two dicts of the classifier read as functions of the screen type. *)
Definition score_of (s : State) (st : ScreenType) : Q := dict_get 0%Q (scores s) st.
Definition matched_of (s : State) (st : ScreenType) : list string := dict_get [] (matched s) st.

(** A dict holds one entry per screen type, in the order of declaration. *)
Definition well_keyed {V : Type} (d : dict V) : Prop := map fst d = all_screen_types.

(** Both dicts are well keyed and every score is in lowest terms. *)
Definition well_formed (s : State) : Prop :=
  well_keyed (scores s) /\ well_keyed (matched s)
  /\ forall st, Qred (score_of s st) = score_of s st.

End ScreenAnalyzerSpec.

(* ===================================================================== *)
(** * shared/models.py: writing the rules                                *)
(* ===================================================================== *)

Module Persistence.
Import Py Models.

(** [t.value] *)
Definition ConditionType_value (t : ConditionType) : string :=
  match t with
  | STEPS => "steps"
  | TIME => "time"
  | WORKOUT => "workout"
  | LOCATION => "location"
  | TOMORROW => "tomorrow"
  | PASSWORD => "password"
  end.

(** [if v: d[key] = v] *)
Definition member_if_truthy (key : string) (v : json) : list (string * json) :=
  if truthy v then [(key, v)] else [].

(** [Condition.to_dict]; a location object is truthy whatever it holds. *)
Definition Condition_to_dict (self : RawCondition) : json :=
  JObj ([("type"%string, JStr (ConditionType_value (raw_type self)))]
        ++ member_if_truthy "steps_target" (raw_steps_target self)
        ++ member_if_truthy "time_target" (raw_time_target self)
        ++ member_if_truthy "workout_minutes" (raw_workout_minutes self)
        ++ match raw_location self with
           | Some loc =>
               [("location"%string,
                 JObj [("name", raw_name loc); ("lat", raw_latitude loc);
                       ("lng", raw_longitude loc);
                       ("radius", raw_radius_meters loc)]%string)]
           | None => []
           end).

(** [Rule.to_dict] *)
Definition Rule_to_dict (self : RawRule) : json :=
  JObj [("id", raw_id self);
        ("blocked_items", raw_blocked_items self);
        ("condition", Condition_to_dict (raw_condition self));
        ("enabled", raw_enabled self);
        ("created_at", raw_created_at self)]%string.

(** The document that [RuleStore.save] hands to [json.dump]. *)
Definition saved_document (rules : list RawRule) : json :=
  JObj [("rules"%string, JArr (map Rule_to_dict rules))].

(** [RuleStore.save]: the file after the call.  [writable] tells whether
    [open(self.filepath, 'w')] succeeds; [json.load] reads back the tree
    that [json.dump] wrote. *)
Definition save (writable : bool) (self : RuleStore) : result File :=
  if writable then Ok (Document (saved_document (rules self)))
  else Raise PermissionError.

(** The outcome of a method that changes the store and the file: what it
    returns or raises, the store and the file it leaves. *)
Definition saving (writable : bool) (self : RuleStore) (file : File)
    : result unit * RuleStore * File :=
  match save writable self with
  | Ok file' => (Ok tt, self, file')
  | Raise e => (Raise e, self, file)
  end.

(** [RuleStore.add]: the rule is appended, then the store is saved. *)
Definition add (writable : bool) (rule : RawRule) (self : RuleStore) (file : File)
    : result unit * RuleStore * File :=
  saving writable (mkRuleStore (filepath self) (rules self ++ [rule])) file.

(** [r.id != rule_id] for a string [rule_id]: only a string can equal it. *)
Definition id_differs (rule_id : string) (r : RawRule) : bool :=
  match raw_id r with
  | JStr s => negb (String.eqb s rule_id)
  | _ => true
  end.

(** [RuleStore.remove] *)
Definition remove (writable : bool) (rule_id : string) (self : RuleStore) (file : File)
    : result unit * RuleStore * File :=
  saving writable
    (mkRuleStore (filepath self) (List.filter (id_differs rule_id) (rules self))) file.

(** ** Descriptions *)

(** [Condition.describe]: a string, [None] for a time condition without a
    target, or an exception. *)
Definition Condition_describe (self : Condition) : result (option string) :=
  match type self with
  | STEPS =>
      bind (required TypeError (steps_target self)) (fun n =>
      Ok (Some (format_thousands n +:+ " steps")))
  | TIME => Ok (time_target self)
  | WORKOUT =>
      Ok (Some (match workout_minutes self with
                | Some n => str_of_int n
                | None => "None"%string
                end +:+ "min workout"))
  | LOCATION =>
      bind (required AttributeError (location self)) (fun loc =>
      Ok (Some ("at " +:+ name loc)))
  | TOMORROW => Ok (Some "tomorrow"%string)
  | PASSWORD => Ok (Some "password"%string)
  end.

(** [l[:n]] *)
Definition take_items (n : nat) (l : list string) : list string := firstn n l.

(** [Rule.describe]: "NO X UNTIL Y", three items at most being named. *)
Definition Rule_describe (self : Rule) : result string :=
  let items := join ", " (take_items 3 (blocked_items self)) in
  let items :=
    if (3 <? length (blocked_items self))%nat
    then items +:+ " +" +:+ str_of_int (Z.of_nat (length (blocked_items self)) - 3)
    else items in
  bind (Condition_describe (condition self)) (fun described =>
  Ok ("NO " +:+ items +:+ " UNTIL "
      +:+ match described with Some s => s | None => "None"%string end)).

End Persistence.

Module PersistenceSpec.
Import Py Models Persistence.

(** What [from_dict] gives back for an attribute that [to_dict] wrote only
    when it was truthy. *)
Definition drop_falsy (v : json) : json := if truthy v then v else JNull.

Definition normal_condition (c : RawCondition) : RawCondition :=
  mkRawCondition (raw_type c) (drop_falsy (raw_steps_target c))
                 (drop_falsy (raw_time_target c)) (drop_falsy (raw_workout_minutes c))
                 (raw_location c).

Definition normal_rule (r : RawRule) : RawRule :=
  mkRawRule (raw_id r) (raw_blocked_items r) (normal_condition (raw_condition r))
            (raw_enabled r) (raw_created_at r).

(** The attribute is [None] or truthy: [to_dict] loses nothing of it. *)
Definition kept (v : json) : Prop := v = JNull \/ truthy v = true.

(** The clock after [n] readings have been taken. *)
Fixpoint later (n : nat) (k : Clock) : Clock :=
  match n with
  | O => k
  | S n' => later n' (snd (now k))
  end.

(** A rule as the dialog of the app creates it, with a steps target. *)
Definition steps_rule (rule_id : string) (target : Z) : RawRule :=
  mkRawRule (JStr rule_id) (JArr [JStr "netflix"])
            (mkRawCondition STEPS (JInt target) JNull JNull None)
            (JBool true) (JStr "2026-11-03T09:00:00").

End PersistenceSpec.

(* ===================================================================== *)
(** * windows/blocker.py: the processes                                  *)
(* ===================================================================== *)

Module BlockerProcesses.
Import Py Blocker.

(** Known app -> process names, in the order of the source. *)
Definition APP_PROCESSES : list (string * list string) :=
  [ ("netflix", ["Netflix.exe"]);
    ("spotify", ["Spotify.exe"]);
    ("discord", ["Discord.exe"]);
    ("steam", ["Steam.exe"; "steamwebhelper.exe"]);
    ("epic", ["EpicGamesLauncher.exe"]) ]%string.

(** The process names that one item stands for. *)
Definition processes_of_item (item : string) : list string :=
  match dict_get (lower item) APP_PROCESSES with
  | Some names => names
  | None => []
  end.

(** [_kill_blocked_processes]: the process names handed to [taskkill], in
    the order of the calls; what [taskkill] does or raises is ignored by
    the code. *)
Definition _kill_blocked_processes (o : set_order) (self : WindowsBlocker) : list string :=
  flat_map processes_of_item (o (blocked_items self)).

End BlockerProcesses.

Module HostsSpec.
Import Py Blocker.

(** The character occurs in the string. *)
Fixpoint has_char (c : ascii) (s : string) : bool :=
  match s with
  | EmptyString => false
  | String d s' => if Ascii.eqb d c then true else has_char c s'
  end.





(** The domain is in lower case and has a dot. *)
Definition domain_ok (d : string) : bool :=
  if String.eqb (lower d) d then contains "." d else false.

(** An entry of a table of names: it has names, all of them domains in
    lower case. *)
Definition entry_ok (kv : string * list string) : bool :=
  match snd kv with
  | [] => false
  | names => forallb domain_ok names
  end.



Definition blocking (items : list string) : WindowsBlocker :=
  mkBlocker (list_to_set items) false.

End HostsSpec.

(* ===================================================================== *)
(** * desktop/window_monitor.py: the decision and the loop               *)
(* ===================================================================== *)

Module WindowBlocking.
Import Py WindowMonitor.

Record BlockDecision : Type := mkBlockDecision {
  should_block : bool;
  reason : string;
  app_name : string;
  screen_type : ScreenType }.

(** [check_block] *)
Definition check_block (allowed_apps blocked_apps : list string) (window : WindowInfo)
    : BlockDecision :=
  let (app_name, screen_type) := detect_screen_type allowed_apps blocked_apps window in
  match screen_type with
  | ALLOWED => mkBlockDecision false (app_name +:+ " is allowed") app_name screen_type
  | DM | DM_LIST =>
      mkBlockDecision false (app_name +:+ " DMs are allowed") app_name screen_type
  | SERVER_CHANNEL =>
      mkBlockDecision true (app_name +:+ " server channels are blocked. Use DMs instead.")
                      app_name screen_type
  | FEED =>
      mkBlockDecision true (app_name +:+ " is blocked. Focus on your goals.")
                      app_name screen_type
  | UNKNOWN =>
      mkBlockDecision true (app_name +:+ " - unknown screen, blocked by default")
                      app_name screen_type
  end.

(** [t.value] *)
Definition ScreenType_value (t : ScreenType) : string :=
  match t with
  | DM => "dm"
  | DM_LIST => "dm_list"
  | SERVER_CHANNEL => "server_channel"
  | FEED => "feed"
  | UNKNOWN => "unknown"
  | ALLOWED => "allowed"
  end.

(** [s[:n]] *)
Fixpoint take_chars (n : nat) (s : string) : string :=
  match n, s with
  | S n', String c s' => String c (take_chars n' s')
  | _, _ => EmptyString
  end.

(** What one round of [monitor_loop] lets out. *)
Inductive Output : Type :=
  | Printed (line : string)
  | Notification (summary message : string).   (* [show_notification] *)

(** The two variables that [monitor_loop] keeps from round to round. *)
Record LoopState : Type := mkLoopState {
  last_blocked_window : option string;
  last_decision : option BlockDecision }.

Definition loop_start : LoopState := mkLoopState None None.

Definition str_of_bool (b : bool) : string := if b then "True" else "False".

(** One round of [monitor_loop]: [window] is what [get_active_window]
    returned.  The pause between two rounds is left out. *)
Definition monitor_round (verbose : bool) (allowed_apps blocked_apps : list string)
    (st : LoopState) (window : option WindowInfo) : LoopState * list Output :=
  match window with
  | None => (st, [])
  | Some window =>
      let decision := check_block allowed_apps blocked_apps window in
      let other_window :=
        match last_blocked_window st with
        | Some id => negb (String.eqb (window_id window) id)
        | None => true
        end in
      let other_verdict :=
        match last_decision st with
        | Some last => negb (Bool.eqb (should_block decision) (should_block last))
        | None => false
        end in
      if other_window || other_verdict then
        (mkLoopState (Some (window_id window)) (Some decision),
         (if verbose then
            [Printed ("[" +:+ app_name decision +:+ "] " +:+ take_chars 50 (title window));
             Printed ("  Screen: " +:+ ScreenType_value (screen_type decision));
             Printed ("  Blocked: " +:+ str_of_bool (should_block decision))]
            ++ (if should_block decision
                then [Printed ("  Reason: " +:+ reason decision)] else [])
            ++ [Printed EmptyString]
          else [])
         ++ (if should_block decision
             then [Notification "TotalControl - BLOCKED" (reason decision)] else []))
      else (st, [])
  end.

(** Rounds in a row: the state at the end and everything let out. *)
Fixpoint monitor_rounds (verbose : bool) (allowed_apps blocked_apps : list string)
    (st : LoopState) (windows : list (option WindowInfo)) : LoopState * list Output :=
  match windows with
  | [] => (st, [])
  | window :: rest =>
      let (st', out) := monitor_round verbose allowed_apps blocked_apps st window in
      let (st'', out') := monitor_rounds verbose allowed_apps blocked_apps st' rest in
      (st'', out ++ out')
  end.

(** The cases of [test_patterns]. *)
Definition test_cases : list (string * string * ScreenType) :=
  [ ("discord", "@JohnDoe - Discord", DM);
    ("discord", "Discord", DM);
    ("discord", "Friends - Discord", DM);
    ("discord", "#general - My Server - Discord", SERVER_CHANNEL);
    ("discord", "#voice-chat - Gaming - Discord", SERVER_CHANNEL);
    ("discord", "John and 2 others - Discord", DM);
    ("slack", "* John Doe | Slack", DM);
    ("slack", "#engineering | Company | Slack", SERVER_CHANNEL);
    ("spotify", "Spotify", ALLOWED);
    ("telegram-desktop", "Telegram", ALLOWED) ]%string.

Definition ScreenType_eqb (a b : ScreenType) : bool :=
  match a, b with
  | DM, DM | DM_LIST, DM_LIST | SERVER_CHANNEL, SERVER_CHANNEL
  | FEED, FEED | UNKNOWN, UNKNOWN | ALLOWED, ALLOWED => true
  | _, _ => false
  end.

(** [test_patterns]: the number of failed cases is zero. *)
Definition test_patterns (allowed_apps blocked_apps : list string) : bool :=
  let failed :=
    List.filter (fun case =>
      let '(wm_class, title, expected) := case in
      let window := mkWindowInfo "test" 0 wm_class title in
      negb (ScreenType_eqb (snd (detect_screen_type allowed_apps blocked_apps window))
                           expected))
      test_cases in
  Nat.eqb (length failed) 0.

End WindowBlocking.

Module WindowBlockingSpec.
Import Py WindowMonitor WindowMonitorSpec WindowBlocking.

(** The first app definition whose class names occur in the window class. *)
Definition known_app (window : WindowInfo) : option (string * AppPatterns) :=
  List.find (app_matches window) APP_PATTERNS.

(** Whether the window is blocked, read off its class and the DM patterns
    of its app. *)
Definition blocked_by_class (allowed_apps blocked_apps : list string)
    (window : WindowInfo) : bool :=
  if existsb (names_class window) allowed_apps then false
  else if existsb (names_class window) blocked_apps then true
  else match known_app window with
       | Some (_, patterns) =>
           negb (existsb (title_matches (title window)) (dm_patterns patterns))
       | None => false
       end.

(** The categories on which [check_block] blocks. *)
Definition blocks (t : ScreenType) : bool :=
  match t with
  | SERVER_CHANNEL | FEED | UNKNOWN => true
  | DM | DM_LIST | ALLOWED => false
  end.

(** A state in which a window is remembered with a decision. *)
Definition coherent (st : LoopState) : Prop :=
  last_decision st = None -> last_blocked_window st = None.

(** The window that a state remembers is the one given, with its verdict. *)
Definition remembers (allowed_apps blocked_apps : list string) (st : LoopState)
    (window : WindowInfo) : Prop :=
  last_blocked_window st = Some (window_id window) /\
  exists last, last_decision st = Some last /\
               should_block last
               = should_block (check_block allowed_apps blocked_apps window).

(** The last window that the rounds have seen. *)
Fixpoint last_seen (windows : list (option WindowInfo)) : option WindowInfo :=
  match windows with
  | [] => None
  | window :: rest =>
      match last_seen rest with
      | Some w => Some w
      | None => window
      end
  end.

(** A Discord window on a channel of a server. *)
Definition server_channel : WindowInfo :=
  mkWindowInfo "0x3a00007" 4242 "discord" "#general - My Server - Discord".

End WindowBlockingSpec.

(* ===================================================================== *)
(** * ocr/screen_analyzer.py: the history                                *)
(* ===================================================================== *)

Module History.
Import Py Models.

(** [l[start:]] *)
Definition slice_from {A : Type} (start : Z) (l : list A) : list A :=
  let n := Z.of_nat (length l) in
  let start := if start <? 0 then Z.max (start + n) 0 else Z.min start n in
  skipn (Z.to_nat start) l.

(** What [SCREENS_DB.exists()], [open] and [readlines] find. *)
Inductive Db : Type :=
  | NoDb                              (* no such file *)
  | UnreadableDb                      (* the file cannot be opened *)
  | DbLines (lines : list string).

(** [[f(x) for x in l]] for an [f] that may raise. *)
Fixpoint map_result {A B : Type} (f : A -> result B) (l : list A) : result (list B) :=
  match l with
  | [] => Ok []
  | a :: rest => bind (f a) (fun b => bind (map_result f rest) (fun bs => Ok (b :: bs)))
  end.

Section Loads.

(** [json.loads] *)
Variable loads : string -> result json.

(** [load_history] *)
Definition load_history (limit : Z) (db : Db) : result (list json) :=
  match db with
  | NoDb => Ok []
  | UnreadableDb => Raise PermissionError
  | DbLines lines =>
      let lines := slice_from (- limit) lines in
      map_result loads
        (List.filter (fun line => negb (String.eqb (strip line) "")) lines)
  end.

End Loads.

End History.

Module ScreenVerdictSpec.
Import Py ScreenAnalyzer ScreenAnalyzerSpec.

(** The evidence string bears one of the three labels of the classifier. *)
Definition labelled (e : string) : bool :=
  if startswith "strong:" e then true
  else if startswith "medium:" e then true
  else startswith "app:" e.

(** No name of an app of the table occurs in the hint. *)
Definition names_no_app (table : list (string * list (string * list string)))
    (app_lower : string) : bool :=
  forallb (fun entry => negb (contains (fst entry) app_lower)) table.

(** No entry of the table files a pattern under the screen type. *)
Definition files_nothing_under (st : ScreenType)
    (table : list (string * list (string * list string))) : bool :=
  forallb (fun entry =>
             match flat_map (fun group => for_type st (fst group) (snd group)) (snd entry) with
             | [] => true
             | _ => false
             end) table.

(** The two hints name the same apps of the table. *)
Definition same_apps (table : list (string * list (string * list string)))
    (hint1 hint2 : string) : bool :=
  forallb (fun entry => Bool.eqb (contains (fst entry) (lower hint1))
                                 (contains (fst entry) (lower hint2))) table.

(** The types that [should_block] lets through. *)
Definition let_through : list ScreenType := [DM; NOTIFICATIONS; SETTINGS].

End ScreenVerdictSpec.

(* ===================================================================== *)
(** * windows/main.py                                                    *)
(* ===================================================================== *)

Module App.
Import Py Models Blocker.

(** [s.split(sep)] for a separator of one character. *)
Fixpoint split_on (sep : ascii) (s : string) : list string :=
  match s with
  | EmptyString => [EmptyString]
  | String c s' =>
      if Ascii.eqb c sep then EmptyString :: split_on sep s'
      else match split_on sep s' with
           | x :: rest => String c x :: rest
           | [] => [String c EmptyString]
           end
  end.

(** The first line of [create] in [add_rule_dialog]:
    [[i.strip() for i in text.split(',') if i.strip()]] *)
Definition create_items (text : string) : list string :=
  map strip (List.filter (fun i => negb (String.eqb (strip i) "")) (split_on "," text)).

(** What [update_blocking] reads and writes of the app. *)
Record TotalControlApp : Type := mkApp {
  store_rules : list Rule;          (* [self.store.rules] *)
  progress : Progress;
  blocker : WindowsBlocker;
  status : string }.                (* [self.status_var] *)

(** The app, the operating system as the blocker sees it, and the clock. *)
Record Machine : Type := mkMachine {
  app : TotalControlApp;
  world : World;
  clock : Clock }.

(** The status line for a list of blocked items. *)
Definition status_line (blocked : list string) : string :=
  match blocked with
  | [] => "ALL CONDITIONS MET"
  | _ => "BLOCKING " +:+ str_of_int (Z.of_nat (length blocked)) +:+ " ITEMS"
  end.

(** [update_blocking] *)
Definition update_blocking (o : set_order) : M Machine unit :=
  fun m =>
    let self := app m in
    match get_blocked_items o (store_rules self) (progress self) (clock m) with
    | (Raise e, k) => (Raise e, mkMachine self (world m) k)
    | (Ok blocked, k) =>
        let (blocker', w') := update_blocked o (blocker self) blocked (world m) in
        (Ok tt,
         mkMachine (mkApp (store_rules self) (progress self) blocker' (status_line blocked))
                   w' k)
    end.

End App.

Module AppSpec.
Import Py Models Blocker App HostsSpec.

(** An item as [create] keeps it: not empty, without white space at its
    ends, without a comma. *)
Definition clean (i : string) : bool :=
  if String.eqb i "" then false
  else if String.eqb (strip i) i then negb (has_char "," i) else false.

(** A rule on a target of no steps at all. *)
Definition zero_steps : Rule :=
  mkRule "r0" ["reddit"] (mkCondition STEPS (Some 0) None None None) true
         "2026-11-03T09:00:00".

(** The app at its start, with the rules given. *)
Definition started (rules : list Rule) (d : DateTime) : Machine :=
  mkMachine (mkApp rules (mkProgress 0 0 None) init "PROTECTION ACTIVE")
            (mkWorld (Some ("127.0.0.1 localhost" +:+ nl)) true true [] Posix)
            (frozen d).

End AppSpec.

Module ProgressSpec.
Import Py Models.

(** The second progress is at least the first: as many steps and workout
    minutes or more, at the same place. *)
Definition no_less (p p' : Progress) : Prop :=
  steps_today p <= steps_today p' /\
  workout_minutes_today p <= workout_minutes_today p' /\
  current_location p' = current_location p.

(** A rule that blocks two sites until 8000 steps are done. *)
Definition walk_first : Rule :=
  mkRule "r2" ["YouTube"; "reddit.com"] (mkCondition STEPS (Some 8000) None None None) true
         "2026-11-03T09:00:00".

End ProgressSpec.

(* ===================================================================== *)
(** * Properties of the condition evaluator                              *)
(* ===================================================================== *)

Section ConditionEvaluator.
Import Py Models Scenarios.

(** The evaluator reads nothing but its arguments in the branches that do
    not concern the time of day. *)
Lemma check_condition_pure_branch (self : Progress) (c : Condition) (k : Clock) :
  type c <> TIME ->
  check_condition self c k =
    (match type c with
     | STEPS => check_steps self c
     | WORKOUT => check_workout self c
     | LOCATION => check_location self c
     | TOMORROW => Ok (false, "Blocked until tomorrow"%string)
     | _ => Ok (false, "Enter password to unlock"%string)
     end, k).
Proof.
  intros Hty. unfold check_condition.
  destruct (type c); try reflexivity. congruence.
Qed.

(** The time branch looks at three readings of the clock at most. *)
Lemma check_time_three_readings (c : Condition) (k1 k2 : Clock) :
  (forall n, (n < 3)%nat -> k1 n = k2 n) ->
  fst (check_time c k1) = fst (check_time c k2).
Proof.
  intros Hk.
  assert (H0 : k1 0%nat = k2 0%nat) by (apply Hk; lia).
  assert (H1 : k1 1%nat = k2 1%nat) by (apply Hk; lia).
  assert (H2 : k1 2%nat = k2 2%nat) by (apply Hk; lia).
  unfold check_time, mbind, lift, ret, datetime_now, now.
  destruct (bind (required TypeError (time_target c)) strptime_HM) as [target|e];
    [|reflexivity].
  rewrite H0. destruct (time_ge (time_of (k2 0%nat)) target); [reflexivity|].
  rewrite H1, H2.
  destruct (total_seconds _) as [secs|e]; [|reflexivity].
  destruct (int_of_float _) as [mins|e]; [|reflexivity].
  destruct (60 <? mins); reflexivity.
Qed.

(** C1, as amended.  The result of [check_condition] is a function of the
    condition and the progress alone for the kinds steps, workout, location,
    tomorrow and password, and the call then leaves the clock untouched; for
    the kind time the result is a function of the condition and of the
    readings of the wall clock that the call takes, three at most. *)
Theorem check_condition_deterministic (self : Progress) (c : Condition) (k1 k2 : Clock) :
  (type c = TIME -> forall n, (n < 3)%nat -> k1 n = k2 n) ->
  fst (check_condition self c k1) = fst (check_condition self c k2)
  /\ (type c <> TIME -> snd (check_condition self c k1) = k1).
Proof.
  intros Hk. split.
  - destruct (type c) eqn:Hty;
      try (rewrite !check_condition_pure_branch by congruence; reflexivity).
    unfold check_condition. rewrite Hty.
    apply check_time_three_readings. auto.
  - intros Hty. rewrite check_condition_pure_branch by exact Hty. reflexivity.
Qed.

Lemma check_condition_deterministic_witness :
  fst (check_condition idle until_five (frozen half_past_four))
  = fst (check_condition idle until_five then_later)
  /\ (type until_five <> TIME ->
      snd (check_condition idle until_five (frozen half_past_four))
      = frozen half_past_four).
Proof.
  apply (check_condition_deterministic idle until_five (frozen half_past_four) then_later).
  intros _ n Hn. destruct n as [|[|[|n]]]; [reflexivity|reflexivity|reflexivity|lia].
Defined.

(** C1, as stated, fails: the same progress and the same time condition give
    two different results at two instants of the clock. *)
Lemma check_condition_time_reads_clock :
  fst (check_condition idle until_five (frozen half_past_four)) = Ok (false, "30m left"%string)
  /\ fst (check_condition idle until_five (frozen one_past_five)) = Ok (true, "Time reached"%string)
  /\ fst (check_condition idle until_five (frozen half_past_four))
     <> fst (check_condition idle until_five (frozen one_past_five)).
Proof.
  assert (Ha : fst (check_condition idle until_five (frozen half_past_four))
               = Ok (false, "30m left"%string)) by (vm_compute; reflexivity).
  assert (Hb : fst (check_condition idle until_five (frozen one_past_five))
               = Ok (true, "Time reached"%string)) by (vm_compute; reflexivity).
  rewrite Ha, Hb. repeat split. discriminate.
Qed.

(** C2.  A steps condition whose target is zero makes the evaluator raise
    [ZeroDivisionError], whatever the progress and the clock: the quotient
    [steps_today / steps_target] is taken without a test of the target. *)
Theorem check_condition_steps_zero_target (self : Progress) (k : Clock) :
  fst (check_condition self (mkCondition STEPS (Some 0) None None None) k)
  = Raise ZeroDivisionError.
Proof. reflexivity. Qed.

(** A workout condition whose target is zero is evaluated without error; its
    text carries no percentage. *)
Lemma check_condition_workout_zero_target (k : Clock) :
  fst (check_condition idle (mkCondition WORKOUT None None (Some 0) None) k)
  = Ok (true, "0/0min"%string).
Proof. reflexivity. Qed.

(** C3.  With sixty minutes to go the text is ["60m left"]: the test of the
    source is [mins > 60].  So it is on a clock that stands still at four
    o'clock and on one that advances between the readings, sixty minutes and
    a half before the target.  One minute earlier the hours appear, and the
    other cases of the claim are as it says. *)
Theorem check_condition_time_sixty_minutes :
  fst (check_condition idle until_five (frozen (mkDateTime 2026 11 3 16 0 0 0)))
  = Ok (false, "60m left"%string)
  /\ fst (check_condition idle until_five ticking_before_four)
     = Ok (false, "60m left"%string)
  /\ fst (check_condition idle until_five (frozen (mkDateTime 2026 11 3 15 59 0 0)))
     = Ok (false, "1h 1m left"%string)
  /\ fst (check_condition idle until_five (frozen (mkDateTime 2026 11 3 15 0 0 0)))
     = Ok (false, "2h 0m left"%string)
  /\ fst (check_condition idle until_five (frozen half_past_four))
     = Ok (false, "30m left"%string)
  /\ fst (check_condition idle until_five (frozen one_past_five))
     = Ok (true, "Time reached"%string).
Proof. repeat split; vm_compute; reflexivity. Qed.

(** The two steps examples of the specification, and one whose percentage
    shows the binary64 arithmetic of the source: 29/100*100 is just below 29. *)
Lemma check_condition_steps_examples (k : Clock) :
  fst (check_condition (mkProgress 10000 0 None)
         (mkCondition STEPS (Some 10000) None None None) k)
  = Ok (true, "10,000/10,000 (100%)"%string)
  /\ fst (check_condition (mkProgress 5000 0 None)
            (mkCondition STEPS (Some 10000) None None None) k)
     = Ok (false, "5,000/10,000 (50%)"%string)
  /\ fst (check_condition (mkProgress 29 0 None)
            (mkCondition STEPS (Some 100) None None None) k)
     = Ok (false, "29/100 (28%)"%string).
Proof. repeat split; vm_compute; reflexivity. Qed.

End ConditionEvaluator.

(* ===================================================================== *)
(** * Properties of the rule engine                                      *)
(* ===================================================================== *)

Section RuleEngine.
Import Py Models Scenarios ModelsSpec.

(** A clock that stands still is left as it was by the evaluator. *)
Lemma check_condition_frozen (d : DateTime) (progress : Progress) (c : Condition) :
  check_condition progress c (frozen d) = (verdict d progress c, frozen d).
Proof.
  unfold verdict.
  destruct (check_condition progress c (frozen d)) as [r k] eqn:E. cbn [fst].
  f_equal. revert E. unfold check_condition.
  destruct (type c); try (unfold lift, ret; intros [= _ <-]; reflexivity).
  unfold check_time, mbind, lift, ret, datetime_now, now.
  destruct (bind (required TypeError (time_target c)) strptime_HM) as [target|e];
    [|intros [= _ <-]; reflexivity].
  destruct (time_ge _ target); [intros [= _ <-]; reflexivity|].
  destruct (total_seconds _) as [secs|e]; [|intros [= _ <-]; reflexivity].
  destruct (int_of_float _) as [mins|e]; [|intros [= _ <-]; reflexivity].
  destruct (60 <? mins); intros [= _ <-]; reflexivity.
Qed.

(** The items that the loop adds to [blocked]. *)
Lemma collect_blocked_frozen (d : DateTime) (progress : Progress) (rules : list Rule) :
  (forall r, r ∈ rules -> enabled r = true ->
             is_ok (verdict d progress (condition r)) = true) ->
  forall blocked,
    collect_blocked rules progress blocked (frozen d)
    = (Ok (blocked ++ flat_map (fun r => if blocking d progress r
                                         then Models.blocked_items r else []) rules),
       frozen d).
Proof.
  induction rules as [|rule rest IH]; intros Hok blocked.
  - cbn. unfold ret. rewrite app_nil_r. reflexivity.
  - assert (Hrest : forall r, r ∈ rest -> enabled r = true ->
                              is_ok (verdict d progress (condition r)) = true)
      by (intros r Hr; apply Hok; right; exact Hr).
    cbn [collect_blocked flat_map]. unfold blocking at 1.
    destruct (enabled rule) eqn:Hen; cbn [negb andb].
    + unfold mbind. rewrite check_condition_frozen.
      specialize (Hok rule (list_elem_of_here _ _) Hen).
      unfold unmet. destruct (verdict d progress (condition rule)) as [[met txt]|e];
        [|discriminate Hok].
      cbn [fst]. destruct met; cbn [negb].
      * rewrite IH by exact Hrest. reflexivity.
      * rewrite IH by exact Hrest. rewrite <- app_assoc. reflexivity.
    + rewrite IH by exact Hrest. reflexivity.
Qed.

(** C4, as amended.  When every enabled rule has a condition that can be
    evaluated, the blocked-item query returns, without duplicates, exactly the
    items of the enabled rules whose condition is unmet, each spelt as the
    rule spells it; a disabled rule contributes nothing. *)
Theorem get_blocked_items_union (o : set_order) (d : DateTime) (progress : Progress)
    (rules : list Rule) :
  set_order_ok o ->
  (forall r, r ∈ rules -> enabled r = true ->
             is_ok (verdict d progress (condition r)) = true) ->
  exists items,
    get_blocked_items o rules progress (frozen d) = (Ok items, frozen d)
    /\ NoDup items
    /\ forall x, x ∈ items <->
         exists r, r ∈ rules /\ enabled r = true /\ unmet d progress r = true
                   /\ x ∈ Models.blocked_items r.
Proof.
  intros Ho Hok.
  unfold get_blocked_items, mbind.
  rewrite (collect_blocked_frozen d progress rules Hok []). cbn [app]. unfold ret.
  eexists. split; [reflexivity|]. split.
  - rewrite (Ho _). apply NoDup_elements.
  - intros x. rewrite (Ho _), elem_of_elements, elem_of_list_to_set, list_elem_of_In, in_flat_map.
    split.
    + intros (r & Hr & Hx). exists r. unfold blocking in Hx.
      destruct (enabled r); [|destruct Hx].
      destruct (unmet d progress r); [|destruct Hx].
      rewrite list_elem_of_In. rewrite list_elem_of_In. auto.
    + intros (r & Hr & Hen & Hun & Hx). exists r.
      unfold blocking. rewrite Hen, Hun. rewrite <- !list_elem_of_In. auto.
Qed.

Lemma get_blocked_items_union_witness :
  exists items,
    get_blocked_items elements [no_netflix] idle (frozen half_past_four)
    = (Ok items, frozen half_past_four)
    /\ NoDup items
    /\ forall x, x ∈ items <->
         exists r, r ∈ [no_netflix] /\ enabled r = true
                   /\ unmet half_past_four idle r = true
                   /\ x ∈ Models.blocked_items r.
Proof.
  apply (get_blocked_items_union elements half_past_four idle [no_netflix]).
  - intros s. reflexivity.
  - intros r Hr _. apply list_elem_of_singleton in Hr. subst r. reflexivity.
Defined.

(** C4, as stated, fails: the items are not case-folded.  A rule that blocks
    ["Netflix"] yields ["Netflix"], not ["netflix"]. *)
Lemma get_blocked_items_keeps_case :
  fst (get_blocked_items elements [no_netflix] idle (frozen half_past_four))
  = Ok ["Netflix"%string]
  /\ lower "Netflix" = "netflix"%string
  /\ ~ In (lower "Netflix") ["Netflix"%string].
Proof.
  split; [vm_compute; reflexivity|]. split; [reflexivity|].
  cbn. intros [H|[]]. discriminate H.
Qed.

(** Disabling a rule removes what it alone contributes, and enabling it
    again gives the rule list, hence the result, of before. *)
Lemma set_enabled_false_not_blocking (d : DateTime) (progress : Progress) (r : Rule) :
  blocking d progress (set_enabled false r) = false.
Proof. reflexivity. Qed.

Lemma set_enabled_restores (r : Rule) :
  set_enabled (enabled r) (set_enabled false r) = r.
Proof. destruct r; reflexivity. Qed.

End RuleEngine.

(* ===================================================================== *)
(** * Properties of the strings                                          *)
(* ===================================================================== *)

Section Strings.
Import Py.

Lemma lower_char_idempotent (c : ascii) : lower_char (lower_char c) = lower_char c.
Proof. destruct c as [[] [] [] [] [] [] [] []]; vm_compute; reflexivity. Qed.

Lemma lower_idempotent (s : string) : lower (lower s) = lower s.
Proof.
  induction s as [|c s IH]; [reflexivity|].
  cbn. rewrite lower_char_idempotent, IH. reflexivity.
Qed.

Lemma append_cons (x : ascii) (a b : string) : String x a +:+ b = String x (a +:+ b).
Proof. reflexivity. Qed.

Lemma append_nil (b : string) : EmptyString +:+ b = b.
Proof. reflexivity. Qed.

Lemma append_assoc (a b c : string) : (a +:+ b) +:+ c = a +:+ (b +:+ c).
Proof.
  induction a as [|x a IH]; [reflexivity|].
  rewrite !append_cons, IH. reflexivity.
Qed.

Lemma append_empty_r (a : string) : a +:+ EmptyString = a.
Proof.
  induction a as [|x a IH]; [reflexivity|].
  rewrite append_cons, IH. reflexivity.
Qed.

(** A prefix found by [startswith] can be cut off and put back. *)
Lemma startswith_split (p s : string) :
  startswith p s = true -> s = p +:+ drop_chars (String.length p) s.
Proof.
  revert s. induction p as [|a p IH]; intros s H; [reflexivity|].
  destruct s as [|b s]; [discriminate H|]. cbn in H.
  apply andb_prop in H. destruct H as [Hab Hps].
  apply Ascii.eqb_eq in Hab. subst b.
  rewrite append_cons. cbn [String.length drop_chars]. f_equal. apply IH. exact Hps.
Qed.

(** [lstrip] removes white space in front and nothing else. *)
Lemma lstrip_split (s : string) :
  exists l, BlockerSpec.all_space l = true /\ s = l +:+ lstrip s.
Proof.
  induction s as [|c s (l & Hl & Hs)].
  - exists EmptyString. split; reflexivity.
  - cbn [lstrip]. destruct (is_space c) eqn:Hc.
    + exists (String c l). split.
      * cbn. rewrite Hc, Hl. reflexivity.
      * rewrite append_cons, <- Hs. reflexivity.
    + exists EmptyString. split; reflexivity.
Qed.

(** [rstrip] removes white space at the end and nothing else. *)
Lemma rstrip_split (s : string) :
  exists r, BlockerSpec.all_space r = true /\ s = rstrip s +:+ r.
Proof.
  induction s as [|c s (r & Hr & Hs)].
  - exists EmptyString. split; reflexivity.
  - cbn [rstrip]. destruct (rstrip s) as [|c' t] eqn:Ht.
    + rewrite append_nil in Hs. subst s. destruct (is_space c) eqn:Hc.
      * exists (String c r). split; [cbn; rewrite Hc, Hr|]; reflexivity.
      * exists r. split; [exact Hr|reflexivity].
    + exists r. split; [exact Hr|]. rewrite append_cons, <- Hs. reflexivity.
Qed.

(** [strip] keeps the text between the white space of both ends. *)
Lemma strip_split (s : string) :
  exists l r, BlockerSpec.all_space l = true /\ BlockerSpec.all_space r = true
              /\ s = l +:+ strip s +:+ r.
Proof.
  destruct (lstrip_split s) as (l & Hl & Hs).
  destruct (rstrip_split (lstrip s)) as (r & Hr & Ht).
  exists l, r. repeat split; try assumption.
  unfold strip. rewrite <- Ht. exact Hs.
Qed.

End Strings.

(* ===================================================================== *)
(** * Properties of a file opened in text mode                           *)
(* ===================================================================== *)

Section TextMode.
Import Py Blocker BlockerSpec.












End TextMode.

(* ===================================================================== *)
(** * Properties of the blocker                                          *)
(* ===================================================================== *)

Section BlockerProperties.
Import Py Blocker BlockerSpec Scenarios.

Lemma count_writes_app (t1 t2 : list Event) :
  count_writes (t1 ++ t2) = (count_writes t1 + count_writes t2)%nat.
Proof.
  induction t1 as [|e t1 IH]; [reflexivity|].
  destruct e; cbn; rewrite IH; reflexivity.
Qed.

Lemma hosts_writes_emit (e : Event) (w : World) :
  hosts_writes (emit e w)
  = (hosts_writes w + match e with WriteHosts _ => 1 | _ => 0 end)%nat.
Proof.
  unfold hosts_writes, emit. cbn [trace]. rewrite count_writes_app.
  destruct e; reflexivity.
Qed.

(** [_apply_hosts_block] writes the file once when it can, never otherwise. *)
Lemma apply_hosts_block_writes (o : set_order) (self : WindowsBlocker) (w : World) :
  hosts_writes (_apply_hosts_block o self w)
  = (hosts_writes w + if can_rewrite w then 1 else 0)%nat.
Proof.
  unfold _apply_hosts_block, read_hosts, write_hosts, can_rewrite.
  destruct (hosts w) as [text|]; [|rewrite hosts_writes_emit; lia].
  destruct (hosts_readable w); [|rewrite hosts_writes_emit; cbn; lia].
  destruct (hosts_writable w); [|rewrite hosts_writes_emit; cbn; lia].
  rewrite !hosts_writes_emit. unfold hosts_writes. cbn [trace andb]. lia.
Qed.

(** An update with the set that is applied already changes nothing. *)
Lemma update_blocked_same_set (o : set_order) (self : WindowsBlocker)
    (items : list string) (w : World) :
  list_to_set (map lower items) = blocked_items self ->
  update_blocked o self items w = (self, w).
Proof.
  intros H. unfold update_blocked. cbv zeta.
  destruct (decide (list_to_set (map lower items) = blocked_items self)); [reflexivity|].
  contradiction.
Qed.

(** C5, as amended.  An update with the set that is applied already changes
    neither the blocker nor the operating system.  Of two updates in a row
    with the same items the second does nothing, and the first writes the hosts
    file once when the set differs from the one applied before and the file
    can be read and written, and not at all otherwise. *)
Theorem update_blocked_twice (o : set_order) (self : WindowsBlocker)
    (items : list string) (w : World) :
  let r1 := update_blocked o self items w in
  let r2 := update_blocked o (fst r1) items (snd r1) in
  r2 = r1
  /\ (list_to_set (map lower items) = blocked_items self -> r1 = (self, w))
  /\ hosts_writes (snd r2)
     = (hosts_writes w
        + if decide (list_to_set (map lower items) = blocked_items self) then 0
          else if can_rewrite w then 1 else 0)%nat.
Proof.
  cbv zeta.
  assert (H2 : update_blocked o (fst (update_blocked o self items w)) items
                 (snd (update_blocked o self items w))
               = update_blocked o self items w).
  { unfold update_blocked at 2 3 4. cbv zeta.
    destruct (decide (list_to_set (map lower items) = blocked_items self)) as [E|N];
      cbn [fst snd].
    - apply update_blocked_same_set. exact E.
    - apply update_blocked_same_set. reflexivity. }
  rewrite H2. split; [reflexivity|]. split; [apply update_blocked_same_set|].
  unfold update_blocked. cbv zeta.
  destruct (decide (list_to_set (map lower items) = blocked_items self)); cbn [snd].
  - lia.
  - apply apply_hosts_block_writes.
Qed.

(** C5, as stated, fails: two updates with the set that a fresh blocker
    holds write nothing at all, and neither do two updates by a process that
    may not write the file. *)
Lemma update_blocked_twice_without_write :
  hosts_writes (snd (update_blocked elements init [] admin_world)) = O
  /\ hosts_writes
       (snd (update_blocked elements
               (fst (update_blocked elements init [] admin_world)) []
               (snd (update_blocked elements init [] admin_world)))) = O
  /\ hosts_writes
       (snd (update_blocked elements
               (fst (update_blocked elements init ["netflix"%string] user_world))
               ["netflix"%string]
               (snd (update_blocked elements init ["netflix"%string] user_world)))) = O.
Proof. repeat split; vm_compute; reflexivity. Qed.

(** Every name in a set built by [update_blocked] is in lower case. *)
Lemma lowered_set_lower (items : list string) (x : string) :
  x ∈ (list_to_set (map lower items) : gset string) -> lower x = x.
Proof.
  rewrite elem_of_list_to_set, list_elem_of_In, in_map_iff.
  intros (i & <- & _). apply lower_idempotent.
Qed.

Lemma reachable_lower (o : set_order) (b : WindowsBlocker) :
  reachable o b -> forall x, x ∈ blocked_items b -> lower x = x.
Proof.
  induction 1 as [|b items w Hb IH|b w Hb IH]; intros x Hx.
  - cbn in Hx. set_solver.
  - unfold update_blocked in Hx. cbv zeta in Hx.
    destruct (decide (list_to_set (map lower items) = blocked_items b)); cbn in Hx.
    + apply IH. exact Hx.
    + eapply lowered_set_lower. exact Hx.
  - cbn in Hx. set_solver.
Qed.

(** C10.  The set that a blocker holds contains lower-case names only, and
    an update whose items name the same set up to letter case, order and
    repetition changes neither the blocker nor the operating system. *)
Theorem update_blocked_case_insensitive (o : set_order) (b : WindowsBlocker)
    (items : list string) (w : World) :
  reachable o b ->
  (forall x, x ∈ map lower items <-> x ∈ map lower (elements (blocked_items b))) ->
  (forall x, x ∈ blocked_items b -> lower x = x)
  /\ update_blocked o b items w = (b, w)
  /\ hosts_writes (snd (update_blocked o b items w)) = hosts_writes w.
Proof.
  intros Hb Hsame.
  pose proof (reachable_lower o b Hb) as Hlow.
  assert (E : list_to_set (map lower items) = blocked_items b).
  { apply set_eq. intros x. rewrite elem_of_list_to_set, Hsame.
    rewrite !list_elem_of_In, in_map_iff. split.
    - intros (y & <- & Hy). apply list_elem_of_In, elem_of_elements in Hy.
      rewrite (Hlow y Hy). exact Hy.
    - intros Hx. exists x. split; [apply Hlow; exact Hx|].
      apply list_elem_of_In, elem_of_elements. exact Hx. }
  split; [exact Hlow|].
  rewrite (update_blocked_same_set o b items w E). split; reflexivity.
Qed.

Lemma update_blocked_case_insensitive_witness :
  let b := fst (update_blocked elements init two_sites admin_world) in
  let w := snd (update_blocked elements init two_sites admin_world) in
  (forall x, x ∈ blocked_items b -> lower x = x)
  /\ update_blocked elements b same_two_sites w = (b, w)
  /\ hosts_writes (snd (update_blocked elements b same_two_sites w)) = hosts_writes w.
Proof.
  cbv zeta. apply update_blocked_case_insensitive.
  - apply reachable_update, reachable_init.
  - intros x.
    assert (E : map lower (elements (blocked_items
                  (fst (update_blocked elements init two_sites admin_world))))
                = ["youtube"; "netflix"]%string) by (vm_compute; reflexivity).
    rewrite E. cbn. rewrite !elem_of_cons, elem_of_nil. tauto.
Defined.

(** ** The rewriting of the hosts file *)

Lemma find_split (p s a b : string) :
  find p s = Some (a, b) -> s = a +:+ p +:+ b.
Proof.
  revert a b. induction s as [|c s IH]; intros a b.
  - cbn [find]. destruct (startswith p EmptyString) eqn:Hp; [|discriminate].
    intros [= <- <-]. rewrite append_nil. apply startswith_split. exact Hp.
  - cbn [find]. destruct (startswith p (String c s)) eqn:Hp.
    + intros [= <- <-]. rewrite append_nil. apply startswith_split. exact Hp.
    + destruct (find p s) as [[a' b']|]; [|discriminate].
      intros [= <- <-]. rewrite append_cons. f_equal. apply IH. reflexivity.
Qed.




Lemma length_append (a b : string) :
  String.length (a +:+ b) = (String.length a + String.length b)%nat.
Proof.
  induction a as [|c a IH]; [reflexivity|].
  rewrite append_cons. cbn [String.length]. rewrite IH. reflexivity.
Qed.

Lemma find_shorter (p s a b : string) :
  find p s = Some (a, b) ->
  String.length s = (String.length a + String.length p + String.length b)%nat.
Proof.
  intros H. apply find_split in H. rewrite H, !length_append. lia.
Qed.

(** The rounds allowed to [remove_regions] never run out: any number of
    rounds from the length of the text on gives the same result. *)
Lemma remove_regions_upto_enough (n : nat) :
  forall m text,
    (String.length text <= n)%nat -> (String.length text <= m)%nat ->
    remove_regions_upto n text = remove_regions_upto m text.
Proof.
  induction n as [|n IH]; intros m text Hn Hm.
  - destruct text; [|cbn in Hn; lia].
    destruct m; reflexivity.
  - destruct m as [|m].
    + destruct text; [reflexivity|cbn in Hm; lia].
    + cbn [remove_regions_upto].
      destruct (find MARKER_START text) as [[before after]|] eqn:Hs; [|reflexivity].
      destruct (find MARKER_END after) as [[mid rest]|] eqn:He; [|reflexivity].
      apply find_shorter in Hs. apply find_shorter in He.
      change (String.length MARKER_START) with 28%nat in Hs.
      change (String.length MARKER_END) with 26%nat in He.
      f_equal. apply IH; lia.
Qed.

Lemma remove_regions_upto_length (n : nat) (text : string) :
  (String.length text <= n)%nat -> remove_regions_upto n text = remove_regions text.
Proof. intros H. apply remove_regions_upto_enough; [exact H|reflexivity]. Qed.




(** The resolution examples of the specification. *)
Lemma get_domains_for_item_examples :
  _get_domains_for_item "Netflix"
  = ["netflix.com"; "nflxvideo.net"; "nflximg.net"; "nflxso.net"]%string
  /\ _get_domains_for_item "example.org" = ["example.org"%string]
  /\ _get_domains_for_item "foo" = ["foo.com"%string].
Proof. repeat split; reflexivity. Qed.



End BlockerProperties.

(* ===================================================================== *)
(** * Properties of the rule file                                        *)
(* ===================================================================== *)

Section RuleFile.
Import Py Models ModelsSpec Scenarios.

Lemma py_get_ok_any_default (d : json) (key : string) (a b : json) :
  is_ok (py_get d key a) = is_ok (py_get d key b).
Proof. destruct d; reflexivity. Qed.

(** Whether [Rule.from_dict] raises does not depend on the clock. *)
Lemma parseable_any_clock (record : json) (k : Clock) :
  is_ok (fst (Rule_from_dict record k)) = parseable record.
Proof.
  unfold parseable, Rule_from_dict, mbind, lift, ret, datetime_now, now.
  destruct (py_getitem record "id"); [|reflexivity].
  destruct (py_getitem record "blocked_items"); [|reflexivity].
  destruct (py_getitem record "condition") as [cd|]; [|reflexivity].
  destruct (Condition_from_dict cd); [|reflexivity].
  destruct (py_get record "enabled" (JBool true)); [|reflexivity].
  pose proof (py_get_ok_any_default record "created_at"
                (JStr (isoformat (k O)))
                (JStr (isoformat (frozen (mkDateTime 1970 1 1 0 0 0 0) O)))) as E.
  destruct (py_get record "created_at" (JStr (isoformat (k O))));
    destruct (py_get record "created_at" _); cbn in E |- *; congruence.
Qed.

(** The comprehension builds every rule when every record can be built. *)
Lemma map_M_all_parseable (records : list json) :
  forallb parseable records = true ->
  forall k, exists loaded k',
    map_M Rule_from_dict records k = (Ok loaded, k')
    /\ Forall2 (fun record rule => exists k0, fst (Rule_from_dict record k0) = Ok rule)
               records loaded.
Proof.
  induction records as [|record rest IH]; intros Hall k.
  - exists [], k. split; [reflexivity|constructor].
  - cbn in Hall. apply andb_prop in Hall. destruct Hall as [Hrec Hrest].
    rewrite <- (parseable_any_clock record k) in Hrec.
    cbn [map_M]. unfold mbind at 1.
    destruct (Rule_from_dict record k) as [[rule|e] k1] eqn:E; [|discriminate Hrec].
    destruct (IH Hrest k1) as (loaded & k' & Hmap & Hall2).
    exists (rule :: loaded), k'. split.
    + unfold mbind. rewrite Hmap. reflexivity.
    + constructor; [|exact Hall2]. exists k. rewrite E. reflexivity.
Qed.

(** It raises as soon as one record cannot be built. *)
Lemma map_M_some_unparseable (records : list json) :
  forallb parseable records = false ->
  forall k, exists e k', map_M Rule_from_dict records k = (Raise e, k').
Proof.
  induction records as [|record rest IH]; intros Hsome k; [discriminate Hsome|].
  cbn in Hsome. cbn [map_M]. unfold mbind at 1.
  pose proof (parseable_any_clock record k) as Hk.
  destruct (Rule_from_dict record k) as [[rule|e] k1] eqn:E.
  - cbn in Hk. rewrite <- Hk in Hsome. cbn in Hsome.
    destruct (IH Hsome k1) as (e & k' & Hmap).
    exists e, k'. unfold mbind. rewrite Hmap. reflexivity.
  - exists e, k1. reflexivity.
Qed.

(** C9, as amended.  [load] takes all the records or none: when every
    record of the file can be built the store holds the rules built from them,
    in their order; when one cannot, [load] raises and the store is given no
    rule list.  Only a missing file is tolerated, and gives an empty list. *)
Theorem load_all_or_nothing (self : RuleStore) (data listed : json)
    (records : list json) (k : Clock) :
  py_get data "rules" (JArr []) = Ok listed ->
  py_iter listed = Ok records ->
  (forallb parseable records = true ->
     exists loaded k',
       load (Document data) self k = (Ok (mkRuleStore (filepath self) loaded), k')
       /\ Forall2 (fun record rule => exists k0, fst (Rule_from_dict record k0) = Ok rule)
                  records loaded)
  /\ (forallb parseable records = false ->
        exists e k', load (Document data) self k = (Raise e, k'))
  /\ load Missing self k = (Ok (mkRuleStore (filepath self) []), k).
Proof.
  intros Hget Hiter. unfold load, mbind, lift, ret. rewrite Hget, Hiter.
  split; [|split; [|reflexivity]].
  - intros Hall. destruct (map_M_all_parseable records Hall k) as (loaded & k' & Hmap & H2).
    exists loaded, k'. rewrite Hmap. split; [reflexivity|exact H2].
  - intros Hsome. destruct (map_M_some_unparseable records Hsome k) as (e & k' & Hmap).
    exists e, k'. rewrite Hmap. reflexivity.
Qed.

Lemma load_all_or_nothing_witness :
  (forallb parseable [good_record; good_record] = true ->
     exists loaded k',
       load (Document (JObj [("rules"%string, JArr [good_record; good_record])]))
            (mkRuleStore "rules.json" []) (frozen half_past_four)
       = (Ok (mkRuleStore "rules.json" loaded), k')
       /\ Forall2 (fun record rule => exists k0, fst (Rule_from_dict record k0) = Ok rule)
                  [good_record; good_record] loaded)
  /\ forallb parseable [good_record; good_record] = true.
Proof.
  split; [|reflexivity].
  apply (load_all_or_nothing (mkRuleStore "rules.json" [])
           (JObj [("rules"%string, JArr [good_record; good_record])])
           (JArr [good_record; good_record]) [good_record; good_record]
           (frozen half_past_four)); reflexivity.
Defined.

(** C9, as stated, fails: a file that holds a malformed record between two
    well-formed ones makes the store raise [KeyError] at its creation; neither
    of the two well-formed records is loaded. *)
Lemma load_aborts_on_malformed_record :
  parseable good_record = true
  /\ parseable bad_record = false
  /\ fst (RuleStore_init "rules.json" mixed_file (frozen half_past_four)) = Raise KeyError.
Proof. repeat split; vm_compute; reflexivity. Qed.

End RuleFile.

(* ===================================================================== *)
(** * Properties of the window-title classifier                          *)
(* ===================================================================== *)

Section Patterns.
Import Py ReSpec.

(** Every pattern of the sources is in the fragment of [re] that is
    modelled: none is answered for by the [None] of [Re.compile]. *)
Lemma source_patterns_compile : forallb compiles source_patterns = true.
Proof. vm_compute. reflexivity. Qed.

End Patterns.

Section WindowClassifier.
Import Py WindowMonitor WindowMonitorSpec.

(** The first member that a loop over a set meets exists exactly when some
    member passes the test, in whatever order the set is met. *)
Lemma find_none_existsb {A : Type} (f : A -> bool) (l : list A) :
  List.find f l = None <-> existsb f l = false.
Proof.
  induction l as [|a l IH]; [split; reflexivity|].
  cbn. destruct (f a); [split; discriminate|exact IH].
Qed.

Lemma existsb_permutation {A : Type} (f : A -> bool) (l l' : list A) :
  Permutation l l' -> existsb f l = existsb f l'.
Proof.
  intros HP. destruct (existsb f l') eqn:E.
  - apply existsb_exists in E. destruct E as (x & Hx & Hf).
    apply existsb_exists. exists x. split; [|exact Hf].
    apply (Permutation_in x (Permutation_sym HP)). exact Hx.
  - destruct (existsb f l) eqn:E'; [|reflexivity].
    apply existsb_exists in E'. destruct E' as (x & Hx & Hf).
    assert (existsb f l' = true) as E2; [|congruence].
    apply existsb_exists. exists x. split; [|exact Hf].
    apply (Permutation_in x HP). exact Hx.
Qed.

(** The loop over the app definitions stops at the first one whose class
    matches, and answers from its title patterns alone. *)
Lemma detect_known_app_first (window : WindowInfo)
    (before after : list (string * AppPatterns)) (app_name : string) (patterns : AppPatterns) :
  forallb (fun e => negb (app_matches window e)) before = true ->
  app_matches window (app_name, patterns) = true ->
  detect_known_app (before ++ (app_name, patterns) :: after)
                   (lower (wm_class window)) (title window)
  = (app_name, title_category window patterns).
Proof.
  intros Hbefore Hhere. induction before as [|[n p] before IH].
  - cbn [app detect_known_app]. unfold app_matches, names_class in Hhere. cbn [snd] in Hhere.
    rewrite Hhere. cbn [negb]. unfold title_category.
    destruct (existsb _ (dm_patterns patterns)); [reflexivity|].
    destruct (existsb _ (server_patterns patterns)); reflexivity.
  - cbn [forallb] in Hbefore. apply andb_prop in Hbefore. destruct Hbefore as [Hn Hrest].
    cbn [app detect_known_app]. unfold app_matches, names_class in Hn. cbn [snd] in Hn.
    rewrite Hn. apply IH. exact Hrest.
Qed.

Lemma detect_known_app_none (window : WindowInfo) (apps : list (string * AppPatterns)) :
  existsb (app_matches window) apps = false ->
  detect_known_app apps (lower (wm_class window)) (title window)
  = ("unknown"%string, ALLOWED).
Proof.
  induction apps as [|[n p] apps IH]; intros H; [reflexivity|].
  cbn [existsb] in H. apply orb_false_elim in H. destruct H as [Hn Hrest].
  cbn [detect_known_app]. unfold app_matches, names_class in Hn. cbn [snd] in Hn.
  rewrite Hn. cbn [negb]. apply IH. exact Hrest.
Qed.

(** C6.  The classifier answers in a strict order of priority, in whatever
    order the two sets of app names are met: an always-allowed class is
    allowed; else an always-blocked class is a feed; else the first app
    definition whose class matches decides from its title patterns, DM
    patterns before server patterns, and unknown when none matches; a class
    that no definition matches is allowed.  The title ["@alice - Discord"] of
    a Discord window is a DM although the second server pattern matches it
    too. *)
Theorem detect_screen_type_priority (allowed_apps blocked_apps : list string)
    (window : WindowInfo) :
  Permutation allowed_apps ALLOWED_APPS ->
  Permutation blocked_apps BLOCKED_APPS ->
  let result := detect_screen_type allowed_apps blocked_apps window in
  (existsb (names_class window) ALLOWED_APPS = true -> snd result = ALLOWED)
  /\ (existsb (names_class window) ALLOWED_APPS = false ->
      existsb (names_class window) BLOCKED_APPS = true -> snd result = FEED)
  /\ (existsb (names_class window) ALLOWED_APPS = false ->
      existsb (names_class window) BLOCKED_APPS = false ->
      forall before app_name patterns after,
        APP_PATTERNS = before ++ (app_name, patterns) :: after ->
        forallb (fun e => negb (app_matches window e)) before = true ->
        app_matches window (app_name, patterns) = true ->
        result = (app_name, title_category window patterns))
  /\ (existsb (names_class window) ALLOWED_APPS = false ->
      existsb (names_class window) BLOCKED_APPS = false ->
      existsb (app_matches window) APP_PATTERNS = false ->
      result = ("unknown"%string, ALLOWED))
  /\ detect_screen_type allowed_apps blocked_apps alice_dm = ("discord"%string, DM)
  /\ title_matches (title alice_dm) "^.+ - Discord$" = true.
Proof.
  intros Hallowed Hblocked. cbv zeta. unfold detect_screen_type.
  fold (names_class window).
  rewrite <- (existsb_permutation (names_class window) _ _ Hallowed).
  rewrite <- (existsb_permutation (names_class window) _ _ Hblocked).
  split; [|split; [|split; [|split; [|split]]]].
  - intros H. destruct (List.find (names_class window) allowed_apps) eqn:F; [reflexivity|].
    apply find_none_existsb in F. congruence.
  - intros Ha Hb. apply find_none_existsb in Ha. rewrite Ha.
    destruct (List.find (names_class window) blocked_apps) eqn:F; [reflexivity|].
    apply find_none_existsb in F. congruence.
  - intros Ha Hb before app_name patterns after Happs Hbefore Hhere.
    apply find_none_existsb in Ha. apply find_none_existsb in Hb. rewrite Ha, Hb, Happs.
    apply detect_known_app_first; assumption.
  - intros Ha Hb Hnone.
    apply find_none_existsb in Ha. apply find_none_existsb in Hb. rewrite Ha, Hb.
    apply detect_known_app_none. exact Hnone.
  - assert (Ha : List.find (names_class alice_dm) allowed_apps = None).
    { apply find_none_existsb.
      rewrite (existsb_permutation _ _ _ Hallowed). vm_compute. reflexivity. }
    assert (Hb : List.find (names_class alice_dm) blocked_apps = None).
    { apply find_none_existsb.
      rewrite (existsb_permutation _ _ _ Hblocked). vm_compute. reflexivity. }
    fold (names_class alice_dm). rewrite Ha, Hb. vm_compute. reflexivity.
  - vm_compute. reflexivity.
Qed.

Lemma detect_screen_type_priority_witness :
  detect_screen_type ALLOWED_APPS BLOCKED_APPS alice_dm = ("discord"%string, DM)
  /\ title_matches (title alice_dm) "^.+ - Discord$" = true.
Proof.
  apply (detect_screen_type_priority ALLOWED_APPS BLOCKED_APPS alice_dm);
    apply Permutation_refl.
Defined.

End WindowClassifier.

(* ===================================================================== *)
(** * Properties of the OCR-text classifier                              *)
(* ===================================================================== *)

Section TextClassifier.
Import Py ScreenAnalyzer ScreenAnalyzerSpec.
Local Open Scope Q_scope.

(** ** Dicts keyed by screen type *)

Lemma dict_update_keys {V : Type} (f : V -> V) (d : dict V) (st : ScreenType) :
  map fst (dict_update f d st) = map fst d.
Proof.
  induction d as [|[k v] d IH]; [reflexivity|].
  cbn [dict_update]. destruct (ScreenType_eqb k st); cbn; [reflexivity|].
  rewrite IH. reflexivity.
Qed.

(** A well-keyed dict is the table of its values. *)
Lemma well_keyed_table {V : Type} (dflt : V) (d : dict V) :
  well_keyed d -> d = map (fun st => (st, dict_get dflt d st)) all_screen_types.
Proof.
  unfold well_keyed, all_screen_types. intros H.
  do 8 (destruct d as [|[? ?] d]; [discriminate H|]).
  destruct d; [|discriminate H].
  cbn in H. injection H as -> -> -> -> -> -> -> ->. reflexivity.
Qed.

Lemma dict_get_update {V : Type} (dflt : V) (f : V -> V) (d : dict V) (st st' : ScreenType) :
  well_keyed d ->
  dict_get dflt (dict_update f d st) st'
  = if ScreenType_eqb st st' then f (dict_get dflt d st) else dict_get dflt d st'.
Proof.
  intros H. rewrite (well_keyed_table dflt d H).
  generalize (dict_get dflt d). intros g.
  destruct st, st'; reflexivity.
Qed.

Lemma ScreenType_eqb_eq (a b : ScreenType) : ScreenType_eqb a b = true <-> a = b.
Proof. destruct a, b; cbn; split; congruence. Qed.

(** ** Counting the patterns found *)

Lemma hits_app (text : string) (a b : list string) :
  hits text (a ++ b) = hits text a ++ hits text b.
Proof. apply List.filter_app. Qed.

Lemma count_cons (text pattern : string) (patterns : list string) :
  count text (pattern :: patterns)
  == (if Re.search true pattern text then 1 else 0) + count text patterns.
Proof.
  unfold count, hits. cbn [List.filter].
  destruct (Re.search true pattern text); [|ring].
  cbn [length]. rewrite Nat2Z.inj_succ, <- Z.add_1_l, inject_Z_plus. reflexivity.
Qed.

Lemma count_app (text : string) (a b : list string) :
  count text (a ++ b) == count text a + count text b.
Proof.
  unfold count. rewrite hits_app, length_app, Nat2Z.inj_add, inject_Z_plus. reflexivity.
Qed.

Lemma count_nonneg (text : string) (patterns : list string) : 0 <= count text patterns.
Proof.
  unfold count. change 0 with (inject_Z 0). rewrite <- Zle_Qle. lia.
Qed.

(** ** One loop over a list of patterns *)

Lemma try_pattern_well_formed (text : string) (st : ScreenType) (w : Q) (label : string)
    (s : State) (pattern : string) :
  well_formed s -> well_formed (try_pattern text st w label s pattern).
Proof.
  intros (Hs & Hm & Hc). unfold try_pattern.
  destruct (Re.search true pattern text); [|repeat split; assumption].
  repeat split; cbn [scores matched].
  - unfold well_keyed. rewrite dict_update_keys. exact Hs.
  - unfold well_keyed. rewrite dict_update_keys. exact Hm.
  - intros st'. unfold score_of. cbn [scores]. rewrite dict_get_update by exact Hs.
    destruct (ScreenType_eqb st st'); [apply Qred_complete, Qred_correct|apply Hc].
Qed.

Lemma try_patterns_fold (text : string) (st : ScreenType) (w : Q) (label : string)
    (patterns : list string) :
  forall s, well_formed s ->
    well_formed (fold_left (try_pattern text st w label) patterns s)
    /\ forall st',
         score_of (fold_left (try_pattern text st w label) patterns s) st'
         = Qred (score_of s st'
                 + (if ScreenType_eqb st st' then w * count text patterns else 0))
         /\ matched_of (fold_left (try_pattern text st w label) patterns s) st'
            = matched_of s st'
              ++ (if ScreenType_eqb st st'
                  then map (String.append label) (hits text patterns) else []).
Proof.
  induction patterns as [|pattern patterns IH]; intros s Hwf.
  - cbn [fold_left]. split; [exact Hwf|]. intros st'. split.
    + destruct Hwf as (_ & _ & Hc). rewrite <- (Hc st') at 1. apply Qred_complete.
      destruct (ScreenType_eqb st st'); [change (count text []) with 0|]; ring.
    + destruct (ScreenType_eqb st st'); rewrite app_nil_r; reflexivity.
  - cbn [fold_left].
    pose proof (try_pattern_well_formed text st w label s pattern Hwf) as Hwf1.
    destruct (IH _ Hwf1) as (Hwf' & Hsm). split; [exact Hwf'|].
    intros st'. destruct (Hsm st') as (Hscore & Hmatched).
    rewrite Hscore, Hmatched. clear Hscore Hmatched Hsm IH.
    destruct Hwf as (Hs & Hm & Hc).
    unfold try_pattern, hits. cbn [List.filter].
    destruct (Re.search true pattern text) eqn:E.
    + unfold score_of, matched_of. cbn [scores matched].
      rewrite !dict_get_update by assumption.
      destruct (ScreenType_eqb st st') eqn:Est.
      * apply ScreenType_eqb_eq in Est. subst st'. split.
        -- apply Qred_complete. rewrite Qred_correct, count_cons, E. ring.
        -- cbn [map]. rewrite <- app_assoc. reflexivity.
      * split; reflexivity.
    + split; [|reflexivity]. apply Qred_complete.
      destruct (ScreenType_eqb st st'); [|reflexivity].
      rewrite count_cons, E. ring.
Qed.

(** ** The two loops over the tables *)

Lemma count_nothing (text : string) : count text [] = 0.
Proof. reflexivity. Qed.

Lemma for_type_count (text : string) (st' : ScreenType) (key : string)
    (patterns : list string) :
  count text (for_type st' key patterns)
  = match ScreenType_of_value key with
    | Some st => if ScreenType_eqb st st' then count text patterns else 0
    | None => 0
    end.
Proof.
  unfold for_type. destruct (ScreenType_of_value key) as [st|]; [|reflexivity].
  destruct (ScreenType_eqb st st'); reflexivity.
Qed.

Lemma scan_general_step (text : string) (s : State)
    (entry : string * list (string * list string)) :
  well_formed s ->
  well_formed (scan_general text s entry)
  /\ forall st',
       score_of (scan_general text s entry) st'
       = Qred (score_of s st'
               + 2 * count text (for_type st' (fst entry) (get_list "strong" (snd entry)))
               + (1 # 2) * count text (for_type st' (fst entry)
                                         (get_list "medium" (snd entry))))
       /\ matched_of (scan_general text s entry) st'
          = matched_of s st'
            ++ for_type st' (fst entry)
                 (map (String.append "strong:") (hits text (get_list "strong" (snd entry)))
                  ++ map (String.append "medium:")
                         (hits text (get_list "medium" (snd entry)))).
Proof.
  intros Hwf. destruct entry as [key groups]. cbn [fst snd].
  unfold scan_general.
  destruct (ScreenType_of_value key) as [st|] eqn:Ekey.
  - destruct (try_patterns_fold text st 2 "strong:" (get_list "strong" groups) s Hwf)
      as (Hwf1 & H1).
    destruct (try_patterns_fold text st (1 # 2) "medium:" (get_list "medium" groups) _ Hwf1)
      as (Hwf2 & H2).
    split; [exact Hwf2|]. intros st'.
    destruct (H1 st') as (Hs1 & Hm1). destruct (H2 st') as (Hs2 & Hm2).
    rewrite Hs2, Hm2, Hs1, Hm1, !for_type_count. unfold for_type. rewrite Ekey. split.
    + apply Qred_complete. rewrite Qred_correct.
      destruct (ScreenType_eqb st st'); ring.
    + destruct (ScreenType_eqb st st'); rewrite <- app_assoc; reflexivity.
  - split; [exact Hwf|]. intros st'. rewrite !for_type_count. unfold for_type. rewrite Ekey.
    split; [|rewrite app_nil_r; reflexivity].
    destruct Hwf as (_ & _ & Hc). rewrite <- (Hc st') at 1.
    apply Qred_complete. ring.
Qed.

Lemma scan_general_fold (text : string) (table : list (string * list (string * list string))) :
  forall s, well_formed s ->
    well_formed (fold_left (scan_general text) table s)
    /\ forall st',
         score_of (fold_left (scan_general text) table s) st'
         = Qred (score_of s st'
                 + 2 * count text (tier_patterns_in table "strong" st')
                 + (1 # 2) * count text (tier_patterns_in table "medium" st'))
         /\ matched_of (fold_left (scan_general text) table s) st'
            = matched_of s st' ++ general_evidence_in table text st'.
Proof.
  induction table as [|entry table IH]; intros s Hwf.
  - cbn [fold_left]. split; [exact Hwf|]. intros st'. split; [|cbn; rewrite app_nil_r; reflexivity].
    destruct Hwf as (_ & _ & Hc). rewrite <- (Hc st') at 1.
    apply Qred_complete. unfold tier_patterns_in. cbn [flat_map]. rewrite count_nothing. ring.
  - cbn [fold_left].
    destruct (scan_general_step text s entry Hwf) as (Hwf1 & H1).
    destruct (IH _ Hwf1) as (Hwf2 & H2). split; [exact Hwf2|]. intros st'.
    destruct (H1 st') as (Hs1 & Hm1). destruct (H2 st') as (Hs2 & Hm2).
    rewrite Hs2, Hm2, Hs1, Hm1. split.
    + apply Qred_complete. rewrite Qred_correct.
      unfold tier_patterns_in. cbn [flat_map]. rewrite !count_app. ring.
    + unfold general_evidence_in. cbn [flat_map]. rewrite <- app_assoc. reflexivity.
Qed.

Lemma scan_app_group_step (text app_name : string) (s : State) (group : string * list string) :
  well_formed s ->
  well_formed (scan_app_group text app_name s group)
  /\ forall st',
       score_of (scan_app_group text app_name s group) st'
       = Qred (score_of s st' + (3 # 2) * count text (for_type st' (fst group) (snd group)))
       /\ matched_of (scan_app_group text app_name s group) st'
          = matched_of s st'
            ++ for_type st' (fst group)
                 (map (String.append ("app:" +:+ app_name +:+ ":")) (hits text (snd group))).
Proof.
  intros Hwf. destruct group as [key patterns]. cbn [fst snd].
  unfold scan_app_group.
  destruct (ScreenType_of_value key) as [st|] eqn:Ekey.
  - destruct (try_patterns_fold text st (3 # 2) ("app:" +:+ app_name +:+ ":") patterns s Hwf)
      as (Hwf1 & H1).
    split; [exact Hwf1|]. intros st'. destruct (H1 st') as (Hs1 & Hm1).
    rewrite Hs1, Hm1, for_type_count. unfold for_type. rewrite Ekey.
    split; [|reflexivity]. apply Qred_complete.
    destruct (ScreenType_eqb st st'); ring.
  - split; [exact Hwf|]. intros st'. rewrite for_type_count. unfold for_type. rewrite Ekey.
    split; [|rewrite app_nil_r; reflexivity].
    destruct Hwf as (_ & _ & Hc). rewrite <- (Hc st') at 1.
    apply Qred_complete. ring.
Qed.

Lemma scan_app_groups_fold (text app_name : string) (groups : list (string * list string)) :
  forall s, well_formed s ->
    well_formed (fold_left (scan_app_group text app_name) groups s)
    /\ forall st',
         score_of (fold_left (scan_app_group text app_name) groups s) st'
         = Qred (score_of s st'
                 + (3 # 2) * count text
                     (flat_map (fun group => for_type st' (fst group) (snd group)) groups))
         /\ matched_of (fold_left (scan_app_group text app_name) groups s) st'
            = matched_of s st'
              ++ flat_map (fun group =>
                             for_type st' (fst group)
                               (map (String.append ("app:" +:+ app_name +:+ ":"))
                                    (hits text (snd group)))) groups.
Proof.
  induction groups as [|group groups IH]; intros s Hwf.
  - cbn [fold_left flat_map]. split; [exact Hwf|]. intros st'.
    split; [|rewrite app_nil_r; reflexivity].
    destruct Hwf as (_ & _ & Hc). rewrite <- (Hc st') at 1.
    apply Qred_complete. rewrite count_nothing. ring.
  - cbn [fold_left flat_map].
    destruct (scan_app_group_step text app_name s group Hwf) as (Hwf1 & H1).
    destruct (IH _ Hwf1) as (Hwf2 & H2). split; [exact Hwf2|]. intros st'.
    destruct (H1 st') as (Hs1 & Hm1). destruct (H2 st') as (Hs2 & Hm2).
    rewrite Hs2, Hm2, Hs1, Hm1. split.
    + apply Qred_complete. rewrite Qred_correct, count_app. ring.
    + rewrite <- app_assoc. reflexivity.
Qed.

Lemma scan_app_step (text app_lower : string) (s : State)
    (entry : string * list (string * list string)) :
  well_formed s ->
  well_formed (scan_app text app_lower s entry)
  /\ forall st',
       score_of (scan_app text app_lower s entry) st'
       = Qred (score_of s st' + (3 # 2) * count text (app_patterns_in [entry] app_lower st'))
       /\ matched_of (scan_app text app_lower s entry) st'
          = matched_of s st' ++ app_evidence_in [entry] text app_lower st'.
Proof.
  intros Hwf. destruct entry as [app_name groups].
  unfold scan_app, app_patterns_in, app_evidence_in. cbn [flat_map fst snd].
  destruct (contains app_name app_lower).
  - destruct (scan_app_groups_fold text app_name groups s Hwf) as (Hwf1 & H1).
    split; [exact Hwf1|]. intros st'. destruct (H1 st') as (Hs1 & Hm1).
    rewrite Hs1, Hm1, !app_nil_r. split; reflexivity.
  - split; [exact Hwf|]. intros st'. cbn [app]. split; [|rewrite app_nil_r; reflexivity].
    destruct Hwf as (_ & _ & Hc). rewrite <- (Hc st') at 1.
    apply Qred_complete. rewrite count_nothing. ring.
Qed.

Lemma app_patterns_in_cons (entry : string * list (string * list string))
    (table : list (string * list (string * list string))) (app_lower : string)
    (st : ScreenType) :
  app_patterns_in (entry :: table) app_lower st
  = app_patterns_in [entry] app_lower st ++ app_patterns_in table app_lower st.
Proof. unfold app_patterns_in. cbn [flat_map]. rewrite app_nil_r. reflexivity. Qed.

Lemma app_evidence_in_cons (entry : string * list (string * list string))
    (table : list (string * list (string * list string))) (text app_lower : string)
    (st : ScreenType) :
  app_evidence_in (entry :: table) text app_lower st
  = app_evidence_in [entry] text app_lower st ++ app_evidence_in table text app_lower st.
Proof. unfold app_evidence_in. cbn [flat_map]. rewrite app_nil_r. reflexivity. Qed.

Lemma scan_app_fold (text app_lower : string)
    (table : list (string * list (string * list string))) :
  forall s, well_formed s ->
    well_formed (fold_left (scan_app text app_lower) table s)
    /\ forall st',
         score_of (fold_left (scan_app text app_lower) table s) st'
         = Qred (score_of s st' + (3 # 2) * count text (app_patterns_in table app_lower st'))
         /\ matched_of (fold_left (scan_app text app_lower) table s) st'
            = matched_of s st' ++ app_evidence_in table text app_lower st'.
Proof.
  induction table as [|entry table IH]; intros s Hwf.
  - cbn [fold_left]. split; [exact Hwf|]. intros st'.
    split; [|cbn; rewrite app_nil_r; reflexivity].
    destruct Hwf as (_ & _ & Hc). rewrite <- (Hc st') at 1.
    apply Qred_complete. change (app_patterns_in [] app_lower st') with (@nil string).
    rewrite count_nothing. ring.
  - cbn [fold_left].
    destruct (scan_app_step text app_lower s entry Hwf) as (Hwf1 & H1).
    destruct (IH _ Hwf1) as (Hwf2 & H2). split; [exact Hwf2|]. intros st'.
    destruct (H1 st') as (Hs1 & Hm1). destruct (H2 st') as (Hs2 & Hm2).
    rewrite Hs2, Hm2, Hs1, Hm1.
    rewrite (app_patterns_in_cons entry table), (app_evidence_in_cons entry table). split.
    + apply Qred_complete. rewrite Qred_correct, count_app. ring.
    + rewrite <- app_assoc. reflexivity.
Qed.

(** ** The choice of the best screen type *)

(** [max_key] returns the first key of the highest score: either the key it
    starts from, which nothing later exceeds, or a later key that exceeds
    everything before it and that nothing after it exceeds. *)
Lemma max_key_first (f : ScreenType -> Q) (keys : list ScreenType) :
  forall best,
    (max_key best (f best) (map (fun k => (k, f k)) keys) = best
     /\ forall k, In k keys -> f k <= f best)
    \/ exists before after,
         keys = before ++ max_key best (f best) (map (fun k => (k, f k)) keys) :: after
         /\ f best < f (max_key best (f best) (map (fun k => (k, f k)) keys))
         /\ (forall k, In k before ->
               f k < f (max_key best (f best) (map (fun k => (k, f k)) keys)))
         /\ (forall k, In k after ->
               f k <= f (max_key best (f best) (map (fun k => (k, f k)) keys))).
Proof.
  induction keys as [|key keys IH]; intros best.
  - left. split; [reflexivity|]. intros k [].
  - cbn [map max_key]. destruct (Qle_bool (f key) (f best)) eqn:E.
    + apply Qle_bool_iff in E.
      destruct (IH best) as [(Hr & Hall)|(before & after & Hk & Hlt & Hb & Ha)].
      * left. split; [exact Hr|]. intros k [<-|Hk]; [exact E|apply Hall; exact Hk].
      * right. exists (key :: before), after. repeat split; try assumption.
        -- cbn. f_equal. exact Hk.
        -- intros k [<-|Hin]; [|apply Hb; exact Hin].
           eapply Qle_lt_trans; [exact E|exact Hlt].
    + assert (Hlt0 : f best < f key).
      { apply Qnot_le_lt. intros H. apply Qle_bool_iff in H. congruence. }
      right.
      destruct (IH key) as [(Hr & Hall)|(before & after & Hk & Hlt & Hb & Ha)].
      * rewrite Hr. exists [], keys. repeat split; try assumption. intros k [].
      * exists (key :: before), after. repeat split; try assumption.
        -- cbn. f_equal. exact Hk.
        -- eapply Qlt_trans; [exact Hlt0|exact Hlt].
        -- intros k [<-|Hin]; [exact Hlt|apply Hb; exact Hin].
Qed.

Lemma best_key_first (f : ScreenType -> Q) :
  exists earlier later,
    all_screen_types
    = earlier ++ best_key (map (fun k => (k, f k)) all_screen_types) :: later
    /\ (forall st, In st earlier ->
          f st < f (best_key (map (fun k => (k, f k)) all_screen_types)))
    /\ (forall st, In st later ->
          f st <= f (best_key (map (fun k => (k, f k)) all_screen_types))).
Proof.
  change (best_key (map (fun k => (k, f k)) all_screen_types))
    with (max_key DM (f DM)
            (map (fun k => (k, f k))
                 [FEED; REELS; NOTIFICATIONS; PROFILE; SEARCH; SETTINGS; UNKNOWN])).
  unfold all_screen_types.
  destruct (max_key_first f [FEED; REELS; NOTIFICATIONS; PROFILE; SEARCH; SETTINGS; UNKNOWN] DM)
    as [(Hr & Hall)|(before & after & Hk & Hlt & Hb & Ha)].
  - rewrite Hr. exists [], [FEED; REELS; NOTIFICATIONS; PROFILE; SEARCH; SETTINGS; UNKNOWN].
    repeat split; [|exact Hall]. intros st [].
  - exists (DM :: before), after. repeat split; try assumption.
    + cbn. f_equal. exact Hk.
    + intros st [<-|Hin]; [exact Hlt|apply Hb; exact Hin].
Qed.

Lemma sum_values_table (f : ScreenType -> Q) :
  sum_values (map (fun k => (k, f k)) all_screen_types)
  = Qred (fold_right (fun st acc => f st + acc) 0 all_screen_types).
Proof. unfold sum_values. apply Qred_complete. cbn. ring. Qed.

Lemma spec_score_nonneg (text_lower app_lower : string) (st : ScreenType) :
  0 <= spec_score text_lower app_lower st.
Proof.
  unfold spec_score.
  pose proof (count_nonneg text_lower (tier_patterns_in PATTERNS "strong" st)).
  pose proof (count_nonneg text_lower (tier_patterns_in PATTERNS "medium" st)).
  pose proof (count_nonneg text_lower (app_patterns_in APP_SPECIFIC app_lower st)).
  lra.
Qed.

(** The total is at least the score of any one screen type. *)
Lemma spec_total_bound (text_lower app_lower : string) (st : ScreenType) :
  spec_score text_lower app_lower st <= spec_total text_lower app_lower.
Proof.
  unfold spec_total. rewrite Qred_correct. cbn [fold_right all_screen_types].
  pose proof (spec_score_nonneg text_lower app_lower DM).
  pose proof (spec_score_nonneg text_lower app_lower FEED).
  pose proof (spec_score_nonneg text_lower app_lower REELS).
  pose proof (spec_score_nonneg text_lower app_lower NOTIFICATIONS).
  pose proof (spec_score_nonneg text_lower app_lower PROFILE).
  pose proof (spec_score_nonneg text_lower app_lower SEARCH).
  pose proof (spec_score_nonneg text_lower app_lower SETTINGS).
  pose proof (spec_score_nonneg text_lower app_lower UNKNOWN).
  destruct st; lra.
Qed.

(** ** The classifier *)

(** The scores and the evidence that the two loops leave behind are those of
    the specification. *)
Lemma classify_text_state (text_lower app_lower : string) :
  let s := fold_left (scan_app text_lower app_lower) APP_SPECIFIC
             (fold_left (scan_general text_lower) PATTERNS
                        (mkState (dict_init 0) (dict_init []))) in
  scores s = map (fun st => (st, Qred (spec_score text_lower app_lower st))) all_screen_types
  /\ forall st, dict_get [] (matched s) st = spec_evidence text_lower app_lower st.
Proof.
  cbv zeta.
  set (s0 := mkState (dict_init 0) (dict_init [])).
  assert (Hwf0 : well_formed s0).
  { repeat split; try reflexivity. intros st. destruct st; reflexivity. }
  assert (Hs0 : forall st, score_of s0 st = 0) by (intros st; destruct st; reflexivity).
  assert (Hm0 : forall st, matched_of s0 st = []) by (intros st; destruct st; reflexivity).
  destruct (scan_general_fold text_lower PATTERNS s0 Hwf0) as (Hwf1 & H1).
  destruct (scan_app_fold text_lower app_lower APP_SPECIFIC _ Hwf1) as (Hwf2 & H2).
  split.
  - rewrite (well_keyed_table 0 (scores _)) by apply Hwf2.
    apply map_ext. intros st. f_equal.
    destruct (H2 st) as (Hs2 & _). destruct (H1 st) as (Hs1 & _).
    unfold score_of in Hs2 at 1. rewrite Hs2, Hs1, Hs0.
    apply Qred_complete. rewrite Qred_correct. unfold spec_score. ring.
  - intros st. destruct (H2 st) as (_ & Hm2). destruct (H1 st) as (_ & Hm1).
    unfold matched_of in Hm2 at 1. rewrite Hm2, Hm1, Hm0. reflexivity.
Qed.

(** C7.  The score of a screen type is 2 for each strong pattern found, one
    half for each medium pattern found and one and a half for each pattern
    found among those of the apps that the hint names.  The classifier picks
    the first screen type, in the order of declaration, of the highest score.
    When that score is below 1 it answers unknown, confidence 0, no evidence;
    otherwise it answers that type, the quotient of its score by the total of
    all scores, capped at 1, and the evidence recorded for it. *)
Theorem classify_text_scoring (text app_hint : string) :
  let score := spec_score (lower text) (lower app_hint) in
  exists earlier best later,
    all_screen_types = earlier ++ best :: later
    /\ (forall st, In st earlier -> score st < score best)
    /\ (forall st, In st later -> score st <= score best)
    /\ (score best < 1 -> classify_text text app_hint = (UNKNOWN, 0%float, []))
    /\ (1 <= score best ->
        classify_text text app_hint
        = (best,
           float_min (float_quotient (Qred (score best))
                                     (spec_total (lower text) (lower app_hint))) 1,
           spec_evidence (lower text) (lower app_hint) best)).
Proof.
  cbv zeta. unfold classify_text.
  destruct (classify_text_state (lower text) (lower app_hint)) as (Hscores & Hmatched).
  rewrite Hscores, Hmatched. clear Hscores Hmatched.
  set (f := fun st => Qred (spec_score (lower text) (lower app_hint) st)).
  change (map (fun st => (st, Qred (spec_score (lower text) (lower app_hint) st)))
              all_screen_types)
    with (map (fun k => (k, f k)) all_screen_types).
  destruct (best_key_first f) as (earlier & later & Hsplit & Hearlier & Hlater).
  set (best := best_key (map (fun k => (k, f k)) all_screen_types)) in *.
  assert (Hget : dict_get 0 (map (fun k => (k, f k)) all_screen_types) best = f best)
    by (destruct best; reflexivity).
  rewrite Hget.
  assert (Htotal : sum_values (map (fun k => (k, f k)) all_screen_types)
                   = spec_total (lower text) (lower app_hint)).
  { rewrite sum_values_table. unfold spec_total. apply Qred_complete.
    unfold f. cbn [fold_right all_screen_types]. rewrite !Qred_correct. reflexivity. }
  rewrite Htotal.
  exists earlier, best, later. split; [exact Hsplit|]. split; [|split; [|split]].
  - intros st Hin. apply Qred_lt. apply Hearlier. exact Hin.
  - intros st Hin. apply Qred_le. apply Hlater. exact Hin.
  - intros Hlow. destruct (Qlt_le_dec (f best) 1) as [_|Hge]; [reflexivity|].
    exfalso. unfold f in Hge. rewrite Qred_correct in Hge. lra.
  - intros Hhigh. destruct (Qlt_le_dec (f best) 1) as [Hlt|_].
    { exfalso. unfold f in Hlt. rewrite Qred_correct in Hlt. lra. }
    destruct (Qlt_le_dec 0 (spec_total (lower text) (lower app_hint))) as [_|Hzero];
      [reflexivity|].
    exfalso. pose proof (spec_total_bound (lower text) (lower app_hint) best). lra.
Qed.

(** A text in which no pattern is found is of unknown type. *)
Lemma classify_text_no_match :
  classify_text "lorem ipsum dolor" "" = (UNKNOWN, 0%float, []).
Proof. vm_compute. reflexivity. Qed.

(** The feed of the specification's example. *)
Lemma classify_text_feed :
  classify_text "For You - What's happening - Trending now" ""
  = (FEED, 1%float,
     ["strong:for\s*you"; "strong:trending\s*(now|topics?)?";
      "strong:what.?s\s*happening"]%string)
  /\ should_block FEED = true.
Proof. split; vm_compute; reflexivity. Qed.

(** On equal scores the type declared first wins. *)
Lemma classify_text_tie :
  classify_text "new message reels" "" = (DM, 0.5%float, ["strong:new\s*message"%string]).
Proof. vm_compute. reflexivity. Qed.

End TextClassifier.

(* ===================================================================== *)
(** * Properties of the rule file as written                             *)
(* ===================================================================== *)

Section RuleFileWritten.
Import Py Models Persistence PersistenceSpec.

Lemma drop_falsy_fixed (v : json) : drop_falsy v = v <-> kept v.
Proof.
  unfold drop_falsy, kept. destruct (truthy v) eqn:E.
  - split; auto.
  - split.
    + intros H. left. symmetry. exact H.
    + intros [H | H]; [ symmetry; exact H | discriminate ].
Qed.

Lemma ConditionType_value_round_trip (t : ConditionType) :
  ConditionType_of_value (JStr (ConditionType_value t)) = Ok t.
Proof. destruct t; reflexivity. Qed.

Lemma Condition_from_to_dict (c : RawCondition) :
  Condition_from_dict (Condition_to_dict c) = Ok (normal_condition c).
Proof.
  destruct c as [t s tm wk loc].
  unfold Condition_to_dict, normal_condition, member_if_truthy, drop_falsy.
  cbn [raw_type raw_steps_target raw_time_target raw_workout_minutes raw_location].
  destruct t, (truthy s), (truthy tm), (truthy wk), loc as [[n la lo ra] |];
    reflexivity.
Qed.

(** X1.  Writing a condition with [to_dict] and reading it back with
    [from_dict] always succeeds and gives the condition in which every
    falsy target (0, 0.0, the empty string, ...) has become [None]; so the
    condition comes back unchanged exactly when each of its three targets
    is [None] or truthy. *)
Theorem Condition_round_trip (c : RawCondition) :
  Condition_from_dict (Condition_to_dict c) = Ok (normal_condition c) /\
  (normal_condition c = c <->
   kept (raw_steps_target c) /\ kept (raw_time_target c) /\
   kept (raw_workout_minutes c)).
Proof.
  split; [ apply Condition_from_to_dict | ].
  destruct c as [t s tm wk loc]. unfold normal_condition.
  cbn [raw_type raw_steps_target raw_time_target raw_workout_minutes raw_location].
  rewrite <- !drop_falsy_fixed. split.
  - intros H. injection H as H1 H2 H3. auto.
  - intros (H1 & H2 & H3). rewrite H1, H2, H3. reflexivity.
Qed.

Lemma Rule_from_to_dict (r : RawRule) (k : Clock) :
  Rule_from_dict (Rule_to_dict r) k = (Ok (normal_rule r), snd (now k)).
Proof.
  destruct r as [i items c en created].
  unfold Rule_from_dict, Rule_to_dict, mbind, lift, ret, datetime_now, normal_rule.
  cbn [raw_id raw_blocked_items raw_condition raw_enabled raw_created_at
       py_getitem py_get lookup_member required String.eqb Ascii.eqb Bool.eqb now snd].
  rewrite Condition_from_to_dict. reflexivity.
Qed.

(** X2.  Reading back a rule written by [to_dict] always succeeds, takes one
    reading of the clock (for the unused default of [created_at]) and gives
    the same id, items, enabled flag and creation stamp, with the condition
    as its own round trip leaves it. *)
Theorem Rule_round_trip (r : RawRule) (k : Clock) :
  Rule_from_dict (Rule_to_dict r) k = (Ok (normal_rule r), later 1 k) /\
  raw_id (normal_rule r) = raw_id r /\
  raw_blocked_items (normal_rule r) = raw_blocked_items r /\
  raw_enabled (normal_rule r) = raw_enabled r /\
  raw_created_at (normal_rule r) = raw_created_at r.
Proof.
  split; [ apply Rule_from_to_dict | repeat split ].
Qed.

Lemma map_M_written (l : list RawRule) (k : Clock) :
  map_M Rule_from_dict (map Rule_to_dict l) k
  = (Ok (map normal_rule l), later (length l) k).
Proof.
  revert k. induction l as [| r l IH]; intros k; [ reflexivity | ].
  cbn [map map_M length later]. unfold mbind at 1.
  rewrite Rule_from_to_dict. unfold mbind at 1. rewrite IH. reflexivity.
Qed.

Lemma load_saved (l : list RawRule) (self : RuleStore) (k : Clock) :
  load (Document (saved_document l)) self k
  = (Ok (mkRuleStore (filepath self) (map normal_rule l)), later (length l) k).
Proof.
  unfold load, saved_document, mbind, lift, ret.
  cbn [py_get lookup_member String.eqb Ascii.eqb Bool.eqb py_iter].
  rewrite map_M_written. reflexivity.
Qed.

(** X3.  Saving a store to a writable file and loading that file, into any
    store, succeeds: the loaded rules are the saved ones in the same
    order, each as its round trip leaves it, and one clock reading per rule
    has been taken. *)
Theorem save_load_round_trip (saved self : RuleStore) (k : Clock) :
  exists f,
    save true saved = Ok f /\
    load f self k
    = (Ok (mkRuleStore (filepath self) (map normal_rule (rules saved))),
       later (length (rules saved)) k).
Proof.
  eexists. split; [ reflexivity | apply load_saved ].
Qed.

Lemma init_saved (l : list RawRule) (path : string) (k : Clock) :
  RuleStore_init path (Document (saved_document l)) k
  = (Ok (mkRuleStore path (map normal_rule l)), later (length l) k).
Proof. unfold RuleStore_init. rewrite load_saved. reflexivity. Qed.

(** X4.  [RuleStore.add] appends the rule in memory before it saves.  On a
    writable file it returns, and a store opened on the file afterwards
    holds the old rules followed by the new one (as their round trips
    leave them); on a file that cannot be written it raises
    PermissionError and leaves the file as it was, while the rule is in
    the store all the same. *)
Theorem add_outcome (writable : bool) (rule : RawRule) (self : RuleStore)
    (file : File) (path : string) (k : Clock) :
  let '(outcome, self', file') := add writable rule self file in
  rules self' = rules self ++ [rule] /\
  filepath self' = filepath self /\
  (writable = true ->
   outcome = Ok tt /\
   RuleStore_init path file' k
   = (Ok (mkRuleStore path (map normal_rule (rules self ++ [rule]))),
      later (S (length (rules self))) k)) /\
  (writable = false -> outcome = Raise PermissionError /\ file' = file).
Proof.
  unfold add, saving, save. destruct writable; cbn [rules filepath].
  - repeat split; try discriminate.
    rewrite init_saved. rewrite length_app, Nat.add_comm. reflexivity.
  - repeat split; discriminate.
Qed.

Lemma id_differs_spec (rule_id : string) (r : RawRule) :
  id_differs rule_id r = true <-> raw_id r <> JStr rule_id.
Proof.
  unfold id_differs. destruct (raw_id r) as [| b | n | x | s | a | m];
    try (split; [ discriminate | reflexivity ]).
  destruct (String.eqb_spec s rule_id) as [-> | Hne]; cbn [negb].
  - split; [ discriminate | intros H; contradiction H; reflexivity ].
  - split; [ intros _ H; injection H as H'; contradiction | reflexivity ].
Qed.

Lemma filter_filter_same {A : Type} (f : A -> bool) (l : list A) :
  List.filter f (List.filter f l) = List.filter f l.
Proof.
  induction l as [| a l IH]; [ reflexivity | ].
  cbn [List.filter]. destruct (f a) eqn:E; [ | exact IH ].
  cbn [List.filter]. rewrite E, IH. reflexivity.
Qed.

Lemma In_filter_id_differs (rule_id : string) (l : list RawRule) (r : RawRule) :
  In r (List.filter (id_differs rule_id) l) <-> In r l /\ raw_id r <> JStr rule_id.
Proof. rewrite filter_In, id_differs_spec. reflexivity. Qed.

(** X5.  [RuleStore.remove] with a string id keeps exactly the rules whose
    id is not that string (so every rule bearing the id goes at once, and a
    rule whose id is not a string can never be removed); removing the same
    id again changes nothing more.  The file is rewritten even when no rule
    bore the id: on a writable file a store opened afterwards holds the
    rules kept, on a file that cannot be written the call raises
    PermissionError, the file is untouched and the rules are gone from
    memory all the same. *)
Theorem remove_outcome (writable : bool) (rule_id : string) (self : RuleStore)
    (file : File) (path : string) (k : Clock) :
  let '(outcome, self', file') := remove writable rule_id self file in
  (forall r, In r (rules self') <-> In r (rules self) /\ raw_id r <> JStr rule_id) /\
  (forall file2, snd (fst (remove writable rule_id self' file2)) = self') /\
  (writable = true ->
   outcome = Ok tt /\
   RuleStore_init path file' k
   = (Ok (mkRuleStore path (map normal_rule (rules self'))),
      later (length (rules self')) k)) /\
  (writable = false -> outcome = Raise PermissionError /\ file' = file).
Proof.
  unfold remove, saving, save. destruct writable; cbn [rules filepath fst snd].
  - split; [ apply In_filter_id_differs | ].
    split; [ intros file2; rewrite filter_filter_same; reflexivity | ].
    split; [ intros _ | discriminate ].
    split; [ reflexivity | apply init_saved ].
  - split; [ apply In_filter_id_differs | ].
    split; [ intros file2; rewrite filter_filter_same; reflexivity | ].
    split; [ discriminate | intros _; split; reflexivity ].
Qed.

(** X6.  [Rule.describe] raises in two cases only: TypeError for a steps
    condition without a target and AttributeError for a location condition
    without a location; in every other case it returns a string that
    starts with "NO " (a time condition without a target is described as
    "UNTIL None"). *)
Theorem Rule_describe_raises (self : Rule) :
  (forall e, Rule_describe self = Raise e <->
     (type (condition self) = STEPS /\ steps_target (condition self) = None /\
      e = TypeError) \/
     (type (condition self) = LOCATION /\ location (condition self) = None /\
      e = AttributeError)) /\
  (forall s, Rule_describe self = Ok s -> startswith "NO " s = true).
Proof.
  destruct self as [i items [t s tm wk loc] en created].
  unfold Rule_describe, Condition_describe.
  cbn [condition blocked_items type steps_target time_target workout_minutes location].
  split.
  - intros e.
    destruct t, s as [n |], loc as [l |]; cbn [required bind];
      (split;
       [ intros H; try discriminate H; injection H as <-; tauto
       | intros [(H1 & H2 & H3) | (H1 & H2 & H3)];
         try discriminate H1; try discriminate H2; subst e; reflexivity ]).
  - intros s0.
    destruct t, s as [n |], loc as [l |]; cbn [required bind];
      intros H; try discriminate H; injection H as <-; reflexivity.
Qed.

End RuleFileWritten.

(* ===================================================================== *)
(** * Properties of the hosts file over several rewritings               *)
(* ===================================================================== *)

Section HostsRewriting.
Import Py Blocker BlockerSpec HostsSpec Scenarios.

Lemma has_char_app (c : ascii) (a b : string) :
  has_char c (a +:+ b) = has_char c a || has_char c b.
Proof.
  induction a as [| d a IH]; [ reflexivity | ].
  rewrite append_cons. cbn [has_char]. destruct (Ascii.eqb d c); [ reflexivity | exact IH ].
Qed.



Lemma startswith_append (p rest : string) : startswith p (p +:+ rest) = true.
Proof.
  induction p as [| x p IH]; [ reflexivity | ].
  rewrite append_cons. cbn [startswith]. rewrite Ascii.eqb_refl, IH. reflexivity.
Qed.








Lemma lower_app (a b : string) : lower (a +:+ b) = lower a +:+ lower b.
Proof.
  induction a as [| c a IH]; [ reflexivity | ].
  rewrite !append_cons. cbn [lower]. rewrite append_cons, IH. reflexivity.
Qed.

Lemma dict_get_In {A : Type} (key : string) (d : list (string * A)) (v : A) :
  dict_get key d = Some v -> In (key, v) d.
Proof.
  induction d as [| [k x] d IH]; [ discriminate | ].
  cbn [dict_get]. destruct (String.eqb_spec k key) as [-> | Hne].
  - intros [= ->]. left. reflexivity.
  - intros H. right. apply IH. exact H.
Qed.

Lemma SITE_DOMAINS_ok : forallb entry_ok SITE_DOMAINS = true.
Proof. vm_compute. reflexivity. Qed.

Lemma domain_ok_spec (d : string) :
  domain_ok d = true -> lower d = d /\ contains "." d = true.
Proof.
  unfold domain_ok. destruct (String.eqb_spec (lower d) d) as [H | H];
    [ intros Hc; split; assumption | discriminate ].
Qed.

Lemma contains_dot (s : string) : contains "." s = has_char "." s.
Proof.
  induction s as [| c s IH]; [ reflexivity | ].
  cbn [contains startswith has_char]. rewrite IH, Ascii.eqb_sym.
  destruct (Ascii.eqb c "."); reflexivity.
Qed.

Lemma lower_char_dot (c : ascii) : Ascii.eqb (lower_char c) "." = Ascii.eqb c ".".
Proof. destruct c as [[] [] [] [] [] [] [] []]; vm_compute; reflexivity. Qed.

Lemma has_dot_lower (s : string) : has_char "." (lower s) = has_char "." s.
Proof.
  induction s as [| c s IH]; [ reflexivity | ].
  cbn [lower has_char]. rewrite lower_char_dot, IH. reflexivity.
Qed.

Lemma get_domains_for_item_ok (item : string) :
  entry_ok (item, _get_domains_for_item item) = true.
Proof.
  unfold _get_domains_for_item.
  destruct (dict_get (lower item) SITE_DOMAINS) as [domains |] eqn:Hd.
  - apply dict_get_In in Hd.
    pose proof SITE_DOMAINS_ok as Hall. rewrite forallb_forall in Hall.
    apply (Hall _ Hd).
  - unfold entry_ok, domain_ok. rewrite contains_dot.
    destruct (has_char "." item) eqn:Hdot; cbn [snd forallb].
    + rewrite lower_idempotent, String.eqb_refl, contains_dot, has_dot_lower, Hdot.
      reflexivity.
    + rewrite lower_app, lower_idempotent. change (lower ".com") with ".com"%string.
      rewrite String.eqb_refl, contains_dot, has_char_app, orb_true_r. reflexivity.
Qed.

Lemma get_domains_for_item_each (item d : string) :
  In d (_get_domains_for_item item) -> lower d = d /\ contains "." d = true.
Proof.
  pose proof (get_domains_for_item_ok item) as Hok. unfold entry_ok in Hok.
  cbn [snd] in Hok. intros Hd. apply domain_ok_spec.
  destruct (_get_domains_for_item item) as [| d0 ds] eqn:E; [ contradiction | ].
  rewrite forallb_forall in Hok. apply Hok. exact Hd.
Qed.

Lemma get_domains_for_item_lower (item : string) :
  _get_domains_for_item (lower item) = _get_domains_for_item item.
Proof.
  unfold _get_domains_for_item.
  rewrite lower_idempotent, !contains_dot, has_dot_lower. reflexivity.
Qed.

(** X7.  Whatever the item, [_get_domains_for_item] gives at least one
    domain, every domain it gives is in lower case and has a dot, and the
    letter case of the item makes no difference to the result. *)
Theorem get_domains_for_item_shape (item : string) :
  _get_domains_for_item item <> [] /\
  (forall d, In d (_get_domains_for_item item) ->
             lower d = d /\ contains "." d = true) /\
  _get_domains_for_item (lower item) = _get_domains_for_item item.
Proof.
  split; [ | split ].
  - pose proof (get_domains_for_item_ok item) as Hok. unfold entry_ok in Hok.
    cbn [snd] in Hok.
    destruct (_get_domains_for_item item); [ discriminate | discriminate ].
  - apply get_domains_for_item_each.
  - apply get_domains_for_item_lower.
Qed.

(** ** White space at the two ends *)

Lemma all_space_lstrip (ws : string) : all_space ws = true -> lstrip ws = EmptyString.
Proof.
  induction ws as [| c ws IH]; [ reflexivity | ].
  cbn [all_space lstrip]. intros H. apply andb_prop in H. destruct H as [Hc Hws].
  rewrite Hc. apply IH. exact Hws.
Qed.

Lemma all_space_rstrip (ws : string) : all_space ws = true -> rstrip ws = EmptyString.
Proof.
  induction ws as [| c ws IH]; [ reflexivity | ].
  cbn [all_space rstrip]. intros H. apply andb_prop in H. destruct H as [Hc Hws].
  rewrite (IH Hws), Hc. reflexivity.
Qed.

Lemma rstrip_app_space (t ws : string) :
  all_space ws = true -> rstrip (t +:+ ws) = rstrip t.
Proof.
  intros Hws. induction t as [| c t IH].
  - rewrite append_nil. apply all_space_rstrip. exact Hws.
  - rewrite append_cons. cbn [rstrip]. rewrite IH. reflexivity.
Qed.

Lemma rstrip_idempotent (s : string) : rstrip (rstrip s) = rstrip s.
Proof.
  destruct (rstrip_split s) as (r & Hr & Hs).
  rewrite Hs at 2. rewrite (rstrip_app_space _ _ Hr). reflexivity.
Qed.

(** What is left by [strip] is empty or starts with a character that is not
    white space. *)
Lemma strip_head (s : string) :
  strip s = EmptyString \/ exists c t, strip s = String c t /\ is_space c = false.
Proof.
  unfold strip. induction s as [| c s IH]; [ left; reflexivity | ].
  cbn [lstrip]. destruct (is_space c) eqn:Hc; [ exact IH | ].
  right. cbn [rstrip]. destruct (rstrip s) as [| d r].
  - rewrite Hc. eauto.
  - eauto.
Qed.

Lemma strip_app_space (s ws : string) :
  all_space ws = true -> strip (strip s +:+ ws) = strip s.
Proof.
  intros Hws. destruct (strip_head s) as [E | (c & t & E & Hc)].
  - rewrite E, append_nil. unfold strip.
    rewrite (all_space_lstrip _ Hws). reflexivity.
  - unfold strip at 1. rewrite E, append_cons. cbn [lstrip]. rewrite Hc.
    rewrite <- append_cons, <- E, (rstrip_app_space _ _ Hws).
    unfold strip. apply rstrip_idempotent.
Qed.

Lemma strip_idempotent (s : string) : strip (strip s) = strip s.
Proof.
  rewrite <- (append_empty_r (strip s)) at 1. apply strip_app_space. reflexivity.
Qed.


(** ** The region as written *)







(** ** The text written, read back *)




















End HostsRewriting.

(* ===================================================================== *)
(** * Properties of the window decision and of the monitoring loop       *)
(* ===================================================================== *)

Section WindowDecision.
Import Py WindowMonitor WindowMonitorSpec WindowBlocking WindowBlockingSpec.

Lemma check_block_fields (allowed_apps blocked_apps : list string) (window : WindowInfo) :
  let d := check_block allowed_apps blocked_apps window in
  (app_name d, screen_type d) = detect_screen_type allowed_apps blocked_apps window /\
  should_block d = blocks (screen_type d).
Proof.
  cbv zeta. unfold check_block.
  destruct (detect_screen_type allowed_apps blocked_apps window) as [n t].
  destruct t; split; reflexivity.
Qed.

Lemma detect_known_app_blocks (window : WindowInfo) (apps : list (string * AppPatterns)) :
  let t := snd (detect_known_app apps (lower (wm_class window)) (title window)) in
  t <> DM_LIST /\ t <> FEED /\
  blocks t = match List.find (app_matches window) apps with
             | Some (_, patterns) =>
                 negb (existsb (title_matches (title window)) (dm_patterns patterns))
             | None => false
             end.
Proof.
  cbv zeta. induction apps as [| [n p] apps IH].
  - repeat split; discriminate.
  - cbn [detect_known_app List.find].
    change (existsb (fun wc => contains (lower wc) (lower (wm_class window)))
                    (wm_class_names p))
      with (app_matches window (n, p)).
    destruct (app_matches window (n, p)); cbn [negb]; [ | exact IH ].
    destruct (existsb (title_matches (title window)) (dm_patterns p));
      [ repeat split; discriminate | ].
    destruct (existsb (title_matches (title window)) (server_patterns p));
      repeat split; discriminate.
Qed.

Lemma detect_screen_type_category (allowed_apps blocked_apps : list string)
    (window : WindowInfo) :
  snd (detect_screen_type allowed_apps blocked_apps window)
  = if existsb (names_class window) allowed_apps then ALLOWED
    else if existsb (names_class window) blocked_apps then FEED
    else snd (detect_known_app APP_PATTERNS (lower (wm_class window)) (title window)).
Proof.
  unfold detect_screen_type. fold (names_class window).
  destruct (List.find (names_class window) allowed_apps) eqn:Fa.
  - apply find_some in Fa.
    replace (existsb (names_class window) allowed_apps) with true; [ reflexivity | ].
    symmetry. apply existsb_exists. eauto.
  - apply find_none_existsb in Fa. rewrite Fa.
    destruct (List.find (names_class window) blocked_apps) eqn:Fb.
    + apply find_some in Fb.
      replace (existsb (names_class window) blocked_apps) with true; [ reflexivity | ].
      symmetry. apply existsb_exists. eauto.
    + apply find_none_existsb in Fb. rewrite Fb. reflexivity.
Qed.

(** X10.  Whether [check_block] blocks a window is settled by the window
    class and the DM patterns alone, in whatever order the sets of app
    names are met: a class naming an always-allowed app is never blocked
    (even if it names an always-blocked app too); else a class naming an
    always-blocked app is always blocked; else, for the first app
    definition that the class matches, the window is blocked exactly when
    no DM pattern matches the title, so the server patterns never change
    the verdict; a class that nothing matches is not blocked.  The category
    [DM_LIST] is never reported. *)
Theorem check_block_by_class (allowed_apps blocked_apps : list string)
    (window : WindowInfo) :
  let d := check_block allowed_apps blocked_apps window in
  should_block d = blocked_by_class allowed_apps blocked_apps window /\
  screen_type d <> DM_LIST /\
  (should_block d = false <-> screen_type d = ALLOWED \/ screen_type d = DM).
Proof.
  cbv zeta.
  destruct (check_block_fields allowed_apps blocked_apps window) as [Hd Hb].
  cbv zeta in Hd, Hb.
  assert (Ht : screen_type (check_block allowed_apps blocked_apps window)
               = snd (detect_screen_type allowed_apps blocked_apps window))
    by (rewrite <- Hd; reflexivity).
  rewrite Hb, Ht, detect_screen_type_category. unfold blocked_by_class, known_app.
  destruct (detect_known_app_blocks window APP_PATTERNS) as (H1 & H2 & H3).
  cbv zeta in H1, H2, H3.
  destruct (existsb (names_class window) allowed_apps).
  { split; [ reflexivity | split; [ discriminate | ] ]. split; auto. }
  destruct (existsb (names_class window) blocked_apps).
  { split; [ reflexivity | split; [ discriminate | ] ].
    split; [ discriminate | intros [H | H]; discriminate H ]. }
  split; [ exact H3 | split; [ exact H1 | ] ].
  destruct (snd (detect_known_app APP_PATTERNS (lower (wm_class window)) (title window)));
    cbn [blocks]; try (contradiction H1; reflexivity);
    (split;
     [ intros H; first [ discriminate H | left; reflexivity | right; reflexivity ]
     | intros [H | H]; first [ discriminate H | reflexivity ] ]).
Qed.

Lemma detect_screen_type_order (allowed_apps blocked_apps : list string)
    (window : WindowInfo) :
  Permutation allowed_apps ALLOWED_APPS ->
  Permutation blocked_apps BLOCKED_APPS ->
  snd (detect_screen_type allowed_apps blocked_apps window)
  = snd (detect_screen_type ALLOWED_APPS BLOCKED_APPS window).
Proof.
  intros Ha Hb. rewrite !detect_screen_type_category.
  rewrite (existsb_permutation _ _ _ Ha), (existsb_permutation _ _ _ Hb).
  reflexivity.
Qed.

(** X11.  The self-test of the module passes, in whatever order the sets of
    app names are met: each of its ten windows gets the category that the
    test expects. *)
Theorem test_patterns_pass (allowed_apps blocked_apps : list string) :
  Permutation allowed_apps ALLOWED_APPS ->
  Permutation blocked_apps BLOCKED_APPS ->
  test_patterns allowed_apps blocked_apps = true.
Proof.
  intros Ha Hb.
  assert (H : test_patterns allowed_apps blocked_apps
              = test_patterns ALLOWED_APPS BLOCKED_APPS).
  { unfold test_patterns. cbv zeta. f_equal. f_equal. apply filter_ext.
    intros [[c t] expected].
    rewrite (detect_screen_type_order allowed_apps blocked_apps _ Ha Hb).
    reflexivity. }
  rewrite H. vm_compute. reflexivity.
Qed.

Lemma test_patterns_pass_witness : test_patterns ALLOWED_APPS BLOCKED_APPS = true.
Proof.
  apply (test_patterns_pass ALLOWED_APPS BLOCKED_APPS); apply Permutation_refl.
Defined.

(** ** The loop *)

Lemma monitor_rounds_cons (verbose : bool) (allowed_apps blocked_apps : list string)
    (st : LoopState) (window : option WindowInfo) (rest : list (option WindowInfo)) :
  monitor_rounds verbose allowed_apps blocked_apps st (window :: rest)
  = (fst (monitor_rounds verbose allowed_apps blocked_apps
            (fst (monitor_round verbose allowed_apps blocked_apps st window)) rest),
     snd (monitor_round verbose allowed_apps blocked_apps st window)
     ++ snd (monitor_rounds verbose allowed_apps blocked_apps
               (fst (monitor_round verbose allowed_apps blocked_apps st window)) rest)).
Proof.
  cbn [monitor_rounds].
  destruct (monitor_round verbose allowed_apps blocked_apps st window) as [st' out].
  cbn [fst snd].
  destruct (monitor_rounds verbose allowed_apps blocked_apps st' rest) as [st'' out'].
  reflexivity.
Qed.

Lemma monitor_round_remembers (verbose : bool) (allowed_apps blocked_apps : list string)
    (st : LoopState) (window : WindowInfo) :
  coherent st ->
  remembers allowed_apps blocked_apps
    (fst (monitor_round verbose allowed_apps blocked_apps st (Some window))) window.
Proof.
  intros Hst. unfold monitor_round. cbv zeta.
  destruct st as [[id |] [last |]]; cbn [last_blocked_window last_decision].
  - destruct (String.eqb_spec (window_id window) id) as [Heq | Hne];
      [ subst id | ]; cbn [negb orb].
    + destruct (Bool.eqb _ (should_block last)) eqn:E; cbn [negb fst].
      * apply Bool.eqb_prop in E. split; [ reflexivity | ].
        exists last. split; [ reflexivity | symmetry; exact E ].
      * split; [ reflexivity | ]. eexists. split; reflexivity.
    + cbn [fst]. split; [ reflexivity | ]. eexists. split; reflexivity.
  - specialize (Hst eq_refl). discriminate Hst.
  - cbn [orb fst]. split; [ reflexivity | ]. eexists. split; reflexivity.
  - cbn [orb fst]. split; [ reflexivity | ]. eexists. split; reflexivity.
Qed.

Lemma monitor_round_coherent (verbose : bool) (allowed_apps blocked_apps : list string)
    (st : LoopState) (window : option WindowInfo) :
  coherent st ->
  coherent (fst (monitor_round verbose allowed_apps blocked_apps st window)).
Proof.
  intros Hst. destruct window as [window |]; [ | exact Hst ].
  destruct (monitor_round_remembers verbose allowed_apps blocked_apps st window Hst)
    as (_ & last & Hlast & _).
  unfold coherent. rewrite Hlast. discriminate.
Qed.

Lemma monitor_rounds_remember (verbose : bool) (allowed_apps blocked_apps : list string)
    (windows : list (option WindowInfo)) :
  forall st, coherent st ->
    match last_seen windows with
    | Some window =>
        remembers allowed_apps blocked_apps
          (fst (monitor_rounds verbose allowed_apps blocked_apps st windows)) window
    | None => fst (monitor_rounds verbose allowed_apps blocked_apps st windows) = st
    end.
Proof.
  induction windows as [| window rest IH]; intros st Hst; [ reflexivity | ].
  rewrite monitor_rounds_cons. cbn [fst last_seen].
  specialize (IH _ (monitor_round_coherent verbose allowed_apps blocked_apps st window Hst)).
  destruct (last_seen rest) as [w |]; [ exact IH | ].
  rewrite IH. destruct window as [w |]; [ | reflexivity ].
  apply monitor_round_remembers. exact Hst.
Qed.

Lemma monitor_round_silent (verbose : bool) (allowed_apps blocked_apps : list string)
    (st : LoopState) (window : WindowInfo) :
  remembers allowed_apps blocked_apps st window ->
  monitor_round verbose allowed_apps blocked_apps st (Some window) = (st, []).
Proof.
  intros (Hid & last & Hlast & Hsame). unfold monitor_round. cbv zeta.
  rewrite Hid, Hlast, Hsame, String.eqb_refl, Bool.eqb_reflx. reflexivity.
Qed.

(** X12.  After any rounds of the monitoring loop from its start, the
    window id that the loop keeps is the id of the last window that was in
    focus, blocked or not, and the decision that it keeps blocks exactly
    when the decision for that window does; as long as no window was seen
    the loop is in its starting state. *)
Theorem monitor_loop_remembers (verbose : bool) (allowed_apps blocked_apps : list string)
    (windows : list (option WindowInfo)) :
  let st := fst (monitor_rounds verbose allowed_apps blocked_apps loop_start windows) in
  match last_seen windows with
  | Some window =>
      last_blocked_window st = Some (window_id window) /\
      exists last, last_decision st = Some last /\
                   should_block last
                   = should_block (check_block allowed_apps blocked_apps window)
  | None => st = loop_start
  end.
Proof.
  cbv zeta.
  apply (monitor_rounds_remember verbose allowed_apps blocked_apps windows loop_start).
  intros _. reflexivity.
Qed.

Lemma last_seen_snoc (windows : list (option WindowInfo)) (window : WindowInfo) :
  last_seen (windows ++ [Some window]) = Some window.
Proof.
  induction windows as [| w rest IH]; [ reflexivity | ].
  cbn [app last_seen]. rewrite IH. reflexivity.
Qed.

Lemma monitor_rounds_gaps (verbose : bool) (allowed_apps blocked_apps : list string)
    (st : LoopState) (n : nat) (rest : list (option WindowInfo)) :
  monitor_rounds verbose allowed_apps blocked_apps st (repeat None n ++ rest)
  = monitor_rounds verbose allowed_apps blocked_apps st rest.
Proof.
  induction n as [| n IH]; [ reflexivity | ].
  cbn [repeat app]. rewrite monitor_rounds_cons. cbn [monitor_round fst snd app].
  rewrite IH. destruct (monitor_rounds verbose allowed_apps blocked_apps st rest).
  reflexivity.
Qed.

(** X13.  The loop does not repeat itself: when the window seen last is
    seen again, with the same title, after any number of rounds without a
    window, nothing is printed, no notification is shown and the state
    stays as it was. *)
Theorem monitor_loop_silent_on_repeat (verbose : bool)
    (allowed_apps blocked_apps : list string)
    (windows : list (option WindowInfo)) (window : WindowInfo) (n : nat) :
  let st := fst (monitor_rounds verbose allowed_apps blocked_apps loop_start
                   (windows ++ [Some window])) in
  monitor_rounds verbose allowed_apps blocked_apps st (repeat None n ++ [Some window])
  = (st, []).
Proof.
  cbv zeta. rewrite monitor_rounds_gaps, monitor_rounds_cons.
  pose proof (monitor_rounds_remember verbose allowed_apps blocked_apps
                (windows ++ [Some window]) loop_start) as H.
  rewrite last_seen_snoc in H.
  rewrite (monitor_round_silent verbose allowed_apps blocked_apps _ window).
  - reflexivity.
  - apply H. intros _. reflexivity.
Qed.

End WindowDecision.

(* ===================================================================== *)
(** * Properties of the process killer                                   *)
(* ===================================================================== *)

Section ProcessKiller.
Import Py Blocker BlockerSpec BlockerProcesses HostsSpec Scenarios.

Lemma processes_of_item_lower (item : string) :
  processes_of_item (lower item) = processes_of_item item.
Proof. unfold processes_of_item. rewrite lower_idempotent. reflexivity. Qed.

Lemma APP_PROCESSES_no_dot :
  forallb (fun kv => negb (has_char "." (fst kv))) APP_PROCESSES = true.
Proof. vm_compute. reflexivity. Qed.

Lemma processes_of_item_domain (item : string) :
  contains "." item = true -> processes_of_item item = [].
Proof.
  intros Hdot. unfold processes_of_item.
  destruct (dict_get (lower item) APP_PROCESSES) as [names |] eqn:Hd; [ | reflexivity ].
  apply dict_get_In in Hd.
  pose proof APP_PROCESSES_no_dot as Hall. rewrite forallb_forall in Hall.
  specialize (Hall _ Hd). cbn [fst] in Hall.
  rewrite has_dot_lower, <- contains_dot, Hdot in Hall. discriminate Hall.
Qed.

Lemma update_blocked_items (o : set_order) (self : WindowsBlocker)
    (items : list string) (w : World) :
  blocked_items (fst (update_blocked o self items w)) = list_to_set (map lower items).
Proof.
  unfold update_blocked. cbv zeta.
  destruct (decide (list_to_set (map lower items) = blocked_items self)) as [E | E];
    [ symmetry; exact E | reflexivity ].
Qed.

(** X14.  After [update_blocked], in whatever order the set is met, the
    processes that [_kill_blocked_processes] hands to [taskkill] are
    exactly the processes of the known apps that the items name, in any
    letter case; an item with a dot in it (a domain) never costs a process
    its life. *)
Theorem kill_blocked_processes_after_update (o : set_order) (self : WindowsBlocker)
    (items : list string) (w : World) (p : string) :
  set_order_ok o ->
  (In p (_kill_blocked_processes o (fst (update_blocked o self items w)))
   <-> exists item, In item items /\ In p (processes_of_item item)) /\
  (forall item, contains "." item = true -> processes_of_item item = []).
Proof.
  intros Ho. split; [ | apply processes_of_item_domain ].
  unfold _kill_blocked_processes. rewrite update_blocked_items, in_flat_map.
  split.
  - intros (x & Hx & Hp).
    apply list_elem_of_In in Hx. rewrite (Ho _) in Hx.
    apply elem_of_elements, elem_of_list_to_set, list_elem_of_In, in_map_iff in Hx.
    destruct Hx as (item & <- & Hitem). exists item. split; [ exact Hitem | ].
    rewrite <- processes_of_item_lower. exact Hp.
  - intros (item & Hitem & Hp). exists (lower item). split.
    + apply list_elem_of_In. rewrite (Ho _).
      apply elem_of_elements, elem_of_list_to_set, list_elem_of_In, in_map_iff.
      exists item. split; [ reflexivity | exact Hitem ].
    + rewrite processes_of_item_lower. exact Hp.
Qed.

Lemma kill_blocked_processes_after_update_witness :
  In "steamwebhelper.exe"%string
     (_kill_blocked_processes elements
        (fst (update_blocked elements init ["STEAM"; "netflix.com"]%string admin_world)))
  <-> exists item, In item ["STEAM"; "netflix.com"]%string
                   /\ In "steamwebhelper.exe"%string (processes_of_item item).
Proof.
  apply (kill_blocked_processes_after_update elements init
           ["STEAM"; "netflix.com"]%string admin_world "steamwebhelper.exe").
  intros s. reflexivity.
Defined.

End ProcessKiller.

(* ===================================================================== *)
(** * Properties of the verdict on a screen text                         *)
(* ===================================================================== *)

Section ScreenVerdict.
Import Py ScreenAnalyzer ScreenAnalyzerSpec ScreenVerdictSpec.
Local Open Scope Q_scope.

(** The two outcomes of [classify_text], with the type that wins. *)
Lemma classify_text_cases (text app_hint : string) :
  let score := spec_score (lower text) (lower app_hint) in
  exists earlier best later,
    all_screen_types = earlier ++ best :: later
    /\ (forall st, In st earlier -> score st < score best)
    /\ (forall st, In st later -> score st <= score best)
    /\ ((score best < 1 /\ classify_text text app_hint = (UNKNOWN, 0%float, []))
        \/ (1 <= score best /\
            exists confidence,
              classify_text text app_hint
              = (best, confidence, spec_evidence (lower text) (lower app_hint) best))).
Proof.
  cbv zeta. unfold classify_text.
  destruct (classify_text_state (lower text) (lower app_hint)) as (Hscores & Hmatched).
  rewrite Hscores, Hmatched. clear Hscores Hmatched.
  set (f := fun st => Qred (spec_score (lower text) (lower app_hint) st)).
  change (map (fun st => (st, Qred (spec_score (lower text) (lower app_hint) st)))
              all_screen_types)
    with (map (fun k => (k, f k)) all_screen_types).
  destruct (best_key_first f) as (earlier & later & Hsplit & Hearlier & Hlater).
  set (best := best_key (map (fun k => (k, f k)) all_screen_types)) in *.
  assert (Hget : dict_get 0 (map (fun k => (k, f k)) all_screen_types) best = f best)
    by (destruct best; reflexivity).
  rewrite Hget.
  exists earlier, best, later. split; [ exact Hsplit | ]. split; [ | split ].
  - intros st Hin. apply Qred_lt. apply Hearlier. exact Hin.
  - intros st Hin. apply Qred_le. apply Hlater. exact Hin.
  - destruct (Qlt_le_dec (f best) 1) as [Hlt | Hge].
    + left. split; [ | reflexivity ]. unfold f in Hlt. rewrite Qred_correct in Hlt.
      exact Hlt.
    + right. split; [ unfold f in Hge; rewrite Qred_correct in Hge; exact Hge | ].
      eexists. reflexivity.
Qed.

(** ** What is filed under a type *)

Lemma for_type_nil {A : Type} (st : ScreenType) (key : string) :
  for_type st key (@nil A) = [].
Proof.
  unfold for_type. destruct (ScreenType_of_value key) as [st' |]; [ | reflexivity ].
  destruct (ScreenType_eqb st' st); reflexivity.
Qed.

Lemma for_type_app {A : Type} (st : ScreenType) (key : string) (a b : list A) :
  for_type st key (a ++ b) = for_type st key a ++ for_type st key b.
Proof.
  unfold for_type. destruct (ScreenType_of_value key) as [st' |]; [ | reflexivity ].
  destruct (ScreenType_eqb st' st); reflexivity.
Qed.

Lemma for_type_map {A B : Type} (f : A -> B) (st : ScreenType) (key : string)
    (l : list A) :
  for_type st key (map f l) = map f (for_type st key l).
Proof.
  unfold for_type. destruct (ScreenType_of_value key) as [st' |]; [ | reflexivity ].
  destruct (ScreenType_eqb st' st); reflexivity.
Qed.

Lemma for_type_hits (text : string) (st : ScreenType) (key : string) (l : list string) :
  for_type st key (hits text l) = hits text (for_type st key l).
Proof.
  unfold for_type. destruct (ScreenType_of_value key) as [st' |]; [ | reflexivity ].
  destruct (ScreenType_eqb st' st); reflexivity.
Qed.

Lemma for_type_In {A : Type} (st : ScreenType) (key : string) (l : list A) (x : A) :
  In x (for_type st key l) -> In x l.
Proof.
  unfold for_type. destruct (ScreenType_of_value key) as [st' |]; [ | intros [] ].
  destruct (ScreenType_eqb st' st); [ auto | intros [] ].
Qed.

(** The evidence of a type has one item for every pattern found. *)
Lemma general_evidence_length (table : list (string * list (string * list string)))
    (text : string) (st : ScreenType) :
  length (general_evidence_in table text st)
  = (length (hits text (tier_patterns_in table "strong" st))
     + length (hits text (tier_patterns_in table "medium" st)))%nat.
Proof.
  unfold general_evidence_in, tier_patterns_in.
  induction table as [| entry table IH]; [ reflexivity | ].
  cbn [flat_map]. rewrite !hits_app, !length_app, IH.
  rewrite for_type_app, length_app, !for_type_map, !length_map, !for_type_hits. lia.
Qed.

Lemma app_groups_evidence_length (text label : string) (st : ScreenType)
    (groups : list (string * list string)) :
  length (flat_map (fun group =>
                      for_type st (fst group)
                        (map (String.append label) (hits text (snd group)))) groups)
  = length (hits text (flat_map (fun group => for_type st (fst group) (snd group)) groups)).
Proof.
  induction groups as [| group groups IH]; [ reflexivity | ].
  cbn [flat_map]. rewrite hits_app, !length_app, IH.
  rewrite for_type_map, length_map, for_type_hits. reflexivity.
Qed.

Lemma app_evidence_length (table : list (string * list (string * list string)))
    (text app_lower : string) (st : ScreenType) :
  length (app_evidence_in table text app_lower st)
  = length (hits text (app_patterns_in table app_lower st)).
Proof.
  unfold app_evidence_in, app_patterns_in.
  induction table as [| entry table IH]; [ reflexivity | ].
  cbn [flat_map]. rewrite hits_app, !length_app, IH.
  destruct (contains (fst entry) app_lower); [ | reflexivity ].
  rewrite app_groups_evidence_length. reflexivity.
Qed.

Lemma count_zero (text : string) (patterns : list string) :
  length (hits text patterns) = O -> count text patterns = 0.
Proof. unfold count. intros ->. reflexivity. Qed.

Lemma no_evidence_no_score (text app_lower : string) (st : ScreenType) :
  spec_evidence text app_lower st = [] -> spec_score text app_lower st == 0.
Proof.
  intros H. apply (f_equal (@length string)) in H.
  unfold spec_evidence in H.
  rewrite length_app, general_evidence_length, app_evidence_length in H.
  cbn [length] in H. unfold spec_score.
  rewrite !count_zero by lia. reflexivity.
Qed.

Lemma files_nothing_patterns (st : ScreenType)
    (table : list (string * list (string * list string))) (app_lower : string) :
  files_nothing_under st table = true -> app_patterns_in table app_lower st = [].
Proof.
  unfold files_nothing_under, app_patterns_in.
  induction table as [| entry table IH]; [ reflexivity | ].
  cbn [forallb flat_map]. intros H. apply andb_prop in H. destruct H as [He Ht].
  rewrite (IH Ht), app_nil_r.
  destruct (contains (fst entry) app_lower); [ | reflexivity ].
  destruct (flat_map _ (snd entry)); [ reflexivity | discriminate He ].
Qed.

(** No pattern of either table is filed under [UNKNOWN]. *)
Lemma spec_score_UNKNOWN (text app_lower : string) :
  spec_score text app_lower UNKNOWN == 0.
Proof.
  unfold spec_score.
  rewrite (files_nothing_patterns UNKNOWN APP_SPECIFIC app_lower) by reflexivity.
  change (tier_patterns_in PATTERNS "strong" UNKNOWN) with (@nil string).
  change (tier_patterns_in PATTERNS "medium" UNKNOWN) with (@nil string).
  reflexivity.
Qed.

Lemma startswith_label (label rest : string) :
  startswith label (String.append label rest) = true.
Proof. apply startswith_append. Qed.

Lemma spec_evidence_labelled (text app_lower : string) (st : ScreenType) :
  forallb labelled (spec_evidence text app_lower st) = true.
Proof.
  apply forallb_forall. intros e He. unfold spec_evidence in He.
  apply in_app_or in He. destruct He as [He | He].
  - unfold general_evidence_in in He. apply in_flat_map in He.
    destruct He as (entry & _ & He). apply for_type_In in He.
    apply in_app_or in He. destruct He as [He | He];
      apply in_map_iff in He; destruct He as (p & <- & _); unfold labelled.
    + rewrite startswith_label. reflexivity.
    + rewrite startswith_label.
      destruct (startswith "strong:" (String.append "medium:" p)); reflexivity.
  - unfold app_evidence_in in He. apply in_flat_map in He.
    destruct He as (entry & _ & He).
    destruct (contains (fst entry) app_lower); [ | destruct He ].
    apply in_flat_map in He. destruct He as (group & _ & He).
    apply for_type_In in He. apply in_map_iff in He. destruct He as (p & <- & _).
    unfold labelled.
    replace (startswith "app:" (String.append ("app:" +:+ fst entry +:+ ":") p))
      with true.
    + destruct (startswith "strong:" _); [ reflexivity | ].
      destruct (startswith "medium:" _); reflexivity.
    + symmetry. change (String.append ("app:" +:+ fst entry +:+ ":") p)
        with (("app:" +:+ (fst entry +:+ ":")) +:+ p).
      rewrite append_assoc. apply startswith_append.
Qed.

(** X15.  [classify_text] answers [UNKNOWN] only in the bare form
    (UNKNOWN, 0.0, []): no pattern is filed under that type, so it never
    wins with a score.  Every other answer comes with evidence: the list of
    matched patterns is not empty, and each of its items bears the label
    "strong:", "medium:" or "app:". *)
Theorem classify_text_unknown_bare (text app_hint : string) :
  let r := classify_text text app_hint in
  (fst (fst r) = UNKNOWN -> r = (UNKNOWN, 0%float, [])) /\
  (fst (fst r) <> UNKNOWN -> snd r <> []) /\
  forallb labelled (snd r) = true.
Proof.
  cbv zeta.
  destruct (classify_text_cases text app_hint)
    as (earlier & best & later & _ & _ & _ & [[_ Hr] | [Hscore [c Hr]]]);
    cbv zeta in *; rewrite Hr; cbn [fst snd].
  - split; [ reflexivity | ]. split; [ intros H; contradiction H; reflexivity | reflexivity ].
  - split; [ | split ].
    + intros ->. exfalso.
      pose proof (spec_score_UNKNOWN (lower text) (lower app_hint)) as H0.
      lra.
    + intros _ Hnil. apply no_evidence_no_score in Hnil. lra.
    + apply spec_evidence_labelled.
Qed.

(** X16.  The analysis fails closed: a screen text on which none of the
    three types that are let through (DM, notifications, settings) reaches
    a score of 1 is blocked, whatever else it holds and whatever the hint. *)
Theorem should_block_unless_allowed_scores (text app_hint : string) :
  (forall st, In st let_through ->
              spec_score (lower text) (lower app_hint) st < 1) ->
  should_block (fst (fst (classify_text text app_hint))) = true.
Proof.
  intros Hlow.
  destruct (classify_text_cases text app_hint)
    as (earlier & best & later & _ & _ & _ & [[_ Hr] | [Hscore [c Hr]]]);
    cbv zeta in *; rewrite Hr; cbn [fst]; [ reflexivity | ].
  assert (Hnot : ~ In best let_through).
  { intros Hin. apply (Qlt_not_le _ _ (Hlow best Hin)). exact Hscore. }
  destruct best; try reflexivity; exfalso; apply Hnot; cbn; auto.
Qed.

Lemma should_block_unless_allowed_scores_witness :
  should_block (fst (fst (classify_text "Trending now: lorem ipsum" "twitter"))) = true.
Proof.
  apply should_block_unless_allowed_scores.
  intros st [<- | [<- | [<- | []]]]; vm_compute; reflexivity.
Defined.

(** ** The hint *)

Lemma scan_app_same_apps (text hint1 hint2 : string)
    (table : list (string * list (string * list string))) :
  same_apps table hint1 hint2 = true ->
  forall s, fold_left (scan_app text (lower hint1)) table s
            = fold_left (scan_app text (lower hint2)) table s.
Proof.
  unfold same_apps. induction table as [| entry table IH]; intros H s; [ reflexivity | ].
  cbn [forallb] in H. apply andb_prop in H. destruct H as [He Ht].
  apply Bool.eqb_prop in He. cbn [fold_left].
  assert (Hs : scan_app text (lower hint1) s entry = scan_app text (lower hint2) s entry).
  { unfold scan_app. destruct entry as [app_name app_patterns]. cbn [fst] in He.
    rewrite He. reflexivity. }
  rewrite Hs. apply IH. exact Ht.
Qed.

(** X17.  The hint matters to [classify_text] only through the apps of the
    table that it names: two hints in which the same app names occur give
    the same answer on every text.  A hint that names none of the six apps
    (such as "slack") is as good as no hint. *)
Theorem classify_text_hint (text hint1 hint2 : string) :
  same_apps APP_SPECIFIC hint1 hint2 = true ->
  classify_text text hint1 = classify_text text hint2.
Proof.
  intros H. unfold classify_text. cbv zeta.
  rewrite (scan_app_same_apps (lower text) hint1 hint2 APP_SPECIFIC H). reflexivity.
Qed.

Lemma classify_text_hint_witness :
  classify_text "#general text channels" "Slack" = classify_text "#general text channels" "".
Proof. apply classify_text_hint. vm_compute. reflexivity. Defined.

End ScreenVerdict.

(* ===================================================================== *)
(** * Properties of the history                                          *)
(* ===================================================================== *)

Section HistoryLimit.
Import Py Models History.

Lemma slice_from_all {A : Type} (l : list A) (n : nat) :
  slice_from (- (Z.of_nat (length l) + Z.of_nat n)) l = l.
Proof.
  unfold slice_from. cbv zeta.
  destruct (- (Z.of_nat (length l) + Z.of_nat n) <? 0) eqn:E.
  - replace (Z.to_nat _) with O by lia. reflexivity.
  - apply Z.ltb_ge in E. replace (Z.to_nat _) with O by lia. reflexivity.
Qed.

Lemma slice_from_zero {A : Type} (l : list A) : slice_from (- 0) l = l.
Proof.
  unfold slice_from. cbv zeta. change (- 0 <? 0) with false. cbv iota.
  replace (Z.to_nat (Z.min (- 0) (Z.of_nat (length l)))) with O by lia. reflexivity.
Qed.

Lemma skipn_length_app {A : Type} (a b : list A) : skipn (length a) (a ++ b) = b.
Proof. induction a as [| x a IH]; [ reflexivity | exact IH ]. Qed.

Lemma slice_from_last {A : Type} (old : list A) (r : A) (recent : list A) :
  slice_from (- Z.of_nat (length (r :: recent))) (old ++ r :: recent) = r :: recent.
Proof.
  unfold slice_from. cbv zeta.
  replace (- Z.of_nat (length (r :: recent)) <? 0) with true
    by (symmetry; apply Z.ltb_lt; cbn [length]; lia).
  rewrite length_app.
  replace (Z.to_nat _) with (length old) by (cbn [length]; lia).
  apply skipn_length_app.
Qed.

Lemma slice_from_first {A : Type} (o : A) (old rest : list A) :
  slice_from (- - Z.of_nat (length (o :: old))) ((o :: old) ++ rest) = rest.
Proof.
  unfold slice_from. cbv zeta. rewrite Z.opp_involutive.
  replace (Z.of_nat (length (o :: old)) <? 0) with false
    by (symmetry; apply Z.ltb_ge; lia).
  rewrite length_app.
  replace (Z.to_nat _) with (length (o :: old)) by lia.
  apply skipn_length_app.
Qed.

Lemma slice_from_length {A : Type} (p : positive) (l : list A) :
  (length (slice_from (- Z.pos p) l) <= Pos.to_nat p)%nat.
Proof.
  unfold slice_from. cbv zeta. change (- Z.pos p <? 0) with true. cbv iota.
  rewrite length_skipn. lia.
Qed.

Lemma map_result_length {A B : Type} (f : A -> result B) (l : list A) (bs : list B) :
  map_result f l = Ok bs -> length bs = length l.
Proof.
  revert bs. induction l as [| a l IH]; intros bs; cbn [map_result].
  - intros [= <-]. reflexivity.
  - destruct (f a) as [b | e]; [ | discriminate ]. cbn [bind].
    destruct (map_result f l) as [bs' | e]; [ | discriminate ]. cbn [bind].
    intros [= <-]. cbn [length]. rewrite (IH bs' eq_refl). reflexivity.
Qed.

Lemma filter_length_le {A : Type} (f : A -> bool) (l : list A) :
  (length (List.filter f l) <= length l)%nat.
Proof.
  induction l as [| a l IH]; [ reflexivity | ].
  cbn [List.filter]. destruct (f a); cbn [length]; lia.
Qed.

Lemma map_result_ok {A B : Type} (f : A -> result B) (l : list A) (bs : list B) :
  map_result f l = Ok bs <-> Forall2 (fun a b => f a = Ok b) l bs.
Proof.
  revert bs. induction l as [| a l IH]; intros bs; cbn [map_result].
  - split.
    + intros [= <-]. constructor.
    + intros H. inversion H. reflexivity.
  - split.
    + destruct (f a) as [b | e] eqn:Ea; [ | discriminate ]. cbn [bind].
      destruct (map_result f l) as [bs' | e] eqn:El; [ | discriminate ]. cbn [bind].
      intros [= <-]. constructor; [ exact Ea | ]. apply IH. reflexivity.
    + intros H. inversion H as [| a0 b l0 bs' Ha Hl]; subst.
      rewrite Ha. cbn [bind]. apply IH in Hl. rewrite Hl. reflexivity.
Qed.

Lemma map_result_raise {A B : Type} (f : A -> result B) (l : list A) (e : exn) :
  map_result f l = Raise e <->
  exists before a after,
    l = before ++ a :: after /\ Forall (fun x => is_ok (f x) = true) before
    /\ f a = Raise e.
Proof.
  split.
  - induction l as [| a l IH]; cbn [map_result]; [ discriminate | ].
    destruct (f a) as [b | e'] eqn:Ea; cbn [bind].
    + destruct (map_result f l) as [bs | e'']; cbn [bind]; [ discriminate | ].
      intros [= ->]. destruct (IH eq_refl) as (before & x & after & -> & Hb & Hx).
      exists (a :: before), x, after. split; [ reflexivity | ].
      split; [ constructor; [ rewrite Ea; reflexivity | exact Hb ] | exact Hx ].
    + intros [= ->]. exists [], a, l. auto.
  - intros (before & x & after & -> & Hb & Hx).
    induction before as [| y before IH]; cbn [List.app map_result].
    + rewrite Hx. reflexivity.
    + inversion Hb as [| y0 l0 Hy Hrest]; subst.
      destruct (f y) as [b | e']; [ | discriminate Hy ].
      cbn [bind]. rewrite (IH Hrest). reflexivity.
Qed.

Lemma all_space_app (a b : string) :
  BlockerSpec.all_space (a +:+ b) = BlockerSpec.all_space a && BlockerSpec.all_space b.
Proof.
  induction a as [| c a IH]; [ reflexivity | ].
  rewrite append_cons. cbn [BlockerSpec.all_space]. rewrite IH, andb_assoc. reflexivity.
Qed.

(** A line is dropped exactly when it holds nothing but white space. *)
Lemma strip_empty (line : string) :
  String.eqb (strip line) "" = BlockerSpec.all_space line.
Proof.
  destruct (String.eqb_spec (strip line) "") as [E | E].
  - destruct (strip_split line) as (l & r & Hl & Hr & Hs).
    rewrite E, append_nil in Hs. rewrite Hs, all_space_app, Hl, Hr. reflexivity.
  - destruct (BlockerSpec.all_space line) eqn:Ha; [ | reflexivity ].
    contradiction E. unfold strip. rewrite (all_space_lstrip _ Ha). reflexivity.
Qed.

Lemma load_history_zero (loads : string -> result json) (lines : list string) :
  load_history loads 0 (DbLines lines)
  = map_result loads (List.filter (fun line => negb (BlockerSpec.all_space line)) lines).
Proof.
  unfold load_history. cbv zeta. rewrite slice_from_zero. f_equal.
  apply filter_ext. intros line. rewrite strip_empty. reflexivity.
Qed.

(** X18.  [load_history] cuts the file with [lines[-limit:]] before it drops
    the blank lines.  With a limit of zero it does not give an empty
    history but the whole of it: the entries are what [json.loads] gives
    for every line that is not blank, in the order of the file, and the
    call raises what the first line that cannot be parsed raises.  Any
    limit beyond the number of lines does the same; a positive limit is the
    same as a limit of zero on that many last lines alone, whatever stands
    before them, and gives at most that many entries; a negative limit is
    the same as a limit of zero on the file without that many first lines.
    A file that does not exist gives the empty history. *)
Theorem load_history_limit (loads : string -> result json) :
  (forall lines entries,
     load_history loads 0 (DbLines lines) = Ok entries <->
     Forall2 (fun line entry => loads line = Ok entry)
             (List.filter (fun line => negb (BlockerSpec.all_space line)) lines) entries) /\
  (forall lines e,
     load_history loads 0 (DbLines lines) = Raise e <->
     exists before line after,
       List.filter (fun line => negb (BlockerSpec.all_space line)) lines
       = before ++ line :: after
       /\ Forall (fun l => is_ok (loads l) = true) before
       /\ loads line = Raise e) /\
  (forall lines n,
     load_history loads (Z.of_nat (length lines) + Z.of_nat n) (DbLines lines)
     = load_history loads 0 (DbLines lines)) /\
  (forall old r recent,
     load_history loads (Z.of_nat (length (r :: recent))) (DbLines (old ++ r :: recent))
     = load_history loads 0 (DbLines (r :: recent))) /\
  (forall p db entries,
     load_history loads (Z.pos p) db = Ok entries ->
     (length entries <= Pos.to_nat p)%nat) /\
  (forall o old rest,
     load_history loads (- Z.of_nat (length (o :: old))) (DbLines ((o :: old) ++ rest))
     = load_history loads 0 (DbLines rest)) /\
  (forall limit, load_history loads limit NoDb = Ok []) /\
  (forall limit, load_history loads limit UnreadableDb = Raise PermissionError).
Proof.
  split; [ | split; [ | split; [ | split; [ | split; [ | split; [ | split ] ] ] ] ] ].
  - intros lines entries. rewrite load_history_zero. apply map_result_ok.
  - intros lines e. rewrite load_history_zero. apply map_result_raise.
  - intros lines n. unfold load_history. cbv zeta.
    rewrite slice_from_zero, slice_from_all. reflexivity.
  - intros old r recent. unfold load_history. cbv zeta.
    rewrite slice_from_last, slice_from_zero. reflexivity.
  - intros p db entries. unfold load_history.
    destruct db as [| | lines]; [ intros [= <-]; cbn; lia | discriminate | ].
    cbv zeta. intros H. apply map_result_length in H. rewrite H.
    etransitivity; [ apply filter_length_le | apply slice_from_length ].
  - intros o old rest. unfold load_history. cbv zeta.
    rewrite slice_from_first, slice_from_zero. reflexivity.
  - reflexivity.
  - reflexivity.
Qed.

End HistoryLimit.

(* ===================================================================== *)
(** * Properties of the app                                              *)
(* ===================================================================== *)

Section AppProperties.
Import Py Models Blocker BlockerSpec ModelsSpec HostsSpec App AppSpec Scenarios.

(** ** The items of a new rule *)

Lemma split_on_nonempty (sep : ascii) (s : string) : split_on sep s <> [].
Proof.
  destruct s as [| c s]; cbn [split_on]; [ discriminate | ].
  destruct (Ascii.eqb c sep); [ discriminate | ].
  destruct (split_on sep s); discriminate.
Qed.

Lemma split_on_no_sep (sep : ascii) (s seg : string) :
  In seg (split_on sep s) -> has_char sep seg = false.
Proof.
  revert seg. induction s as [| c s IH]; intros seg; cbn [split_on].
  - intros [<- | []]. reflexivity.
  - destruct (Ascii.eqb c sep) eqn:Ec.
    + intros [<- | H]; [ reflexivity | apply IH; exact H ].
    + destruct (split_on sep s) as [| x rest] eqn:Es.
      * intros [<- | []]. cbn [has_char]. rewrite Ec. reflexivity.
      * intros [<- | H].
        -- cbn [has_char]. rewrite Ec. apply IH. left. reflexivity.
        -- apply IH. right. exact H.
Qed.

Lemma split_on_whole (sep : ascii) (s : string) :
  has_char sep s = false -> split_on sep s = [s].
Proof.
  induction s as [| c s IH]; [ reflexivity | ].
  cbn [has_char split_on]. destruct (Ascii.eqb c sep); [ discriminate | ].
  intros H. rewrite (IH H). reflexivity.
Qed.

Lemma split_on_app (sep : ascii) (a rest : string) :
  has_char sep a = false ->
  split_on sep (a +:+ String sep rest) = a :: split_on sep rest.
Proof.
  induction a as [| c a IH].
  - intros _. rewrite append_nil. cbn [split_on]. rewrite Ascii.eqb_refl. reflexivity.
  - cbn [has_char]. rewrite append_cons. cbn [split_on].
    destruct (Ascii.eqb c sep); [ discriminate | ].
    intros H. rewrite (IH H). reflexivity.
Qed.

Lemma clean_spec (i : string) :
  clean i = true <-> i <> EmptyString /\ strip i = i /\ has_char "," i = false.
Proof.
  unfold clean. destruct (String.eqb_spec i "") as [-> | Hne].
  - split; [ discriminate | intros (H & _); contradiction H; reflexivity ].
  - destruct (String.eqb_spec (strip i) i) as [Hs | Hs].
    + destruct (has_char "," i); cbn [negb]; split; try discriminate; auto.
      intros (_ & _ & H). discriminate H.
    + split; [ discriminate | intros (_ & H & _); contradiction ].
Qed.

Lemma strip_after_space (i : string) : strip (String " " i) = strip i.
Proof. reflexivity. Qed.

Lemma create_items_each (text i : string) :
  In i (create_items text) -> clean i = true.
Proof.
  unfold create_items. intros H. apply in_map_iff in H.
  destruct H as (seg & <- & Hseg). apply filter_In in Hseg.
  destruct Hseg as [Hin Hne]. apply clean_spec. split; [ | split ].
  - intros E. rewrite E in Hne. discriminate Hne.
  - apply strip_idempotent.
  - apply split_on_no_sep in Hin.
    destruct (strip_split seg) as (l & r & _ & _ & Hs).
    rewrite Hs, !has_char_app in Hin.
    destruct (has_char "," (strip seg)); [ | reflexivity ].
    rewrite orb_true_r in Hin. discriminate Hin.
Qed.

Lemma split_joined (x : string) (l : list string) :
  forallb clean (x :: l) = true ->
  split_on "," (join ", " (x :: l)) = x :: map (String " ") l.
Proof.
  revert x. induction l as [| y l IH]; intros x H.
  - cbn [forallb] in H. rewrite andb_true_r in H. apply clean_spec in H.
    cbn [join map]. apply split_on_whole. apply H.
  - cbn [forallb] in H. apply andb_prop in H. destruct H as [Hx Hl].
    apply clean_spec in Hx.
    change (join ", " (x :: y :: l)) with (x +:+ String "," (String " " (join ", " (y :: l)))).
    rewrite split_on_app by apply Hx.
    cbn [split_on]. change (Ascii.eqb " " ",") with false. cbv iota.
    rewrite (IH y Hl). reflexivity.
Qed.

(** X19.  Every item that [create] takes from the text of the dialog is
    not empty, has no white space at its ends and no comma in it; and the
    items are what the display shows: a list of such items joined with
    ", " is read back as that list. *)
Theorem create_items_round_trip (items : list string) :
  forallb clean items = true ->
  create_items (join ", " items) = items /\
  (forall text i, In i (create_items text) ->
     i <> EmptyString /\ strip i = i /\ has_char "," i = false).
Proof.
  intros H. split; [ | intros text i Hi; apply clean_spec, (create_items_each text i Hi) ].
  destruct items as [| x l]; [ reflexivity | ].
  unfold create_items. rewrite (split_joined x l H).
  cbn [forallb] in H. apply andb_prop in H. destruct H as [Hx Hl].
  apply clean_spec in Hx. destruct Hx as (Hne & Hs & _).
  cbn [List.filter]. rewrite Hs.
  destruct (String.eqb_spec x "") as [E | _]; [ contradiction | ].
  cbn [negb map]. rewrite Hs. f_equal.
  induction l as [| y l IH]; [ reflexivity | ].
  cbn [forallb] in Hl. apply andb_prop in Hl. destruct Hl as [Hy Hl].
  apply clean_spec in Hy. destruct Hy as (Hney & Hsy & _).
  cbn [map List.filter]. rewrite strip_after_space, Hsy.
  destruct (String.eqb_spec y "") as [E | _]; [ contradiction | ].
  cbn [negb map]. rewrite strip_after_space, Hsy, (IH Hl). reflexivity.
Qed.

Lemma create_items_round_trip_witness :
  create_items (join ", " ["Netflix"; "you tube"; "reddit.com"])
  = ["Netflix"; "you tube"; "reddit.com"]%string.
Proof.
  apply (create_items_round_trip ["Netflix"; "you tube"; "reddit.com"]%string).
  vm_compute. reflexivity.
Defined.

(** ** The update of the blocker *)

Lemma size_list_to_set_le (l : list string) :
  (size (list_to_set l : gset string) <= length l)%nat.
Proof.
  induction l as [| x l IH]; [ rewrite list_to_set_nil, size_empty; lia | ].
  rewrite list_to_set_cons, size_union_alt, size_singleton. cbn [length].
  assert (Hsub : (list_to_set l ∖ {[x]} : gset string) ⊆ list_to_set l)
    by apply subseteq_difference_l, reflexivity.
  apply subseteq_size in Hsub. lia.
Qed.

Lemma status_line_met (blocked : list string) :
  status_line blocked = "ALL CONDITIONS MET"%string <-> blocked = [].
Proof.
  destruct blocked as [| x l]; cbn [status_line]; split; try reflexivity; discriminate.
Qed.

Lemma list_to_set_lower_empty (blocked : list string) :
  (list_to_set (map lower blocked) : gset string) = ∅ <-> blocked = [].
Proof.
  destruct blocked as [| x l]; split; try reflexivity; try discriminate.
  intros H. exfalso. cbn [map] in H. rewrite list_to_set_cons in H. set_solver.
Qed.

(** X20.  When the clock stands still and every enabled rule can be
    evaluated, [update_blocking] returns and leaves the blocker with
    exactly the lower-cased items of the enabled rules whose condition is
    unmet.  The status line is made from the list that
    [get_blocked_items] returns, which holds each item of those rules once,
    spelt as the rule spells it: it reads "ALL CONDITIONS MET" when the
    list is empty, which is exactly when the set of the blocker is empty,
    and "BLOCKING n ITEMS" with the length n of the list otherwise, a
    number that the number of items blocked never exceeds.  The rules and
    the progress of the app stay as they were. *)
Theorem update_blocking_blocks (o : set_order) (d : DateTime) (m : Machine) :
  set_order_ok o ->
  clock m = frozen d ->
  (forall r, r ∈ store_rules (app m) -> enabled r = true ->
             is_ok (verdict d (progress (app m)) (condition r)) = true) ->
  exists m' items,
    get_blocked_items o (store_rules (app m)) (progress (app m)) (frozen d)
    = (Ok items, frozen d) /\
    NoDup items /\
    (forall x, x ∈ items <->
       exists r, r ∈ store_rules (app m) /\
                 ModelsSpec.blocking d (progress (app m)) r = true /\
                 In x (Models.blocked_items r)) /\
    update_blocking o m = (Ok tt, m') /\
    clock m' = frozen d /\
    store_rules (app m') = store_rules (app m) /\
    progress (app m') = progress (app m) /\
    Blocker.blocked_items (blocker (app m')) = list_to_set (map lower items) /\
    (forall x, x ∈ Blocker.blocked_items (blocker (app m')) <->
       exists r i, r ∈ store_rules (app m) /\
                   ModelsSpec.blocking d (progress (app m)) r = true /\
                   In i (Models.blocked_items r) /\ x = lower i) /\
    status (app m')
    = match items with
      | [] => "ALL CONDITIONS MET"
      | _ => "BLOCKING " +:+ str_of_int (Z.of_nat (length items)) +:+ " ITEMS"
      end%string /\
    (status (app m') = "ALL CONDITIONS MET"%string
     <-> Blocker.blocked_items (blocker (app m')) = ∅) /\
    (size (Blocker.blocked_items (blocker (app m'))) <= length items)%nat.
Proof.
  intros Ho Hk Hok. unfold update_blocking. cbv zeta.
  unfold get_blocked_items, mbind. rewrite Hk.
  rewrite (collect_blocked_frozen d (progress (app m)) (store_rules (app m)) Hok []).
  cbn [List.app]. unfold ret.
  set (found := flat_map (fun r => if ModelsSpec.blocking d (progress (App.app m)) r
                                   then Models.blocked_items r else [])
                         (store_rules (App.app m))).
  set (blocked := o (list_to_set found)).
  pose proof (update_blocked_items o (blocker (App.app m)) blocked (world m)) as Hset.
  destruct (update_blocked o (blocker (App.app m)) blocked (world m)) as [b' w'].
  cbn [fst] in Hset.
  assert (Hitems : forall x, x ∈ blocked <->
            exists r, r ∈ store_rules (App.app m) /\
                      ModelsSpec.blocking d (progress (App.app m)) r = true /\
                      In x (Models.blocked_items r)).
  { intros x. unfold blocked, found.
    rewrite (Ho _), elem_of_elements, elem_of_list_to_set, list_elem_of_In, in_flat_map.
    split.
    - intros (r & Hr & Hx). exists r.
      destruct (ModelsSpec.blocking d (progress (App.app m)) r); [ | destruct Hx ].
      apply list_elem_of_In in Hr. auto.
    - intros (r & Hr & Hb & Hx). exists r. rewrite Hb.
      apply list_elem_of_In in Hr. auto. }
  eexists. exists blocked. split; [ reflexivity | ].
  split; [ unfold blocked; rewrite (Ho _); apply NoDup_elements | ].
  split; [ exact Hitems | ].
  split; [ reflexivity | ].
  cbn [App.app clock blocker status store_rules progress]. rewrite Hset.
  split; [ reflexivity | ]. split; [ reflexivity | ]. split; [ reflexivity | ].
  split; [ reflexivity | ]. split; [ | split; [ | split ] ].
  - intros x. rewrite elem_of_list_to_set, list_elem_of_In, in_map_iff. split.
    + intros (i & <- & Hi). apply list_elem_of_In, Hitems in Hi.
      destruct Hi as (r & Hr & Hb & Hi). exists r, i. auto.
    + intros (r & i & Hr & Hb & Hi & ->). exists i. split; [ reflexivity | ].
      apply list_elem_of_In, Hitems. exists r. auto.
  - reflexivity.
  - rewrite status_line_met, list_to_set_lower_empty. reflexivity.
  - etransitivity; [ apply size_list_to_set_le | ]. rewrite length_map. reflexivity.
Qed.

Lemma update_blocking_blocks_witness :
  exists m' items,
    get_blocked_items elements [no_netflix] (mkProgress 0 0 None) (frozen half_past_four)
    = (Ok items, frozen half_past_four) /\
    NoDup items /\
    (forall x, x ∈ items <->
       exists r, r ∈ [no_netflix] /\
                 ModelsSpec.blocking half_past_four (mkProgress 0 0 None) r = true /\
                 In x (Models.blocked_items r)) /\
    update_blocking elements (started [no_netflix] half_past_four) = (Ok tt, m') /\
    clock m' = frozen half_past_four /\
    store_rules (app m') = [no_netflix] /\
    progress (app m') = mkProgress 0 0 None /\
    Blocker.blocked_items (blocker (app m')) = list_to_set (map lower items) /\
    (forall x, x ∈ Blocker.blocked_items (blocker (app m')) <->
       exists r i, r ∈ [no_netflix] /\
                   ModelsSpec.blocking half_past_four (mkProgress 0 0 None) r = true /\
                   In i (Models.blocked_items r) /\ x = lower i) /\
    status (app m')
    = match items with
      | [] => "ALL CONDITIONS MET"
      | _ => "BLOCKING " +:+ str_of_int (Z.of_nat (length items)) +:+ " ITEMS"
      end%string /\
    (status (app m') = "ALL CONDITIONS MET"%string
     <-> Blocker.blocked_items (blocker (app m')) = ∅) /\
    (size (Blocker.blocked_items (blocker (app m'))) <= length items)%nat.
Proof.
  apply (update_blocking_blocks elements half_past_four
           (started [no_netflix] half_past_four)).
  - intros s. reflexivity.
  - reflexivity.
  - intros r Hr _. apply list_elem_of_singleton in Hr. subst r. reflexivity.
Defined.

Lemma collect_blocked_raises (d : DateTime) (progress : Progress)
    (before after : list Rule) (r : Rule) (e : exn) :
  (forall r', r' ∈ before -> enabled r' = true ->
              is_ok (verdict d progress (condition r')) = true) ->
  enabled r = true ->
  verdict d progress (condition r) = Raise e ->
  forall blocked,
    collect_blocked (before ++ r :: after) progress blocked (frozen d)
    = (Raise e, frozen d).
Proof.
  intros Hok Hen Hraise. induction before as [| r' before IH]; intros blocked.
  - cbn [List.app collect_blocked]. rewrite Hen. cbn [negb].
    unfold mbind. rewrite check_condition_frozen, Hraise. reflexivity.
  - assert (Hrest : forall r0, r0 ∈ before -> enabled r0 = true ->
                               is_ok (verdict d progress (condition r0)) = true)
      by (intros r0 Hr0; apply Hok; right; exact Hr0).
    cbn [List.app collect_blocked].
    destruct (enabled r') eqn:Hen'; cbn [negb]; [ | apply IH; exact Hrest ].
    unfold mbind. rewrite check_condition_frozen.
    specialize (Hok r' (list_elem_of_here _ _) Hen').
    destruct (verdict d progress (condition r')) as [[met txt] | e']; [ | discriminate Hok ].
    cbn [fst]. destruct met; cbn [negb]; apply IH; exact Hrest.
Qed.

(** X21.  One enabled rule whose condition cannot be evaluated stops the
    whole update: when the rules before it can be evaluated and the clock
    stands still, [update_blocking] raises the exception of that rule and
    leaves the blocker, the hosts file and the status line as they were, so
    that no other rule takes effect either. *)
Theorem update_blocking_raises (o : set_order) (d : DateTime) (m : Machine)
    (before after : list Rule) (r : Rule) (e : exn) :
  clock m = frozen d ->
  store_rules (app m) = before ++ r :: after ->
  (forall r', r' ∈ before -> enabled r' = true ->
              is_ok (verdict d (progress (app m)) (condition r')) = true) ->
  enabled r = true ->
  verdict d (progress (app m)) (condition r) = Raise e ->
  update_blocking o m = (Raise e, m).
Proof.
  intros Hk Hrules Hok Hen Hraise. unfold update_blocking. cbv zeta.
  unfold get_blocked_items, mbind. rewrite Hk, Hrules.
  rewrite (collect_blocked_raises d _ before after r e Hok Hen Hraise []).
  rewrite <- Hk. destruct m as [a w k]. reflexivity.
Qed.

Lemma update_blocking_raises_witness :
  update_blocking elements (started [no_netflix; zero_steps; no_netflix] half_past_four)
  = (Raise ZeroDivisionError, started [no_netflix; zero_steps; no_netflix] half_past_four).
Proof.
  apply (update_blocking_raises elements half_past_four _ [no_netflix] [no_netflix]
           zero_steps ZeroDivisionError).
  - reflexivity.
  - reflexivity.
  - intros r Hr _. apply list_elem_of_singleton in Hr. subst r. reflexivity.
  - reflexivity.
  - vm_compute. reflexivity.
Defined.

End AppProperties.

(* ===================================================================== *)
(** * Rules that never lift                                              *)
(* ===================================================================== *)

Section NeverLifting.
Import Py Models ModelsSpec Scenarios.

Lemma verdict_never_met (d : DateTime) (progress : Progress) (c : Condition) :
  type c = TOMORROW \/ type c = PASSWORD ->
  exists text, verdict d progress c = Ok (false, text).
Proof.
  unfold verdict, check_condition. intros [-> | ->]; eexists; reflexivity.
Qed.

(** X22.  A rule on the condition "tomorrow" or "password" never lifts: at
    every instant and whatever the progress, as long as it is enabled (and
    the other enabled rules can be evaluated) each of its items is among
    the blocked items.  Neither the date nor the creation stamp of the rule
    is looked at. *)
Theorem get_blocked_items_never_lifts (o : set_order) (d : DateTime)
    (progress : Progress) (rules : list Rule) (r : Rule) :
  set_order_ok o ->
  (forall r', r' ∈ rules -> enabled r' = true ->
              is_ok (verdict d progress (condition r')) = true) ->
  r ∈ rules -> enabled r = true ->
  type (condition r) = TOMORROW \/ type (condition r) = PASSWORD ->
  exists items,
    get_blocked_items o rules progress (frozen d) = (Ok items, frozen d) /\
    forall x, x ∈ Models.blocked_items r -> x ∈ items.
Proof.
  intros Ho Hok Hr Hen Htype.
  unfold get_blocked_items, mbind.
  rewrite (collect_blocked_frozen d progress rules Hok []). cbn [List.app]. unfold ret.
  eexists. split; [ reflexivity | ].
  intros x Hx. rewrite (Ho _), elem_of_elements, elem_of_list_to_set, list_elem_of_In.
  apply in_flat_map. exists r. split; [ apply list_elem_of_In; exact Hr | ].
  destruct (verdict_never_met d progress (condition r) Htype) as (text & Hv).
  unfold blocking, unmet. rewrite Hen, Hv. cbn [andb].
  apply list_elem_of_In. exact Hx.
Qed.

Lemma get_blocked_items_never_lifts_witness :
  exists items,
    get_blocked_items elements [no_netflix] idle (frozen one_past_five)
    = (Ok items, frozen one_past_five) /\
    forall x, x ∈ Models.blocked_items no_netflix -> x ∈ items.
Proof.
  apply (get_blocked_items_never_lifts elements one_past_five idle [no_netflix] no_netflix).
  - intros s. reflexivity.
  - intros r Hr _. apply list_elem_of_singleton in Hr. subst r. reflexivity.
  - apply list_elem_of_here.
  - reflexivity.
  - left. reflexivity.
Defined.

End NeverLifting.

(* ===================================================================== *)
(** * Progress and the blocked items                                     *)
(* ===================================================================== *)

Section ProgressMonotone.
Import Py Models ModelsSpec ProgressSpec Scenarios.

Lemma verdict_unmet_back (d : DateTime) (p p' : Progress) (c : Condition) (text' : string) :
  no_less p p' ->
  is_ok (verdict d p c) = true ->
  verdict d p' c = Ok (false, text') ->
  exists text, verdict d p c = Ok (false, text).
Proof.
  intros (Hsteps & Hwork & Hloc). unfold verdict, check_condition.
  destruct (type c).
  - unfold lift. cbn [fst]. unfold check_steps.
    destruct (steps_target c) as [target |]; cbn [required bind]; [ | discriminate ].
    destruct (int_truediv (steps_today p) target) as [q |]; cbn [bind]; [ | discriminate ].
    destruct (int_of_float (q * 100)) as [n |]; cbn [bind]; [ | discriminate ].
    intros _.
    destruct (int_truediv (steps_today p') target) as [q' |]; cbn [bind]; [ | discriminate ].
    destruct (int_of_float (q' * 100)) as [n' |]; cbn [bind]; [ | discriminate ].
    intros [= Hmet _]. apply Z.leb_gt in Hmet.
    replace (target <=? steps_today p) with false by (symmetry; apply Z.leb_gt; lia).
    eexists. reflexivity.
  - intros _ H. exists text'. exact H.
  - unfold lift. cbn [fst]. unfold check_workout.
    destruct (workout_minutes c) as [target |]; cbn [required bind]; [ | discriminate ].
    intros _ [= Hmet _]. apply Z.leb_gt in Hmet.
    replace (target <=? workout_minutes_today p) with false
      by (symmetry; apply Z.leb_gt; lia).
    eexists. reflexivity.
  - unfold lift. cbn [fst]. unfold check_location. rewrite Hloc.
    intros _ H. exists text'. exact H.
  - intros _ H. exists text'. exact H.
  - intros _ H. exists text'. exact H.
Qed.

(** X23.  More progress never blocks more: at one instant, when every
    enabled rule can be evaluated under both, the items blocked under a
    progress with as many steps and workout minutes or more, at the same
    place, are among the items blocked under the lesser progress. *)
Theorem get_blocked_items_monotone (o : set_order) (d : DateTime)
    (p p' : Progress) (rules : list Rule) :
  set_order_ok o ->
  no_less p p' ->
  (forall r, r ∈ rules -> enabled r = true ->
             is_ok (verdict d p (condition r)) = true) ->
  (forall r, r ∈ rules -> enabled r = true ->
             is_ok (verdict d p' (condition r)) = true) ->
  exists items items',
    get_blocked_items o rules p (frozen d) = (Ok items, frozen d) /\
    get_blocked_items o rules p' (frozen d) = (Ok items', frozen d) /\
    forall x, x ∈ items' -> x ∈ items.
Proof.
  intros Ho Hless Hok Hok'. unfold get_blocked_items, mbind.
  rewrite (collect_blocked_frozen d p rules Hok []).
  rewrite (collect_blocked_frozen d p' rules Hok' []).
  cbn [List.app]. unfold ret.
  eexists. eexists. split; [ reflexivity | ]. split; [ reflexivity | ].
  intros x. rewrite !(Ho _), !elem_of_elements, !elem_of_list_to_set, !list_elem_of_In,
    !in_flat_map.
  intros (r & Hr & Hx). exists r. split; [ exact Hr | ].
  unfold blocking in *. destruct (enabled r) eqn:Hen; [ | destruct Hx ].
  cbn [andb] in *. unfold unmet in *.
  destruct (verdict d p' (condition r)) as [[[|] text'] |] eqn:Hv'; try destruct Hx.
  destruct (verdict_unmet_back d p p' (condition r) text' Hless) as (text & Hv).
  - apply Hok; [ apply list_elem_of_In; exact Hr | exact Hen ].
  - exact Hv'.
  - rewrite Hv. exact Hx.
Qed.

Lemma get_blocked_items_monotone_witness :
  exists items items',
    get_blocked_items elements [walk_first; no_netflix] (mkProgress 7999 0 None)
      (frozen half_past_four) = (Ok items, frozen half_past_four) /\
    get_blocked_items elements [walk_first; no_netflix] (mkProgress 8000 20 None)
      (frozen half_past_four) = (Ok items', frozen half_past_four) /\
    forall x, x ∈ items' -> x ∈ items.
Proof.
  apply (get_blocked_items_monotone elements half_past_four
           (mkProgress 7999 0 None) (mkProgress 8000 20 None) [walk_first; no_netflix]).
  - intros s. reflexivity.
  - unfold no_less. cbn. repeat split; lia.
  - intros r Hr _. apply elem_of_cons in Hr. destruct Hr as [-> | Hr].
    + vm_compute. reflexivity.
    + apply list_elem_of_singleton in Hr. subst r. reflexivity.
  - intros r Hr _. apply elem_of_cons in Hr. destruct Hr as [-> | Hr].
    + vm_compute. reflexivity.
    + apply list_elem_of_singleton in Hr. subst r. reflexivity.
Defined.

End ProgressMonotone.

(* ===================================================================== *)
(** * The lines that a rewriting puts into the hosts file                *)
(* ===================================================================== *)

Section HostsLines.
Import Py Blocker BlockerSpec HostsSpec Scenarios.







End HostsLines.
